(** * ConsoleBotAssistant: the contact record, its validated fields and the stores

    A shallow embedding of [record.py] (the classes [Field], [Phone], [Email],
    [Birthday], [Record], [AddressBook], [Note]) and of the pieces of
    [assistant.py] that carry logic of their own: the queries of
    [BirthAssistant] ([birthday_in_given_days], [get_birthdays_per_week],
    [birthdays_for_date]), the tag operations of [NotesAssistant], and the
    menus that read lines from the terminal and draw tables or write the
    stores to their files ([ContactAssistant.search], [show_all],
    [delete_contact], the menus of the birthdays and of the notes); together
    with the parts of the Python runtime these rely on: [str] methods, the
    fragment of [re] the patterns use, and [datetime.date].

    Conventions.
    - A Python [str] is a [list ascii]; a character stands for the code point
      of the same number, so the strings of the model are the Python strings
      over the code points 0..255.
    - A call that may raise returns a [result]; a method that mutates its
      object is a function in the monad [M] over the state of that object,
      which gives the state back also when an exception leaves the method.
    - [date.today()] is the parameter [today].
    - A menu is a function in the monad [Run] over the terminal: the lines
      still to be typed, and what has been shown.  A loop [while True] runs
      on fuel, one unit more than the lines to be typed. *)

From Stdlib Require Import ZArith String Ascii List Bool Arith Lia.
From Stdlib Require Import Sorted Permutation.
Import ListNotations.

(* ================================================================= *)
(** ** Exceptions, results and the state monad of a mutable object   *)
(* ================================================================= *)

Definition str := list ascii.

(** A string literal. *)
Definition lit (s : string) : str := list_ascii_of_string s.

Inductive exn : Type :=
| ValueError (msg : str)
| OverflowError (msg : str).

Inductive result (A : Type) : Type :=
| Return (a : A)
| Raise (e : exn).

Arguments Return {A} a.
Arguments Raise {A} e.

Definition res_bind {A B} (r : result A) (k : A -> result B) : result B :=
  match r with
  | Return a => k a
  | Raise e => Raise e
  end.

(** A method of an object whose state is an [S]: from the state before the
    call, what the call returns or raises, and the state after it. *)
Definition M (S A : Type) : Type := S -> result A * S.

Definition ret {S A} (a : A) : M S A := fun s => (Return a, s).

Definition bind {S A B} (m : M S A) (k : A -> M S B) : M S B :=
  fun s => match m s with
           | (Return a, s') => k a s'
           | (Raise e, s') => (Raise e, s')
           end.

Definition get {S} : M S S := fun s => (Return s, s).

Definition put {S} (s : S) : M S unit := fun _ => (Return tt, s).

Definition modify {S} (f : S -> S) : M S unit := fun s => (Return tt, f s).

(** A call that may raise and does not touch the state. *)
Definition lift {S A} (r : result A) : M S A := fun s => (r, s).

Declare Scope py_scope.
Delimit Scope py_scope with py.
Notation "x <- m ;; k" := (bind m (fun x => k))
  (at level 61, m at next level, right associativity) : py_scope.
Notation "m ;;; k" := (bind m (fun _ => k))
  (at level 61, right associativity) : py_scope.
Notation "'try!' x <- r ;; k" := (res_bind r (fun x => k))
  (at level 61, x name, r at next level, right associativity) : py_scope.

Local Open Scope py_scope.

(* ================================================================= *)
(** ** [str]                                                         *)
(* ================================================================= *)

Module Str.

Definition code (c : ascii) : nat := nat_of_ascii c.

Definition in_range (lo hi c : ascii) : bool :=
  (code lo <=? code c) && (code c <=? code hi).

Definition is_char (x c : ascii) : bool := Ascii.eqb x c.

(** The ASCII decimal digits [0-9]. *)
Definition ascii_digit (c : ascii) : bool := in_range "0" "9" c.

(** [Py_UNICODE_ISDIGIT] on the code points below 256: the ASCII digits and
    SUPERSCRIPT TWO (U+00B2), SUPERSCRIPT THREE (U+00B3), SUPERSCRIPT ONE
    (U+00B9). *)
Definition isdigit_char (c : ascii) : bool :=
  ascii_digit c
  || (code c =? 178) || (code c =? 179) || (code c =? 185).

(** [s.isdigit()]: every character is a digit and there is at least one. *)
Definition isdigit (s : str) : bool :=
  match s with
  | [] => false
  | _ => forallb isdigit_char s
  end.

(** [c.lower()] on the code points below 256: [A-Z] and the upper-case
    letters U+00C0..U+00DE except the multiplication sign U+00D7 move up by
    32; every other character is its own lower case. *)
Definition lower_char (c : ascii) : ascii :=
  if in_range "A" "Z" c
     || ((192 <=? code c) && (code c <=? 222) && negb (code c =? 215))
  then ascii_of_nat (code c + 32)
  else c.

Definition lower (s : str) : str := map lower_char s.

Definition eqb (a b : str) : bool :=
  if list_eq_dec ascii_dec a b then true else false.

Fixpoint startswith (p s : str) : bool :=
  match p, s with
  | [], _ => true
  | a :: p', b :: s' => Ascii.eqb a b && startswith p' s'
  | _ :: _, [] => false
  end.

(** [sub in s]: [sub] occurs in [s] as a contiguous substring. *)
Fixpoint contains (sub s : str) : bool :=
  startswith sub s
  || match s with
     | [] => false
     | _ :: s' => contains sub s'
     end.

(** [sep.join(l)] *)
Fixpoint join (sep : str) (l : list str) : str :=
  match l with
  | [] => []
  | [x] => x
  | x :: l' => x ++ sep ++ join sep l'
  end.

Definition digit_char (n : nat) : ascii := ascii_of_nat (48 + n).

(** The decimal digits of a natural number, most significant first; [fuel]
    bounds the number of digits. *)
Fixpoint digits_of (fuel n : nat) (acc : str) : str :=
  match fuel with
  | O => acc
  | S fuel' =>
      let acc' := digit_char (n mod 10) :: acc in
      if n / 10 =? 0 then acc' else digits_of fuel' (n / 10) acc'
  end.

Definition of_nat (n : nat) : str := digits_of (S n) n [].

(** [str(n)] for an [int]. *)
Definition of_Z (z : Z) : str :=
  match z with
  | Z0 => lit "0"
  | Zpos p => of_nat (Pos.to_nat p)
  | Zneg p => "-"%char :: of_nat (Pos.to_nat p)
  end.

(** ["%0<w>d" % n] for [n >= 0]. *)
Definition zfill (w : nat) (s : str) : str :=
  repeat "0"%char (w - length s) ++ s.

Definition isspace_char (c : ascii) : bool :=
  ((9 <=? code c) && (code c <=? 13)) || ((28 <=? code c) && (code c <=? 32))
  || (code c =? 133) || (code c =? 160).

Fixpoint lstrip (s : str) : str :=
  match s with
  | c :: s' => if isspace_char c then lstrip s' else s
  | [] => []
  end.

Definition strip (s : str) : str := rev (lstrip (rev (lstrip s))).

Definition digit_value (c : ascii) : Z := Z.of_nat (code c - 48).

(** [int(s)] on the strings that, once stripped of surrounding white space,
    are a run of ASCII digits: the groups of a [strptime] pattern capture
    nothing else.  Any other string is reported as [None]. *)
Definition to_int (s : str) : option Z :=
  match strip s with
  | [] => None
  | t => if forallb ascii_digit t
         then Some (fold_left (fun acc c => (10 * acc + digit_value c)%Z) t 0%Z)
         else None
  end.

(** The escape sequences that colour the messages. *)
Definition esc : ascii := ascii_of_nat 27.

Definition red (s : str) : str :=
  esc :: lit "[91m" ++ s ++ esc :: lit "[0m".

Definition green (s : str) : str :=
  esc :: lit "[92m" ++ s ++ esc :: lit "[0m".

Definition teal (s : str) : str :=
  esc :: lit "[38;2;10;235;190m" ++ s ++ esc :: lit "[0m".

End Str.


(* ================================================================= *)
(** ** [re]: the fragment the patterns of the program are written in *)
(* ================================================================= *)

Module Re.

(** Patterns.  [Chr cls] is one character of a class (a literal is the class
    of one character), [Rep n cls] the greedy repetition [cls{n,}] (so [+] is
    [Rep 1]), [Bol] and [Eol] are [^] and [$] without [re.MULTILINE], and
    [Grp] is a named group. *)
Inductive regex : Type :=
| Chr (cls : ascii -> bool)
| Seq (r1 r2 : regex)
| Alt (r1 r2 : regex)
| Rep (n : nat) (cls : ascii -> bool)
| Bol
| Eol
| Grp (name : string) (r : regex).

(** A state of the matcher: the position reached, the input still ahead and
    the groups captured so far. *)
Record mstate : Type := mk_mstate {
  pos : nat;
  rest : str;
  groups : list (string * str)
}.

(** The ends of the runs of [cls] starting at the current position, the
    longest first: the order in which a greedy repetition gives characters
    back. *)
Fixpoint greedy (cls : ascii -> bool) (p : nat) (s : str)
  (g : list (string * str)) : list mstate :=
  match s with
  | c :: s' =>
      if cls c then greedy cls (S p) s' g ++ [mk_mstate p s g]
      else [mk_mstate p s g]
  | [] => [mk_mstate p s g]
  end.

(** [$] matches at the end of the string and just before a newline that is
    the last character of the string. *)
Definition at_eol (s : str) : bool :=
  match s with
  | [] => true
  | [c] => Str.code c =? 10
  | _ => false
  end.

(** All the ways [r] matches at a state, in the order the backtracking
    matcher tries them: the head of the list is the match it reports. *)
Fixpoint run (r : regex) (st : mstate) : list mstate :=
  match r with
  | Chr cls =>
      match rest st with
      | c :: s' => if cls c then [mk_mstate (S (pos st)) s' (groups st)] else []
      | [] => []
      end
  | Seq r1 r2 => flat_map (run r2) (run r1 st)
  | Alt r1 r2 => run r1 st ++ run r2 st
  | Rep n cls =>
      filter (fun st' => pos st + n <=? pos st')
             (greedy cls (pos st) (rest st) (groups st))
  | Bol => if pos st =? 0 then [st] else []
  | Eol => if at_eol (rest st) then [st] else []
  | Grp name r' =>
      map (fun st' =>
             mk_mstate (pos st') (rest st')
                       ((name, firstn (pos st' - pos st) (rest st)) :: groups st'))
          (run r' st)
  end.

(** [re.match(r, s)] *)
Definition re_match (r : regex) (s : str) : option mstate :=
  hd_error (run r (mk_mstate 0 s [])).

(** [re.search(r, s)]: the first position, from the left, at which [r]
    matches. *)
Fixpoint search_from (r : regex) (p : nat) (s : str) : option mstate :=
  match hd_error (run r (mk_mstate p s [])) with
  | Some m => Some m
  | None =>
      match s with
      | [] => None
      | _ :: s' => search_from r (S p) s'
      end
  end.

Definition search (r : regex) (s : str) : option mstate := search_from r 0 s.

(** [m.group(name)] *)
Fixpoint group (name : string) (g : list (string * str)) : option str :=
  match g with
  | [] => None
  | (n, v) :: g' => if String.eqb n name then Some v else group name g'
  end.

(** A literal character, a range [[lo-hi]], and [\d], which on the code
    points below 256 is [[0-9]]. *)
Definition c (x : ascii) : regex := Chr (Str.is_char x).

Definition rng (lo hi : ascii) : regex := Chr (Str.in_range lo hi).

Definition digit : regex := Chr Str.ascii_digit.

End Re.

(* ================================================================= *)
(** ** [datetime.date]                                               *)
(* ================================================================= *)

Module Date.

Local Open Scope Z_scope.

Record date : Type := mk_date { year : Z; month : Z; day : Z }.

Definition MINYEAR : Z := 1.
Definition MAXYEAR : Z := 9999.
Definition MAXORDINAL : Z := 3652059.

Definition is_leap (y : Z) : bool :=
  (y mod 4 =? 0) && (negb (y mod 100 =? 0) || (y mod 400 =? 0)).

Definition DAYS_IN_MONTH : list Z :=
  [0; 31; 28; 31; 30; 31; 30; 31; 31; 30; 31; 30; 31].

Definition DAYS_BEFORE_MONTH : list Z :=
  [0; 0; 31; 59; 90; 120; 151; 181; 212; 243; 273; 304; 334].

Definition days_in_month (y m : Z) : Z :=
  if (m =? 2) && is_leap y then 29 else nth (Z.to_nat m) DAYS_IN_MONTH 0.

Definition days_before_month (y m : Z) : Z :=
  nth (Z.to_nat m) DAYS_BEFORE_MONTH 0
  + (if (2 <? m) && is_leap y then 1 else 0).

Definition days_before_year (y : Z) : Z :=
  let y' := y - 1 in
  y' * 365 + y' / 4 - y' / 100 + y' / 400.

Definition ymd_to_ord (y m d : Z) : Z :=
  days_before_year y + days_before_month y m + d.

(** The checks of the constructor [date(y, m, d)]. *)
Definition new (y m d : Z) : result date :=
  if negb ((MINYEAR <=? y) && (y <=? MAXYEAR)) then
    Raise (ValueError (lit "year " ++ Str.of_Z y ++ lit " is out of range"))
  else if negb ((1 <=? m) && (m <=? 12)) then
    Raise (ValueError (lit "month must be in 1..12"))
  else if negb ((1 <=? d) && (d <=? days_in_month y m)) then
    Raise (ValueError (lit "day is out of range for month"))
  else Return (mk_date y m d).

Definition valid (d : date) : bool :=
  (MINYEAR <=? year d) && (year d <=? MAXYEAR)
  && (1 <=? month d) && (month d <=? 12)
  && (1 <=? day d) && (day d <=? days_in_month (year d) (month d)).

(** [d.replace(year=y)] *)
Definition replace_year (d : date) (y : Z) : result date :=
  new y (month d) (day d).

(** [d.toordinal()] *)
Definition toordinal (d : date) : Z := ymd_to_ord (year d) (month d) (day d).

Definition DI400Y : Z := 146097.
Definition DI100Y : Z := 36524.
Definition DI4Y : Z := 1461.

(** The month and the day of the [n]-th day of a year, counted from 0: the
    month is estimated as [(n + 50) >> 5] and lowered by one when the estimate
    starts after the day. *)
Definition month_and_day (n : Z) (leapyear : bool) : Z * Z :=
  let m := Z.shiftr (n + 50) 5 in
  let preceding :=
    nth (Z.to_nat m) DAYS_BEFORE_MONTH 0
    + (if (2 <? m) && leapyear then 1 else 0) in
  if n <? preceding then
    let m' := m - 1 in
    let preceding' :=
      preceding - (nth (Z.to_nat m') DAYS_IN_MONTH 0
                   + (if (m' =? 2) && leapyear then 1 else 0)) in
    (m', n - preceding' + 1)
  else (m, n - preceding + 1).

(** [ord_to_ymd]: the date of an ordinal, day 1 being 0001-01-01.  The
    ordinal is split into 400-year, 100-year and 4-year cycles and single
    years; the last day of a 4-year or 400-year cycle is the 31 December
    that the divisions put one year too far. *)
Definition ord_to_ymd (ordinal : Z) : date :=
  let n := ordinal - 1 in
  let n400 := n / DI400Y in
  let n := n mod DI400Y in
  let n100 := n / DI100Y in
  let n := n mod DI100Y in
  let n4 := n / DI4Y in
  let n := n mod DI4Y in
  let n1 := n / 365 in
  let n := n mod 365 in
  let y := n400 * 400 + 1 + n100 * 100 + n4 * 4 + n1 in
  if (n1 =? 4) || (n100 =? 4) then mk_date (y - 1) 12 31
  else
    let leapyear := (n1 =? 3) && (negb (n4 =? 24) || (n100 =? 3)) in
    let (m, d) := month_and_day n leapyear in
    mk_date y m d.

(** [d + timedelta(days=n)] *)
Definition add_days (d : date) (n : Z) : result date :=
  let o := toordinal d + n in
  if (1 <=? o) && (o <=? MAXORDINAL) then Return (ord_to_ymd o)
  else Raise (OverflowError (lit "date value out of range")).

(** [(a - b).days] *)
Definition sub (a b : date) : Z := toordinal a - toordinal b.

(** Dates compare as the triples (year, month, day). *)
Definition eqb (a b : date) : bool :=
  (year a =? year b) && (month a =? month b) && (day a =? day b).

Definition ltb (a b : date) : bool :=
  (year a <? year b)
  || ((year a =? year b)
      && ((month a <? month b)
          || ((month a =? month b) && (day a <? day b)))).

Definition leb (a b : date) : bool := ltb a b || eqb a b.

(** The regular expression [_strptime] compiles for the format
    ["%Y.%m.%d"]:
    [(?P<Y>\d\d\d\d)\.(?P<m>1[0-2]|0[1-9]|[1-9])\.(?P<d>3[0-1]|[1-2]\d|0[1-9]|[1-9]| [1-9])]. *)
Definition re_Y : Re.regex :=
  Re.Grp "Y" (Re.Seq Re.digit (Re.Seq Re.digit (Re.Seq Re.digit Re.digit))).

Definition re_m : Re.regex :=
  Re.Grp "m"
    (Re.Alt (Re.Seq (Re.c "1") (Re.rng "0" "2"))
       (Re.Alt (Re.Seq (Re.c "0") (Re.rng "1" "9"))
          (Re.rng "1" "9"))).

Definition re_d : Re.regex :=
  Re.Grp "d"
    (Re.Alt (Re.Seq (Re.c "3") (Re.rng "0" "1"))
       (Re.Alt (Re.Seq (Re.rng "1" "2") Re.digit)
          (Re.Alt (Re.Seq (Re.c "0") (Re.rng "1" "9"))
             (Re.Alt (Re.rng "1" "9")
                (Re.Seq (Re.c " ") (Re.rng "1" "9")))))).

Definition format_regex : Re.regex :=
  Re.Seq re_Y (Re.Seq (Re.c ".") (Re.Seq re_m (Re.Seq (Re.c ".") re_d))).

Definition group_int (name : string) (g : list (string * str)) : option Z :=
  match Re.group name g with
  | Some v => Str.to_int v
  | None => None
  end.

(** [datetime.strptime(s, "%Y.%m.%d").date()] *)
Definition strptime (s : str) : result date :=
  match Re.re_match format_regex s with
  | None =>
      Raise (ValueError (lit "time data does not match format"))
  | Some found =>
      if negb (length s =? Re.pos found)%nat then
        Raise (ValueError (lit "unconverted data remains"))
      else
        match group_int "Y" (Re.groups found),
              group_int "m" (Re.groups found),
              group_int "d" (Re.groups found) with
        | Some y, Some m, Some d => new y m d
        | _, _, _ => Raise (ValueError (lit "invalid literal for int()"))
        end
  end.

Definition two_digits (n : Z) : str := Str.zfill 2 (Str.of_Z n).

(** [d.strftime("%Y.%m.%d")].  The month and the day are padded to two
    digits.  How [%Y] prints a year below 1000 is left to the C library (glibc
    does not pad it); from the year 1000 on it is the four digits of the
    year, and the properties below use the rendering from there on only. *)
Definition strftime (d : date) : str :=
  Str.of_Z (year d) ++ lit "." ++ two_digits (month d)
  ++ lit "." ++ two_digits (day d).

(** [str(d)], the ISO form [YYYY-MM-DD]. *)
Definition isoformat (d : date) : str :=
  Str.zfill 4 (Str.of_Z (year d)) ++ lit "-" ++ two_digits (month d)
  ++ lit "-" ++ two_digits (day d).

End Date.

(* ================================================================= *)
(** ** [record.py]: the fields                                       *)
(* ================================================================= *)

(** A field holds one value.  The setter of a field either stores the value,
    giving the new state of the field, or raises and leaves the field as it
    was; [Field.__init__] is the setter applied to a fresh object, so the
    constructor of a field is its setter. *)

Record Name : Type := mk_Name { Name_value : str }.

Record Address : Type := mk_Address { Address_value : str }.

Record Email : Type := mk_Email { Email_value : str }.

Record Birthday : Type := mk_Birthday { Birthday_value : Date.date }.

Record Phone : Type := mk_Phone { Phone_value : str }.

Definition letter_or_digit (x : ascii) : bool :=
  Str.in_range "a" "z" x || Str.in_range "A" "Z" x || Str.in_range "0" "9" x.

(** [[a-zA-Z0-9._]] *)
Definition local_class (x : ascii) : bool :=
  letter_or_digit x || Str.is_char "." x || Str.is_char "_" x.

(** [[a-zA-Z0-9.-]] *)
Definition domain_class (x : ascii) : bool :=
  letter_or_digit x || Str.is_char "." x || Str.is_char "-" x.

(** [[a-zA-Z]] *)
Definition letter_class (x : ascii) : bool :=
  Str.in_range "a" "z" x || Str.in_range "A" "Z" x.

(** [^[a-zA-Z0-9._]+@[a-zA-Z0-9.-]+\.[a-zA-Z]{2,}$] *)
Definition Email_pattern : Re.regex :=
  Re.Seq Re.Bol
    (Re.Seq (Re.Rep 1 local_class)
       (Re.Seq (Re.c "@")
          (Re.Seq (Re.Rep 1 domain_class)
             (Re.Seq (Re.c ".")
                (Re.Seq (Re.Rep 2 letter_class) Re.Eol))))).

Definition Email_error : exn :=
  ValueError (Str.red (lit "Invalid email format.")).

Definition Email_setter (value : str) : result Email :=
  match Re.search Email_pattern value with
  | None => Raise Email_error
  | Some _ => Return (mk_Email value)
  end.

Definition Birthday_error : exn :=
  ValueError (Str.red (lit "Invalid date format. Correct format: YYYY.MM.DD")).

Definition Birthday_setter (value : str) : result Birthday :=
  match Date.strptime value with
  | Return d => Return (mk_Birthday d)
  | Raise (ValueError _) => Raise Birthday_error
  | Raise e => Raise e
  end.

(** [Birthday.__str__] *)
Definition Birthday_str (b : Birthday) : str := Date.strftime (Birthday_value b).

Definition Phone_error : exn :=
  ValueError
    (Str.red
       (lit "The phone number should be digits only and have 10 symbols.")).

Definition Phone_setter (value : str) : result Phone :=
  if negb (length value =? 10) || negb (Str.isdigit value)
  then Raise Phone_error
  else Return (mk_Phone value).

(* ================================================================= *)
(** ** [record.py]: [Record]                                         *)
(* ================================================================= *)

Record Record_ : Type := mk_Record {
  name : Name;
  phones : list Phone;
  birthday : option Birthday;
  email : option Email;
  address : option Address
}.

(** [Record(name)] *)
Definition Record_init (n : str) : Record_ :=
  mk_Record (mk_Name n) [] None None None.

Definition set_phones (ps : list Phone) (self : Record_) : Record_ :=
  mk_Record (name self) ps (birthday self) (email self) (address self).

Definition set_birthday (b : option Birthday) (self : Record_) : Record_ :=
  mk_Record (name self) (phones self) b (email self) (address self).

Definition add_phone (value : str) : M Record_ unit :=
  phone <- lift (Phone_setter value) ;;
  modify (fun self => set_phones (phones self ++ [phone]) self).

Definition add_birthday (value : str) : M Record_ unit :=
  b <- lift (Birthday_setter value) ;;
  modify (set_birthday (Some b)).

(** The loop of [edit_phone] over the phone objects: [None] when no phone has
    the old value; otherwise the setter is called on the first such phone,
    and the list is the one holding the phone after the call. *)
Fixpoint edit_first (old_phone new_phone : str) (ps : list Phone)
  : option (result (list Phone)) :=
  match ps with
  | [] => None
  | phone :: ps' =>
      if Str.eqb (Phone_value phone) old_phone then
        Some (try! phone' <- Phone_setter new_phone ;; Return (phone' :: ps'))
      else
        match edit_first old_phone new_phone ps' with
        | None => None
        | Some r => Some (try! l <- r ;; Return (phone :: l))
        end
  end.

Definition phones_line (ps : list Phone) : str :=
  Str.join (lit "; ") (map Phone_value ps).

Definition edit_phone (old_phone new_phone : str) : M Record_ (option str) :=
  self <- get ;;
  match edit_first old_phone new_phone (phones self) with
  | None => ret None
  | Some r =>
      ps <- lift r ;;
      put (set_phones ps self) ;;;
      ret (Some (lit "Phones: " ++ phones_line ps))
  end.

(** What [days_to_birthday] returns: [None], the string ["Birthday today"] or
    a number of days. *)
Inductive days : Type :=
| NoBirthday
| BirthdayToday
| Days (n : Z).

Definition days_str (d : days) : str :=
  match d with
  | NoBirthday => lit "None"
  | BirthdayToday => lit "Birthday today"
  | Days n => Str.of_Z n
  end.

Definition days_to_birthday (today : Date.date) (self : Record_) : result days :=
  match birthday self with
  | None => Return NoBirthday
  | Some b =>
      try! birthday_date <-
        Date.replace_year (Birthday_value b) (Date.year today) ;;
      if Date.eqb today birthday_date then Return BirthdayToday else
      try! yesterday <- Date.add_days today (-1) ;;
      try! birthday_date' <-
        (if Date.leb birthday_date yesterday
         then Date.replace_year birthday_date (Date.year today + 1)
         else Return birthday_date) ;;
      Return (Days (Date.sub birthday_date' today))
  end.

Definition option_str {A} (f : A -> str) (o : option A) : str :=
  match o with
  | None => lit "None"
  | Some a => f a
  end.

Definition spaces (n : nat) : str := repeat " "%char n.

(** [Record.__str__] *)
Definition Record_str (today : Date.date) (self : Record_) : result str :=
  try! d <- days_to_birthday today self ;;
  Return (Name_value (name self) ++ lit "," ++ spaces 12
          ++ phones_line (phones self) ++ lit "," ++ spaces 16
          ++ option_str Birthday_str (birthday self) ++ lit ", "
          ++ option_str Email_value (email self) ++ lit ", " ++ spaces 20
          ++ option_str Address_value (address self) ++ lit ", "
          ++ days_str d).

(* ================================================================= *)
(** ** [record.py]: [AddressBook] and [Note]                         *)
(* ================================================================= *)

(** The [dict] of the address book, in insertion order. *)
Definition AddressBook : Type := list (str * Record_).

Definition keys (data : AddressBook) : list str := map fst data.

(** [name in data] *)
Definition dict_mem (key : str) (data : AddressBook) : bool :=
  existsb (fun kv => Str.eqb (fst kv) key) data.

(** [data[name]] when the key is present *)
Fixpoint dict_get (key : str) (data : AddressBook) : option Record_ :=
  match data with
  | [] => None
  | (k, v) :: data' => if Str.eqb k key then Some v else dict_get key data'
  end.

(** [data.pop(name)] when the key is present *)
Fixpoint dict_pop (key : str) (data : AddressBook) : AddressBook :=
  match data with
  | [] => []
  | (k, v) :: data' =>
      if Str.eqb k key then data' else (k, v) :: dict_pop key data'
  end.

(** [data[key] = v] *)
Fixpoint dict_set (key : str) (v : Record_) (data : AddressBook) : AddressBook :=
  match data with
  | [] => [(key, v)]
  | (k, v') :: data' =>
      if Str.eqb k key then (k, v) :: data' else (k, v') :: dict_set key v data'
  end.

Definition add_record (record : Record_) : M AddressBook unit :=
  modify (dict_set (Name_value (name record)) record).

Definition newline : str := [ascii_of_nat 10].

Definition search_usage : str :=
  Str.red (lit "You need at least 3 letters to search by name or 3 digit to search by phone number.").

(** The inner loop of [search] over the phones of one record. *)
Fixpoint search_phones (today : Date.date) (value : str) (rec : Record_)
  (items : list Phone) (result_ : str) : result str :=
  match items with
  | [] => Return result_
  | item :: items' =>
      try! result' <-
        (if Str.contains value (Phone_value item)
         then try! s <- Record_str today rec ;; Return (result_ ++ s)
         else Return result_) ;;
      search_phones today value rec items' result'
  end.

(** The outer loop of [search] over the items of the dictionary. *)
Fixpoint search_items (today : Date.date) (value : str)
  (items : AddressBook) (result_ : str) : result str :=
  match items with
  | [] => Return result_
  | (name_, rec) :: items' =>
      try! result1 <-
        (if Str.contains (Str.lower value) (Str.lower name_)
         then try! s <- Record_str today rec ;;
              Return (result_ ++ s ++ newline)
         else Return result_) ;;
      try! result2 <- search_phones today value rec (phones rec) result1 ;;
      search_items today value items' result2
  end.

Definition search (today : Date.date) (value : str) (data : AddressBook)
  : result (option str) :=
  if length value <? 3 then Return (Some search_usage)
  else
    try! result_ <- search_items today value data [] ;;
    if negb (length result_ =? 0) then Return (Some result_)
    else Return None.

Definition deleted_message (name_ : str) : str :=
  lit "The contact " ++ name_ ++ lit " has been deleted.".

Definition not_found_message (name_ : str) : str :=
  lit "The contact " ++ name_ ++ lit " not found.".

Definition delete (name_ : str) : M AddressBook str :=
  data <- get ;;
  if dict_mem name_ data
  then put (dict_pop name_ data) ;;; ret (deleted_message name_)
  else ret (not_found_message name_).

Record Note : Type := mk_Note { content : str; tags : list str }.

(* ================================================================= *)
(** ** [assistant.py]: birthdays within a number of days, notes      *)
(* ================================================================= *)

(** What has been printed. *)
Definition console : Type := list str.

Definition print (line : str) : M console unit :=
  modify (fun out => out ++ [line]).

(** The loop of [birthday_in_given_days] over the items of the phone book. *)
Fixpoint birthday_items (today date_value : Date.date) (items : AddressBook)
  (contact_birth : list str) : result (list str) :=
  match items with
  | [] => Return contact_birth
  | (n, rec) :: items' =>
      try! contact_birth' <-
        match birthday rec with
        | Some b =>
            try! birth <-
              Date.replace_year (Birthday_value b) (Date.year today) ;;
            try! yesterday <- Date.add_days today (-1) ;;
            try! birth' <-
              (if Date.ltb birth yesterday
               then Date.replace_year birth (Date.year today + 1)
               else Return birth) ;;
            if Date.leb today birth' && Date.leb birth' date_value then
              try! d <- days_to_birthday today rec ;;
              Return (contact_birth
                      ++ [n ++ lit "; " ++ Date.isoformat (Birthday_value b)
                          ++ lit "; " ++ days_str d])
            else Return contact_birth
        | None => Return contact_birth
        end ;;
      birthday_items today date_value items' contact_birth'
  end.

Definition no_birthday_message : str :=
  Str.teal (lit "No Birthday during this period.").

Definition birthday_in_given_days (today : Date.date) (value : Z)
  (phone_book : AddressBook) : M console (option (list str)) :=
  date_value <- lift (Date.add_days today value) ;;
  contact_birth <- lift (birthday_items today date_value phone_book []) ;;
  if length contact_birth =? 0
  then print no_birthday_message ;;; ret None
  else ret (Some contact_birth).

(** [tag in note.tags] *)
Definition has_tag (tag : str) (note : Note) : bool :=
  existsb (Str.eqb tag) (tags note).

Definition set_content (new_content : str) (note : Note) : Note :=
  mk_Note new_content (tags note).

Definition invalid_index_message : str := Str.red (lit "Invalid note index.").

Definition updated_message : str := Str.green (lit "Note update successfully.").

(** The loop of [edit_note_content]: the notes after the loop, what is
    printed going to the console. *)
Fixpoint edit_notes (tag new_content : str) (ns : list Note)
  : M console (list Note) :=
  match ns with
  | [] => ret []
  | note :: ns' =>
      (if negb (has_tag tag note) then print invalid_index_message
       else ret tt) ;;;
      note' <- (if has_tag tag note
                then print updated_message ;;;
                     ret (set_content new_content note)
                else ret note) ;;
      rest_ <- edit_notes tag new_content ns' ;;
      ret (note' :: rest_)
  end.

(** The state of a [NotesAssistant]: its notes, and what it has printed. *)
Record NotesAssistant : Type := mk_NotesAssistant {
  notes : list Note;
  printed : console
}.

(** Runs a computation that prints on the console of the assistant. *)
Definition on_console {A} (m : M console A) : M NotesAssistant A :=
  fun self =>
    match m (printed self) with
    | (r, out) => (r, mk_NotesAssistant (notes self) out)
    end.

Definition set_notes (ns : list Note) : M NotesAssistant unit :=
  modify (fun self => mk_NotesAssistant ns (printed self)).

Definition add_note (content_ : str) (tags_ : list str) : M NotesAssistant unit :=
  self <- get ;;
  set_notes (notes self ++ [mk_Note content_ tags_]).

Definition search_notes_by_tag (tag : str) (self : NotesAssistant) : list Note :=
  filter (has_tag tag) (notes self).

Definition edit_note_content (tag new_content : str) : M NotesAssistant unit :=
  self <- get ;;
  ns <- on_console (edit_notes tag new_content (notes self)) ;;
  set_notes ns.

Definition no_note_message (tag : str) : str :=
  Str.red (lit "No note found with tag " ++ [ascii_of_nat 34] ++ tag
           ++ [ascii_of_nat 34] ++ lit ".").

Definition note_deleted_message (tag : str) : str :=
  Str.green (lit "Note with tag " ++ [ascii_of_nat 34] ++ tag
             ++ [ascii_of_nat 34] ++ lit " deleted successfully.").

Definition delete_note_by_index (tag : str) : M NotesAssistant unit :=
  self <- get ;;
  let initial_len := length (notes self) in
  set_notes (filter (fun note => negb (has_tag tag note)) (notes self)) ;;;
  self' <- get ;;
  if length (notes self') =? initial_len
  then on_console (print (no_note_message tag))
  else on_console (print (note_deleted_message tag)).

(* ================================================================= *)
(** ** The wording of the specification                              *)
(* ================================================================= *)

(** "exactly 10 characters, all decimal digits" *)
Definition ten_decimal_digits (s : str) : bool :=
  (length s =? 10) && forallb Str.ascii_digit s.

(** "local@domain.tld: one or more letters/digits/dot/underscore before the
    @, letters/digits/dot/hyphen domain, a dot, then a TLD of 2 or more
    letters" *)
Definition email_words (s : str) : Prop :=
  exists local_ domain tld,
    s = local_ ++ "@"%char :: domain ++ "."%char :: tld
    /\ local_ <> [] /\ forallb local_class local_ = true
    /\ domain <> [] /\ forallb domain_class domain = true
    /\ 2 <= length tld /\ forallb letter_class tld = true.

(** "matches the format YYYY.MM.DD": four digits, a dot, two digits, a dot,
    two digits. *)
Definition strict_format (s : str) : bool :=
  match s with
  | [y1; y2; y3; y4; p1; m1; m2; p2; d1; d2] =>
      forallb Str.ascii_digit [y1; y2; y3; y4; m1; m2; d1; d2]
      && Str.is_char "." p1 && Str.is_char "." p2
  | _ => false
  end.

Section CalendarWording.

Local Open Scope Z_scope.

(** The rollover rule of [days_to_birthday], as a date: this year's
    anniversary, advanced to next year when it is yesterday or earlier. *)
Definition next_anniversary (today b : Date.date) : result Date.date :=
  try! anniversary <- Date.replace_year b (Date.year today) ;;
  if Date.eqb today anniversary then Return anniversary else
  try! yesterday <- Date.add_days today (-1) ;;
  if Date.leb anniversary yesterday
  then Date.replace_year anniversary (Date.year today + 1)
  else Return anniversary.

(** "its next anniversary falls within the inclusive window [today,
    today+N days]" *)
Definition within_window (today : Date.date) (n : Z) (b : Date.date)
  : result bool :=
  try! next <- next_anniversary today b ;;
  try! last <- Date.add_days today n ;;
  Return (Date.leb today next && Date.leb next last).

(** A line of the result of [birthday_in_given_days]. *)
Definition birthday_line (n : str) (b : Date.date) (d : days) : str :=
  n ++ lit "; " ++ Date.isoformat b ++ lit "; " ++ days_str d.

(** The line the query is expected to give for an item of the book: one line
    when the record has a birthday whose next anniversary is within the
    window, none otherwise. *)
Definition expected_lines (today : Date.date) (n : Z) (kv : str * Record_)
  : list str :=
  match birthday (snd kv) with
  | None => []
  | Some b =>
      match within_window today n (Birthday_value b),
            days_to_birthday today (snd kv) with
      | Return true, Return d => [birthday_line (fst kv) (Birthday_value b) d]
      | _, _ => []
      end
  end.

End CalendarWording.

(** The two tests of [search]. *)
Definition name_matches (value name_ : str) : bool :=
  Str.contains (Str.lower value) (Str.lower name_).

Definition phone_matches (value : str) (p : Phone) : bool :=
  Str.contains value (Phone_value p).

(** What a search is expected to add for an item of the book: the rendered
    record and a newline when the key matches, and the rendered record once
    more for every phone that matches. *)
Definition search_hits (value : str) (render : Record_ -> str)
  (kv : str * Record_) : list str :=
  (if name_matches value (fst kv) then [render (snd kv) ++ newline] else [])
  ++ map (fun _ => render (snd kv))
         (filter (phone_matches value) (phones (snd kv))).

(* ================================================================= *)
(** ** Notions of the statements and of the proofs                   *)
(* ================================================================= *)

(** What [Phone] checks: exactly 10 characters, each of them a digit for
    [str.isdigit]. *)
Definition ten_isdigit_characters (s : str) : Prop :=
  length s = 10 /\ Forall (fun x => Str.isdigit_char x = true) s.

(** The notes after the loop of [edit_note_content]. *)
Definition edited (tag new_content : str) (note : Note) : Note :=
  if has_tag tag note then set_content new_content note else note.

(** The pattern of [Email] between its anchors [^] and [$]. *)
Definition Email_body : Re.regex :=
  Re.Seq (Re.Rep 1 local_class)
    (Re.Seq (Re.c "@")
       (Re.Seq (Re.Rep 1 domain_class)
          (Re.Seq (Re.c ".")
             (Re.Seq (Re.Rep 2 letter_class) Re.Eol)))).

(** The texts the groups of the pattern of [strptime] match: four digits for
    [%Y], *)
Definition year_text (Y : str) : bool :=
  (length Y =? 4) && forallb Str.ascii_digit Y.

(** [1[0-2]|0[1-9]|[1-9]] for [%m], *)
Definition month_text (M : str) : bool :=
  match M with
  | [a] => Str.in_range "1" "9" a
  | [a; b] =>
      (Str.is_char "1" a && Str.in_range "0" "2" b)
      || (Str.is_char "0" a && Str.in_range "1" "9" b)
  | _ => false
  end.

(** and [3[0-1]|[1-2]\d|0[1-9]|[1-9]| [1-9]] for [%d]. *)
Definition day_text (D : str) : bool :=
  match D with
  | [a] => Str.in_range "1" "9" a
  | [a; b] =>
      (Str.is_char "3" a && Str.in_range "0" "1" b)
      || (Str.in_range "1" "2" a && Str.ascii_digit b)
      || (Str.is_char "0" a && Str.in_range "1" "9" b)
      || (Str.is_char " " a && Str.in_range "1" "9" b)
  | _ => false
  end.

(** One or two decimal digits. *)
Definition one_or_two_digits (t : str) : bool :=
  ((length t =? 1) || (length t =? 2)) && forallb Str.ascii_digit t.

(** A space and one decimal digit. *)
Definition space_and_digit (t : str) : bool :=
  match t with
  | [a; b] => Str.is_char " " a && Str.ascii_digit b
  | _ => false
  end.

(** [two_digits m] is two digits that read as [m]. *)
Definition two_digits_ok (m : Z) : bool :=
  match Date.two_digits m with
  | [a; b] =>
      Str.ascii_digit a && Str.ascii_digit b
      && match Str.to_int [a; b] with
         | Some v => (v =? m)%Z
         | None => false
         end
  | _ => false
  end.

Section CalendarNotions.

Local Open Scope Z_scope.

(** The day of the year, from 1. *)
Definition day_of_year (d : Date.date) : Z :=
  Date.days_before_month (Date.year d) (Date.month d) + Date.day d.

(** [month_and_day] gives the month and the day of the [n]-th day of a year. *)
Definition month_and_day_ok (leap : bool) (n : Z) : bool :=
  let (m, d) := Date.month_and_day n leap in
  (1 <=? m) && (m <=? 12) && (1 <=? d)
  && (d <=? nth (Z.to_nat m) Date.DAYS_IN_MONTH 0
            + (if (m =? 2) && leap then 1 else 0))
  && (nth (Z.to_nat m) Date.DAYS_BEFORE_MONTH 0
      + (if (2 <? m) && leap then 1 else 0) + d =? n + 1).

(** The birthday is not the 29th of February. *)
Definition regular_day (b : Date.date) : Prop :=
  ~ (Date.month b = 2 /\ Date.day b = 29).

(** The anniversary of a birthday in a year. *)
Definition anniversary (y : Z) (b : Date.date) : Date.date :=
  Date.mk_date y (Date.month b) (Date.day b).

(** The conditions under which the query is compared with the rule: the
    birthday is not 29 February and this year's anniversary is not
    yesterday. *)
Definition comparable (today : Date.date) (kv : str * Record_) : Prop :=
  match birthday (snd kv) with
  | None => True
  | Some b =>
      Date.valid (Birthday_value b) = true
      /\ regular_day (Birthday_value b)
      /\ Date.toordinal (anniversary (Date.year today) (Birthday_value b))
         <> Date.toordinal today - 1
  end.

End CalendarNotions.

(* ================================================================= *)
(** ** Sample data                                                   *)
(* ================================================================= *)

Definition sample_phone : str := lit "0501234567".

(** Ten times SUPERSCRIPT TWO. *)
Definition ten_superscript_twos : str := repeat (ascii_of_nat 178) 10.

Definition sample_record : Record_ :=
  mk_Record (mk_Name (lit "John")) [mk_Phone sample_phone] None None None.

Definition sample_book : AddressBook :=
  [(lit "John", sample_record); (lit "Mary", Record_init (lit "Mary"))].

Definition sample_notes : NotesAssistant :=
  mk_NotesAssistant
    [mk_Note (lit "buy milk") [lit "home"; lit "shop"];
     mk_Note (lit "call Bob") [lit "work"];
     mk_Note (lit "fix tap") [lit "home"]]
    [].

Definition email_then_newline : str := lit "a@x.co" ++ newline.

Definition leap_day_text : str := lit "2024.02.29".

Definition short_date_text : str := lit "2024.2.9".

Definition leap_day_record : Record_ :=
  mk_Record (mk_Name (lit "John")) []
            (Some (mk_Birthday (Date.mk_date 2024 2 29))) None None.

Definition leap_day_book : AddressBook := [(lit "John", leap_day_record)].

Definition march_first_2025 : Date.date := Date.mk_date 2025 3 1.

Definition june_first_record : Record_ :=
  mk_Record (mk_Name (lit "Mary")) []
            (Some (mk_Birthday (Date.mk_date 1990 6 1))) None None.

Definition june_first_book : AddressBook := [(lit "Mary", june_first_record)].

Definition june_second_2022 : Date.date := Date.mk_date 2022 6 2.

(** Mary and Ann, born on a 1 June, and John, who has no birthday. *)
Definition june_first_friends : AddressBook :=
  [(lit "Mary", june_first_record);
   (lit "John", sample_record);
   (lit "Ann",
    mk_Record (mk_Name (lit "Ann")) []
              (Some (mk_Birthday (Date.mk_date 1985 6 1))) None None)].


(* ================================================================= *)
(** ** [record.py]: the other methods of [Record] and [AddressBook]  *)
(* ================================================================= *)

Definition set_email (e : option Email) (self : Record_) : Record_ :=
  mk_Record (name self) (phones self) (birthday self) e (address self).

Definition set_address (a : option Address) (self : Record_) : Record_ :=
  mk_Record (name self) (phones self) (birthday self) (email self) a.

Definition add_email (value : str) : M Record_ unit :=
  e <- lift (Email_setter value) ;;
  modify (set_email (Some e)).

(** The setter of [Address] stores any value. *)
Definition add_address (value : str) : M Record_ unit :=
  modify (set_address (Some (mk_Address value))).

(** The loop of [remove_phone]: [None] when no phone has the value;
    otherwise the list after [self.phones.remove(item)] for the first phone
    [item] that has it.  [list.remove] takes out the first element that is
    [item], and no element before [item] is, since none has its value. *)
Fixpoint remove_first (phone : str) (ps : list Phone) : option (list Phone) :=
  match ps with
  | [] => None
  | item :: ps' =>
      if Str.eqb (Phone_value item) phone then Some ps'
      else
        match remove_first phone ps' with
        | None => None
        | Some l => Some (item :: l)
        end
  end.

Definition phone_deleted_message (phone : str) : str :=
  lit "The phone number: " ++ phone ++ lit " has been deleted.".

Definition phone_not_found_message (phone : str) : str :=
  lit "The phone number " ++ phone ++ lit " not found.".

Definition remove_phone (phone : str) : M Record_ str :=
  self <- get ;;
  match remove_first phone (phones self) with
  | Some ps => put (set_phones ps self) ;;; ret (phone_deleted_message phone)
  | None => ret (phone_not_found_message phone)
  end.

(** [find_phone]: the first phone that has the value. *)
Definition find_phone (phone : str) (self : Record_) : option Phone :=
  List.find (fun item => Str.eqb (Phone_value item) phone) (phones self).

(** [AddressBook.find] *)
Definition find (name_ : str) (data : AddressBook) : option Record_ :=
  if dict_mem name_ data then dict_get name_ data else None.

(** The values of the phones of a record, in their order. *)
Definition phone_values (self : Record_) : list str :=
  map Phone_value (phones self).

(** The strings the pattern of [Email] accepts: an address in the words of
    the pattern, or such an address followed by one newline. *)
Definition Email_accepted (value : str) : Prop :=
  email_words value \/ exists t, value = t ++ newline /\ email_words t.

(** The invariants of the store: no key twice, and every record under its
    own name. *)
Definition key_is_name (kv : str * Record_) : Prop :=
  fst kv = Name_value (name (snd kv)).

Definition store_ok (data : AddressBook) : Prop :=
  NoDup (keys data) /\ Forall key_is_name data.

(* ================================================================= *)
(** ** [assistant.py]: birthdays on a day and within the week        *)
(* ================================================================= *)

(** The loop of [birthdays_for_date] over the items of the phone book. *)
Fixpoint for_date_items (today date_ : Date.date) (items : AddressBook)
  (contact_birth : list str) : result (list str) :=
  match items with
  | [] => Return contact_birth
  | (n, rec) :: items' =>
      try! contact_birth' <-
        match birthday rec with
        | Some b =>
            try! birth <-
              Date.replace_year (Birthday_value b) (Date.year today) ;;
            if Date.eqb birth date_ then Return (contact_birth ++ [n])
            else Return contact_birth
        | None => Return contact_birth
        end ;;
      for_date_items today date_ items' contact_birth'
  end.

Definition no_birthday_this_day_message : str :=
  Str.teal (lit "No Birthday this day.").

(** [birthdays_for_date].  The local variable [date] holds the parsed day;
    [date.today()], called on it, is the class method all the same. *)
Definition birthdays_for_date (today : Date.date) (day : str)
  (phone_book : AddressBook) : M console (option (list str)) :=
  date_ <- lift (Date.strptime day) ;;
  contact_birth <- lift (for_date_items today date_ phone_book []) ;;
  if length contact_birth =? 0
  then print no_birthday_this_day_message ;;; ret None
  else ret (Some contact_birth).

(** [d.isoweekday()]: Monday is 1 and Sunday is 7. *)
Definition isoweekday (d : Date.date) : Z :=
  let w := (Date.toordinal d mod 7)%Z in
  if (w =? 0)%Z then 7%Z else w.

(** The loop of [get_birthdays_per_week] over the items of the phone book:
    the entries [[name, birth, day_week]]. *)
Fixpoint week_items (today : Date.date) (items : AddressBook)
  (birthday_per_week : list (str * Date.date * Z))
  : result (list (str * Date.date * Z)) :=
  match items with
  | [] => Return birthday_per_week
  | (n, rec) :: items' =>
      try! birthday_per_week' <-
        match birthday rec with
        | Some b =>
            let name_ := n ++ lit ": " ++ Date.isoformat (Birthday_value b) in
            try! birth <-
              Date.replace_year (Birthday_value b) (Date.year today) ;;
            try! yesterday <- Date.add_days today (-1) ;;
            try! birth' <-
              (if Date.ltb birth yesterday
               then Date.replace_year birth (Date.year today + 1)
               else Return birth) ;;
            let day_week := isoweekday birth' in
            try! end_date <- Date.add_days today 7 ;;
            if Date.leb today birth' && Date.leb birth' end_date
            then Return (birthday_per_week ++ [(name_, birth', day_week)])
            else Return birthday_per_week
        | None => Return birthday_per_week
        end ;;
      week_items today items' birthday_per_week'
  end.

(** [users[key].append(x)] on a [defaultdict(list)]: a key that is missing
    enters the dictionary, at its end, with an empty list. *)
Fixpoint dd_append (key x : str) (users : list (str * list str))
  : list (str * list str) :=
  match users with
  | [] => [(key, [x])]
  | (k, v) :: users' =>
      if Str.eqb k key then (k, v ++ [x]) :: users'
      else (k, v) :: dd_append key x users'
  end.

(** The seven tests of the second loop, in their order. *)
Definition weekdays : list (Z * str) :=
  [(1, lit "Monday"); (2, lit "Tuesday"); (3, lit "Wednesday");
   (4, lit "Thursday"); (5, lit "Friday"); (6, lit "Saturday");
   (7, lit "Sunday")]%Z.

(** The second loop of [get_birthdays_per_week]. *)
Fixpoint week_users (birthday_per_week : list (str * Date.date * Z))
  (users : list (str * list str)) : list (str * list str) :=
  match birthday_per_week with
  | [] => users
  | item :: rest_ =>
      week_users rest_
        (fold_left
           (fun users' day =>
              if (snd item =? fst day)%Z
              then dd_append (snd day) (fst (fst item)) users'
              else users')
           weekdays users)
  end.

Definition no_birthday_this_week_message : str :=
  Str.teal (lit "No Birthday this week.").

Definition get_birthdays_per_week (today : Date.date)
  (phone_book : AddressBook) : M console (option (list (str * list str))) :=
  birthday_per_week <- lift (week_items today phone_book []) ;;
  if length birthday_per_week =? 0
  then print no_birthday_this_week_message ;;; ret None
  else
    ret (Some (filter (fun kv => negb (length (snd kv) =? 0))
                      (week_users birthday_per_week []))).

(** A record without a birthday, or with a birthday that is a date of the
    calendar other than a 29 February. *)
Definition regular_birthday (kv : str * Record_) : Prop :=
  match birthday (snd kv) with
  | None => True
  | Some b =>
      Date.valid (Birthday_value b) = true /\ regular_day (Birthday_value b)
  end.

(** The birthday of the record has the month and the day of [d]. *)
Definition born_on (d : Date.date) (kv : str * Record_) : bool :=
  match birthday (snd kv) with
  | None => false
  | Some b =>
      ((Date.month (Birthday_value b) =? Date.month d)
       && (Date.day (Birthday_value b) =? Date.day d))%Z
  end.

(** The entry the week query is expected to give for an item of the book:
    one entry, with the next anniversary and its day of the week, when the
    record has a birthday whose next anniversary is within the seven days
    from today, none otherwise. *)
Definition expected_week_entry (today : Date.date) (kv : str * Record_)
  : list (str * Date.date * Z) :=
  match birthday (snd kv) with
  | None => []
  | Some b =>
      match next_anniversary today (Birthday_value b),
            within_window today 7 (Birthday_value b) with
      | Return next, Return true =>
          [(fst kv ++ lit ": " ++ Date.isoformat (Birthday_value b),
            next, isoweekday next)]
      | _, _ => []
      end
  end.

(** The names of the entries that fall on a day of the week. *)
Definition names_on (w : Z) (entries : list (str * Date.date * Z)) : list str :=
  map (fun item => fst (fst item))
      (filter (fun item => (snd item =? w)%Z) entries).

(** [users.get(key)] *)
Fixpoint users_get (key : str) (users : list (str * list str))
  : option (list str) :=
  match users with
  | [] => None
  | (k, v) :: users' => if Str.eqb k key then Some v else users_get key users'
  end.

(** The name the second loop files a day of the week under. *)
Definition weekday_name (w : Z) : option str :=
  option_map snd (List.find (fun day => (w =? fst day)%Z) weekdays).

(* ================================================================= *)
(** ** [assistant.py]: the notes found by a tag, sorted              *)
(* ================================================================= *)

(** [a < b] on two sequences, as Python compares strings and lists: the
    first position at which the sequences differ decides, and a sequence
    that ends there is the smaller one. *)
Fixpoint seq_ltb {A} (eqb ltb : A -> A -> bool) (a b : list A) : bool :=
  match a, b with
  | _, [] => false
  | [], _ :: _ => true
  | x :: a', y :: b' => if eqb x y then seq_ltb eqb ltb a' b' else ltb x y
  end.

(** Characters compare by their code points. *)
Definition char_ltb (x y : ascii) : bool := Str.code x <? Str.code y.

Definition str_ltb : str -> str -> bool := seq_ltb Ascii.eqb char_ltb.

Definition tags_ltb : list str -> list str -> bool := seq_ltb Str.eqb str_ltb.

(** [sorted(l, key=key)]: the sort is stable and compares keys with [<]
    only.  An element goes in front of the first element whose key is not
    smaller than its own, so behind no element it preceded with an equal
    key. *)
Fixpoint sorted_insert {A K} (ltb : K -> K -> bool) (key : A -> K)
  (x : A) (l : list A) : list A :=
  match l with
  | [] => [x]
  | y :: l' =>
      if ltb (key y) (key x) then y :: sorted_insert ltb key x l'
      else x :: l
  end.

Definition sorted {A K} (ltb : K -> K -> bool) (key : A -> K) (l : list A)
  : list A :=
  fold_right (sorted_insert ltb key) [] l.

Definition search_and_sort_notes (keyword : str) (self : NotesAssistant)
  : list Note :=
  let found_notes := filter (has_tag keyword) (notes self) in
  sorted tags_ltb tags found_notes.

(** The line [edit_note_content] prints for a note. *)
Definition edit_line (tag : str) (note : Note) : str :=
  if has_tag tag note then updated_message else invalid_index_message.

(** Two notes are in order when the tags of the second are not smaller than
    the tags of the first. *)
Definition tags_in_order (a b : Note) : Prop :=
  tags_ltb (tags b) (tags a) = false.

(** The note has exactly the tags [t]. *)
Definition same_tags (t : list str) (note : Note) : bool :=
  if list_eq_dec (list_eq_dec ascii_dec) (tags note) t then true else false.

(* ================================================================= *)
(** ** [record.py]: [AddressBook.iterator]                           *)
(* ================================================================= *)

(** What a call of [print] was given.  The text of a dictionary of records
    shows the addresses of the objects, so that the dictionary is kept as it
    is. *)
Inductive printed_value : Type :=
| PStr (s : str)
| PInt (n : Z)
| PDict (data : AddressBook).

(** The consumer of the generator [iterator], run to its end: the pages it
    was given, and what was printed on the way.  When a record fails to
    render, the exception ends the generator after the pages given so far. *)
Record consumer : Type := mk_consumer {
  yielded : list str;
  shown : list printed_value
}.

Definition yield (page : str) : M consumer unit :=
  modify (fun c => mk_consumer (yielded c ++ [page]) (shown c)).

Definition show (v : printed_value) : M consumer unit :=
  modify (fun c => mk_consumer (yielded c) (shown c ++ [v])).

(** The loop of [iterator] over the items of the dictionary, and what
    follows it. *)
Fixpoint iterator_items (today : Date.date) (item_number : Z)
  (items : AddressBook) (counter : Z) (result_ : str) : M consumer unit :=
  match items with
  | [] => show (PStr result_) ;;; yield result_
  | (item, record) :: items' =>
      s <- lift (Record_str today record) ;;
      let result' := result_ ++ item ++ lit ": " ++ s ++ newline in
      let counter' := (counter + 1)%Z in
      show (PInt counter') ;;;
      if (item_number <=? counter')%Z
      then yield result' ;;; iterator_items today item_number items' 0%Z []
      else iterator_items today item_number items' counter' result'
  end.

Definition contacts_header : str := lit "Contacts:" ++ newline.

Definition iterator (today : Date.date) (item_number : Z)
  (data : AddressBook) : M consumer unit :=
  show (PStr contacts_header) ;;;
  show (PDict data) ;;;
  iterator_items today item_number data 0%Z contacts_header.

(* ================================================================= *)
(** ** [assistant.py]: the phones of [table_print]                   *)
(* ================================================================= *)

(** [range(0, n, 2)] *)
Definition range_by_two (n : nat) : list nat :=
  map (fun j => 2 * j) (seq 0 (Nat.div2 (n + 1))).

(** [l[i : i + 2]] *)
Definition slice_two {A} (i : nat) (l : list A) : list A :=
  firstn 2 (skipn i l).

(** The cell of the phones in [table_print]: two phones to a line. *)
Definition phone_str (ps : list Phone) : str :=
  Str.join newline
    (map (fun i => Str.join (lit "; ") (map Phone_value (slice_two i ps)))
         (range_by_two (length ps))).

(** The text of a record, for a record that renders. *)
Definition Record_text (today : Date.date) (rec : Record_) : str :=
  match Record_str today rec with
  | Return s => s
  | Raise _ => []
  end.

(** The record renders: [str(rec)] returns. *)
Definition renders (today : Date.date) (kv : str * Record_) : Prop :=
  exists s, Record_str today (snd kv) = Return s.

(** The line of an item of the store in the pages of [iterator]. *)
Definition contact_line (today : Date.date) (kv : str * Record_) : str :=
  fst kv ++ lit ": " ++ Record_text today (snd kv) ++ newline.

(** The text of a group of items. *)
Definition group_text (today : Date.date) (g : AddressBook) : str :=
  concat (map (contact_line today) g).

(** The pages [iterator] gives for the items still to come, from the count
    and the text of the page in the making. *)
Fixpoint pages_from (today : Date.date) (item_number : Z)
  (items : AddressBook) (counter : Z) (result_ : str) : list str :=
  match items with
  | [] => [result_]
  | kv :: items' =>
      let result' := result_ ++ contact_line today kv in
      if (item_number <=? counter + 1)%Z
      then result' :: pages_from today item_number items' 0%Z []
      else pages_from today item_number items' (counter + 1)%Z result'
  end.

(** The pages of groups of items, the header in front of the first page. *)
Definition group_pages (today : Date.date) (groups : list AddressBook)
  : list str :=
  match map (group_text today) groups with
  | [] => []
  | page :: pages => (contacts_header ++ page) :: pages
  end.

(* ================================================================= *)
(** ** [assistant.py]: the terminal                                  *)
(* ================================================================= *)

(** A [rich] table as far as its contents go: the title, the headers of
    the columns and the rows of cells, in the order they were added.  The
    styles and the widths are left out. *)
Record Table : Type := mk_Table {
  title : str;
  columns : list str;
  rows : list (list str)
}.

(** [table.add_row] with the cells of a row *)
Definition add_row (cells : list str) (table : Table) : Table :=
  mk_Table (title table) (columns table) (rows table ++ [cells]).

(** What the program writes on the terminal: the argument of a [print], the
    prompt of an [input], the table given to [console.print]. *)
Inductive shown_item : Type :=
| Line (text : str)
| Asked (text : str)
| Drawn (table : Table).

(** The terminal: the lines the user is going to type, and what has been
    written so far. *)
Record terminal : Type := mk_terminal {
  keyboard : list str;
  screen : list shown_item
}.

(** The exceptions of the menus: those of [record.py], and those that a
    key that is missing, an index out of range, the remainder of a division
    by zero, an attribute that is missing and [input] at the end of the
    input raise. *)
Inductive error : Type :=
| Builtin (e : exn)
| KeyError (msg : str)
| IndexError (msg : str)
| ZeroDivisionError (msg : str)
| AttributeError (msg : str)
| EOFError (msg : str).

Inductive outcome (A : Type) : Type :=
| Done (a : A)
| Failed (e : error).

Arguments Done {A} a.
Arguments Failed {A} e.

(** A method of a menu, over the state [S] it works on: from the state
    before the call, what the call returns or raises, and the state after
    it. *)
Definition Run (S A : Type) : Type := S -> outcome A * S.

(** A method that works on the terminal only. *)
Definition IO (A : Type) : Type := Run terminal A.

Definition io_ret {S A} (a : A) : Run S A := fun s => (Done a, s).

Definition io_fail {S A} (e : error) : Run S A := fun s => (Failed e, s).

Definition io_bind {S A B} (m : Run S A) (k : A -> Run S B) : Run S B :=
  fun s => match m s with
           | (Done a, s') => k a s'
           | (Failed e, s') => (Failed e, s')
           end.

Declare Scope io_scope.
Delimit Scope io_scope with io.
Notation "x <- m ;; k" := (io_bind m (fun x => k))
  (at level 61, m at next level, right associativity) : io_scope.
Notation "m ;;; k" := (io_bind m (fun _ => k))
  (at level 61, right associativity) : io_scope.

(** A call into [record.py]. *)
Definition io_lift {S A} (r : result A) : Run S A :=
  match r with
  | Return a => io_ret a
  | Raise e => io_fail (Builtin e)
  end.

(** A method that prints with [print]: its lines go to the screen. *)
Definition on_screen {A} (m : M console A) : IO A :=
  fun t =>
    match m [] with
    | (r, out) =>
        io_lift r (mk_terminal (keyboard t) (screen t ++ map Line out))
    end.

(** [print(text)] *)
Definition print_line (text : str) : IO unit :=
  fun t => (Done tt, mk_terminal (keyboard t) (screen t ++ [Line text])).

(** [self.console.print(table)] *)
Definition console_print (table : Table) : IO unit :=
  fun t => (Done tt, mk_terminal (keyboard t) (screen t ++ [Drawn table])).

(** [input(prompt)]: the prompt is written, and the next line the user types
    is the result; when there is none, [input] raises [EOFError]. *)
Definition input (prompt : str) : IO str :=
  fun t =>
    match keyboard t with
    | [] =>
        (Failed (EOFError (lit "EOF when reading a line")),
         mk_terminal [] (screen t ++ [Asked prompt]))
    | line :: rest_ =>
        (Done line, mk_terminal rest_ (screen t ++ [Asked prompt]))
    end.

(** [l[i]] *)
Definition list_index (l : list str) (i : nat) : IO str :=
  match nth_error l i with
  | Some x => io_ret x
  | None => io_fail (IndexError (lit "list index out of range"))
  end.

(** [int(s)] for a string [s] for which [s.isdigit()] holds: the number the
    digits spell when they are all decimal digits; a superscript digit is a
    digit for [isdigit] and not for [int]. *)
Definition int_of_digits (s : str) : IO Z :=
  match Str.to_int s with
  | Some n => io_ret n
  | None =>
      io_fail (Builtin (ValueError (lit "invalid literal for int() with base 10")))
  end.

(** [a % b] *)
Definition modulo (a b : Z) : IO Z :=
  if (b =? 0)%Z then io_fail (ZeroDivisionError (lit "integer modulo by zero"))
  else io_ret (a mod b)%Z.

(** [s.split(sep)] for a separator of one character. *)
Fixpoint str_split (sep : ascii) (s : str) : list str :=
  match s with
  | [] => [[]]
  | c :: s' =>
      if Ascii.eqb c sep then [] :: str_split sep s'
      else
        match str_split sep s' with
        | x :: l => (c :: x) :: l
        | [] => [[c]]
        end
  end.

(** [c.isalpha()] on the code points below 256: the letters of ASCII, the
    ordinal indicators U+00AA and U+00BA, the micro sign U+00B5, and the
    letters U+00C0..U+00FF except the signs U+00D7 and U+00F7. *)
Definition isalpha_char (c : ascii) : bool :=
  Str.in_range "A" "Z" c || Str.in_range "a" "z" c
  || (Str.code c =? 170) || (Str.code c =? 181) || (Str.code c =? 186)
  || ((192 <=? Str.code c) && negb (Str.code c =? 215)
      && negb (Str.code c =? 247)).

(** [s.isalpha()] *)
Definition str_isalpha (s : str) : bool :=
  match s with
  | [] => false
  | _ => forallb isalpha_char s
  end.

(** The truth value of a string. *)
Definition nonempty {A} (l : list A) : bool := negb (length l =? 0).

(** The decorator [input_error]: the three exceptions it catches become the
    strings it returns; any other exception goes through. *)
Definition input_error {S A} (func : Run S A) : Run S (A + str) :=
  fun s =>
    match func s with
    | (Done a, s') => (Done (inl a), s')
    | (Failed (KeyError _), s') =>
        (Done (inr (lit "No user with this name")), s')
    | (Failed (Builtin (ValueError _)), s') =>
        (Done (inr (lit "Incorrect information entered")), s')
    | (Failed (IndexError _), s') => (Done (inr (lit "Enter user name")), s')
    | (Failed e, s') => (Failed e, s')
    end.

(** The line of equals signs the menus print first. *)
Definition rule_line : str := repeat "="%char 150.

(* ================================================================= *)
(** ** [assistant.py]: the menus that read the store                 *)
(* ================================================================= *)

Section Menus.

Local Open Scope io_scope.

Definition contact_columns : list str :=
  [lit "Name"; lit "Phones"; lit "Birthday"; lit "Email"; lit "Address";
   lit "Days to birthday"].


Definition contact_table : Table :=
  mk_Table (lit "Contact Information") contact_columns [].

Definition no_contacts_message : str := Str.red (lit "No contacts.").

(** *** [ContactAssistant.search] *)

(** The loop over the lines of the result: every line is split at its
    commas, its first six fields become a row, and the table is printed
    after every row. *)
Fixpoint search_rows (items : list str) (table : Table) : IO Table :=
  match items with
  | [] => io_ret table
  | item :: items' =>
      let record := str_split "," item in
      c0 <- list_index record 0 ;;
      c1 <- list_index record 1 ;;
      c2 <- list_index record 2 ;;
      c3 <- list_index record 3 ;;
      c4 <- list_index record 4 ;;
      c5 <- list_index record 5 ;;
      let table' := add_row [c0; c1; c2; c3; c4; c5] table in
      console_print table' ;;;
      search_rows items' table'
  end.

Definition search_prompt : str :=
  Str.teal (lit "Enter at least 3 letters or numbers to search or press ENTER to exit.").

Definition no_matches_message : str := Str.teal (lit "No matches found.").

(** The loop [while True] of the menu.  Every round reads a line, so that a
    number of rounds above the number of lines left on the keyboard is never
    used up; [fuel] is such a number. *)
Fixpoint search_loop (fuel : nat) (today : Date.date)
  (phone_book : AddressBook) (table : Table) : IO unit :=
  match fuel with
  | O => io_fail (EOFError [])
  | S fuel' =>
      print_line rule_line ;;;
      print_line search_prompt ;;;
      line <- input (lit "Enter your text=>  ") ;;
      let res := Str.lower line in
      if nonempty res then
        result_ <- io_lift (search today res phone_book) ;;
        table' <-
          match result_ with
          | Some text =>
              if nonempty text
              then search_rows (str_split (ascii_of_nat 10) text) table
              else io_ret table
          | None => io_ret table
          end ;;
        print_line no_matches_message ;;;
        search_loop fuel' today phone_book table'
      else io_ret tt
  end.


(** *** [ContactAssistant.show_all] *)

(** The row of a record in the tables of contacts. *)
Definition contact_row (today : Date.date) (record : Record_)
  : IO (list str) :=
  d <- io_lift (days_to_birthday today record) ;;
  io_ret [Name_value (name record); phone_str (phones record);
          option_str Birthday_str (birthday record);
          option_str Email_value (email record);
          option_str Address_value (address record);
          days_str d].

(** The loop of the branch for a number: a table is printed, and a new one
    begun, whenever the count of the rows is a multiple of the number. *)
Fixpoint show_pages (today : Date.date) (item_number : Z)
  (items : AddressBook) (iteration_count metka : Z) (table : Table)
  : IO unit :=
  match items with
  | [] => if (metka =? 1)%Z then console_print table else io_ret tt
  | (_, record) :: items' =>
      row <- contact_row today record ;;
      let table1 := add_row row table in
      let iteration_count' := (iteration_count + 1)%Z in
      r <- modulo iteration_count' item_number ;;
      if (r =? 0)%Z
      then console_print table1 ;;;
           show_pages today item_number items' iteration_count' 0%Z
                      contact_table
      else show_pages today item_number items' iteration_count' 1%Z table1
  end.

(** The loop of the last branch: all the records in one table. *)
Fixpoint show_rows (today : Date.date) (items : AddressBook) (table : Table)
  : IO Table :=
  match items with
  | [] => io_ret table
  | (_, record) :: items' =>
      row <- contact_row today record ;;
      show_rows today items' (add_row row table)
  end.

Definition show_all_prompt : str :=
  Str.teal (lit "Enter how many records to display or press ENTER to skip.").

(** The loop [while True] of [show_all]; [fuel] as in [search_loop]. *)
Fixpoint show_all_loop (fuel : nat) (today : Date.date)
  (phone_book : AddressBook) : IO unit :=
  match fuel with
  | O => io_fail (EOFError [])
  | S fuel' =>
      print_line rule_line ;;;
      print_line show_all_prompt ;;;
      item_number <- input (lit "Enter number=> ") ;;
      if Str.isdigit item_number then
        if nonempty phone_book then
          n <- int_of_digits item_number ;;
          show_pages today n phone_book 0%Z 0%Z contact_table
        else
          print_line no_contacts_message ;;;
          show_all_loop fuel' today phone_book
      else if str_isalpha item_number then
        print_line (lit "You entered letters: " ++ item_number) ;;;
        show_all_loop fuel' today phone_book
      else if nonempty phone_book then
        table <- show_rows today phone_book contact_table ;;
        console_print table
      else print_line no_contacts_message
  end.

Definition show_all (today : Date.date) (phone_book : AddressBook)
  : IO unit :=
  fun t => show_all_loop (S (length (keyboard t))) today phone_book t.

(** *** [BirthAssistant.birthday_in_given_days_menu] *)








(** *** [BirthAssistant.birthdays_for_date_menu] *)

Definition names_table : Table :=
  mk_Table (lit "Birthdays information") [lit "Name"] [].

(** The loop that puts the names in one cell. *)
Definition names_cell (birth : list str) : str :=
  fold_left (fun s el => s ++ lit "| " ++ el ++ lit " |") birth [].

Definition birthdays_for_date_menu (today : Date.date)
  (phone_book : AddressBook) : IO unit :=
  let today_data_str := Date.strftime today in
  if negb (nonempty phone_book) then print_line no_contacts_message
  else
    birth <- on_screen (birthdays_for_date today today_data_str phone_book) ;;
    match birth with
    | Some l =>
        if nonempty l
        then console_print (add_row [names_cell l] names_table)
        else io_ret tt
    | None => io_ret tt
    end.

End Menus.

(** What is on the screen after a menu has asked for a line. *)
Definition asked_for (scr : list shown_item) (hint prompt : str)
  : list shown_item :=
  scr ++ [Line rule_line; Line hint; Asked prompt].



(** The cells of the row of a record that renders. *)
Definition contact_cells (today : Date.date) (record : Record_) : list str :=
  match days_to_birthday today record with
  | Return d =>
      [Name_value (name record); phone_str (phones record);
       option_str Birthday_str (birthday record);
       option_str Email_value (email record);
       option_str Address_value (address record);
       days_str d]
  | Raise _ => []
  end.

(** The table of contacts with the given rows. *)
Definition contacts_with (rows_ : list (list str)) : Table :=
  mk_Table (lit "Contact Information") contact_columns rows_.






(* ================================================================= *)
(** ** [assistant.py]: the menus that save what they change          *)
(* ================================================================= *)

(** The state the menus of a session work on: the dictionary of the phone
    book of the menu object and the notes of the notes menu, what the two
    files hold ([None] for a file that does not exist), and the terminal.
    [pickle] gives back, as values, what it was given. *)
Record session : Type := mk_session {
  phone_book_data : AddressBook;
  phone_book_file : option AddressBook;
  notes_data : list Note;
  notes_file : option (list Note);
  term : terminal
}.

Definition set_phone_book_data (data : AddressBook) (w : session) : session :=
  mk_session data (phone_book_file w) (notes_data w) (notes_file w) (term w).

Definition set_phone_book_file (f : option AddressBook) (w : session)
  : session :=
  mk_session (phone_book_data w) f (notes_data w) (notes_file w) (term w).

Definition set_notes_data (ns : list Note) (w : session) : session :=
  mk_session (phone_book_data w) (phone_book_file w) ns (notes_file w) (term w).

Definition set_notes_file (f : option (list Note)) (w : session) : session :=
  mk_session (phone_book_data w) (phone_book_file w) (notes_data w) f (term w).

Definition set_term (t : terminal) (w : session) : session :=
  mk_session (phone_book_data w) (phone_book_file w) (notes_data w)
             (notes_file w) t.

Section SavingMenus.

Local Open Scope io_scope.

(** A step at the terminal. *)
Definition on_term {A} (m : IO A) : Run session A :=
  fun w => match m (term w) with (r, t') => (r, set_term t' w) end.

(** A method of the phone book. *)
Definition on_phone_book {A} (m : M AddressBook A) : Run session A :=
  fun w =>
    match m (phone_book_data w) with
    | (r, data') => io_lift r (set_phone_book_data data' w)
    end.

(** A method of the notes menu that prints with [print]: the notes are its
    state, and its lines go to the screen. *)
Definition on_notes {A} (m : M NotesAssistant A) : Run session A :=
  fun w =>
    match m (mk_NotesAssistant (notes_data w) []) with
    | (r, self') =>
        io_lift r
          (set_term (mk_terminal (keyboard (term w))
                                 (screen (term w) ++ map Line (printed self')))
                    (set_notes_data (notes self') w))
    end.

(** [if os.path.isfile(self.phone_book.file):
        self.phone_book.read_from_file()] *)
Definition read_if_file : Run session unit :=
  fun w =>
    match phone_book_file w with
    | Some data => (Done tt, set_phone_book_data data w)
    | None => (Done tt, w)
    end.

(** [self.phone_book.write_to_file()] *)
Definition write_to_file : Run session unit :=
  fun w => (Done tt, set_phone_book_file (Some (phone_book_data w)) w).

(** [self.note_write_to_file()] *)
Definition note_write_to_file : Run session unit :=
  fun w => (Done tt, set_notes_file (Some (notes_data w)) w).

(** [find_record]: the prompt of [prompt_toolkit] is an [input] with a
    completion of the names, which does not change what is read. *)
Definition find_record : Run session (option Record_ + str) :=
  input_error
    (read_if_file ;;;
     on_term (print_line rule_line) ;;;
     name_ <- on_term (input (lit "Enter the name of an existing contact=> ")) ;;
     fun w => (Done (find name_ (phone_book_data w)), w)).

Definition not_found_line : str := Str.red (lit "The contact was not found.").

Definition really_delete_line : str :=
  Str.red (lit "Do you really want to delete this contact? Please enter the number: 1.YES or press ENTER to skip.").

Definition removed_line (name_ : str) : str :=
  Str.teal (lit "The contact " ++ name_ ++ lit " was removed.").

(** [table_print(record)] *)
Definition table_print (today : Date.date) (record : Record_) : IO Table :=
  row <- contact_row today record ;;
  io_ret (add_row row contact_table).

(** [delete_contact].  The body of the loop [while True] ends in [return]
    on every path.  A string that [find_record] returned for an exception
    would be taken for a record, and has no phones. *)
Definition delete_contact (today : Date.date) : Run session (unit + str) :=
  input_error
    (found <- find_record ;;
     match found with
     | inl None => on_term (print_line not_found_line)
     | inr message =>
         if nonempty message
         then io_fail (AttributeError (lit "'str' object has no attribute 'phones'"))
         else on_term (print_line not_found_line)
     | inl (Some record) =>
         table <- on_term (table_print today record) ;;
         on_term (console_print table) ;;;
         on_term (print_line really_delete_line) ;;;
         line <- on_term (input (lit "Enter your text=>  ")) ;;
         let res := Str.lower line in
         if Str.eqb res (lit "1") || Str.eqb res (lit "yes") then
           on_phone_book (delete (Name_value (name record))) ;;;
           on_term (print_line (removed_line (Name_value (name record)))) ;;;
           write_to_file
         else io_ret tt
     end).

(** [note_add_menu] *)
Definition note_add_menu : Run session unit :=
  content_ <- on_term (input (lit "Enter your text for the note: ")) ;;
  line <- on_term (input (lit "Enter tags separated by commas (or press Enter if no tags): ")) ;;
  let tags_ := str_split "," line in
  on_notes (add_note content_ tags_) ;;;
  note_write_to_file.

(** [note_charge_menu] *)
Definition note_charge_menu : Run session unit :=
  index <- on_term (input (lit "Enter tag of the note to edit: ")) ;;
  new_content <- on_term (input (lit "Enter new text for the note: ")) ;;
  on_notes (edit_note_content index new_content) ;;;
  note_write_to_file.

(** [note_delete_menu] *)
Definition note_delete_menu : Run session unit :=
  index <- on_term (input (lit "Enter tag of the note to delete: ")) ;;
  on_notes (delete_note_by_index index) ;;;
  note_write_to_file.

End SavingMenus.

(** The answers that confirm a removal. *)
Definition confirmed (line : str) : bool :=
  Str.eqb (Str.lower line) (lit "1") || Str.eqb (Str.lower line) (lit "yes").

(** What is on the screen after [find_record] has asked for a name. *)
Definition asked_name (scr : list shown_item) : list shown_item :=
  scr ++ [Line rule_line;
          Asked (lit "Enter the name of an existing contact=> ")].

(* ================================================================= *)
(** * Properties                                                     *)
(* ================================================================= *)

(** ** Strings *)

Lemma Str_eqb_eq (a b : str) : Str.eqb a b = true <-> a = b.
Proof.
  unfold Str.eqb. destruct (list_eq_dec ascii_dec a b); split; congruence.
Qed.

Lemma Str_eqb_neq (a b : str) : Str.eqb a b = false <-> a <> b.
Proof.
  unfold Str.eqb. destruct (list_eq_dec ascii_dec a b); split; congruence.
Qed.

Lemma Str_eqb_refl (a : str) : Str.eqb a a = true.
Proof. now apply Str_eqb_eq. Qed.

Lemma isdigit_char_cases (x : ascii) :
  Str.isdigit_char x = true <->
  Str.ascii_digit x = true
  \/ Str.code x = 178 \/ Str.code x = 179 \/ Str.code x = 185.
Proof.
  unfold Str.isdigit_char.
  rewrite !orb_true_iff, !Nat.eqb_eq. tauto.
Qed.

Lemma isdigit_iff (s : str) :
  Str.isdigit s = true <->
  s <> [] /\ Forall (fun x => Str.isdigit_char x = true) s.
Proof.
  unfold Str.isdigit. destruct s as [|x s'].
  - split; [discriminate | intros [H _]; congruence].
  - rewrite forallb_forall, Forall_forall. split.
    + intros H. split; [discriminate | exact H].
    + intros [_ H]. exact H.
Qed.

(** ** [Phone] *)

(** [Phone] accepts the strings of ten [isdigit] characters and rejects the
    others. *)
Lemma Phone_setter_accepts (s : str) :
  ten_isdigit_characters s -> Phone_setter s = Return (mk_Phone s).
Proof.
  intros [Hlen Hall]. unfold Phone_setter.
  assert (Hd : Str.isdigit s = true).
  { apply isdigit_iff. split; [|exact Hall].
    intros ->. discriminate Hlen. }
  rewrite Hd, Hlen. reflexivity.
Qed.

Lemma Phone_setter_rejects (s : str) :
  ~ ten_isdigit_characters s -> Phone_setter s = Raise Phone_error.
Proof.
  intros Hn. unfold Phone_setter.
  destruct (length s =? 10) eqn:Hlen; [|reflexivity].
  destruct (Str.isdigit s) eqn:Hd; [|reflexivity].
  exfalso. apply Hn. apply Nat.eqb_eq in Hlen.
  apply isdigit_iff in Hd. split; [exact Hlen | apply Hd].
Qed.

Lemma ten_isdigit_characters_dec (s : str) :
  ten_isdigit_characters s \/ ~ ten_isdigit_characters s.
Proof.
  unfold ten_isdigit_characters.
  destruct (Nat.eq_dec (length s) 10) as [Hl|Hl]; [|right; tauto].
  destruct (forallb Str.isdigit_char s) eqn:Hf.
  - left. split; [exact Hl|].
    apply Forall_forall. now apply forallb_forall.
  - right. intros [_ Hall].
    assert (forallb Str.isdigit_char s = true)
      by (apply forallb_forall; now apply Forall_forall).
    congruence.
Qed.

(** C3, amended.  [Phone(s)] succeeds exactly when [s] has 10 characters,
    each of them a digit for [str.isdigit]: an ASCII decimal digit or one of
    the superscript digits U+00B2, U+00B3, U+00B9.  On success the stored
    value is [s] itself; every other string is rejected with the validation
    error of the class. *)
Theorem Phone_accepts_iff (s : str) :
  ((exists p, Phone_setter s = Return p) <->
   (length s = 10 /\
    Forall (fun x => Str.ascii_digit x = true
                     \/ Str.code x = 178 \/ Str.code x = 179
                     \/ Str.code x = 185) s))
  /\ (forall p, Phone_setter s = Return p -> Phone_value p = s)
  /\ ((forall p, Phone_setter s <> Return p) -> Phone_setter s = Raise Phone_error).
Proof.
  assert (Hchar : Forall (fun x => Str.ascii_digit x = true
                     \/ Str.code x = 178 \/ Str.code x = 179
                     \/ Str.code x = 185) s
                  <-> Forall (fun x => Str.isdigit_char x = true) s).
  { rewrite !Forall_forall. split; intros H x Hx; apply isdigit_char_cases;
      apply H; exact Hx. }
  rewrite Hchar.
  destruct (ten_isdigit_characters_dec s) as [Hok|Hbad].
  - pose proof (Phone_setter_accepts s Hok) as E.
    split; [split|split].
    + intros _. exact Hok.
    + intros _. eexists; exact E.
    + intros p Hp. rewrite E in Hp. inversion Hp; reflexivity.
    + intros Hn. exfalso. exact (Hn _ E).
  - pose proof (Phone_setter_rejects s Hbad) as E.
    split; [split|split].
    + intros [p Hp]. rewrite E in Hp. discriminate.
    + intros H. exfalso. exact (Hbad H).
    + intros p Hp. rewrite E in Hp. discriminate.
    + intros _. exact E.
Qed.

(** The theorem at the phone number [0501234567]. *)
Lemma Phone_accepts_iff_witness :
  Phone_setter sample_phone = Return (mk_Phone sample_phone)
  /\ Phone_value (mk_Phone sample_phone) = sample_phone.
Proof.
  split.
  - reflexivity.
  - apply (proj1 (proj2 (Phone_accepts_iff sample_phone))). reflexivity.
Defined.

(** C3 as stated fails: ten characters SUPERSCRIPT TWO are not decimal
    digits, and [Phone] accepts them. *)
Lemma Phone_decimal_digits_counterexample :
  ~ ((exists p, Phone_setter ten_superscript_twos = Return p)
     <-> ten_decimal_digits ten_superscript_twos = true).
Proof.
  intros [H _].
  assert (E : ten_decimal_digits ten_superscript_twos = true).
  { apply H. eexists. reflexivity. }
  vm_compute in E. discriminate E.
Qed.

(** ** [Record.add_phone] and [Record.edit_phone] *)

Lemma add_phone_accepted (self : Record_) (value : str) (p : Phone) :
  Phone_setter value = Return p ->
  add_phone value self = (Return tt, set_phones (phones self ++ [p]) self).
Proof.
  intros E. unfold add_phone, bind, lift, modify. rewrite E. reflexivity.
Qed.

Lemma add_phone_rejected (self : Record_) (value : str) (e : exn) :
  Phone_setter value = Raise e -> add_phone value self = (Raise e, self).
Proof.
  intros E. unfold add_phone, bind, lift. rewrite E. reflexivity.
Qed.

Lemma Phone_setter_value (value : str) (p : Phone) :
  Phone_setter value = Return p -> p = mk_Phone value.
Proof.
  unfold Phone_setter.
  destruct (negb (length value =? 10) || negb (Str.isdigit value));
    intros E; inversion E; reflexivity.
Qed.

(** C8.  [add_phone] runs the validation of [Phone] on the string.  When the
    validation accepts, the call returns and the phone list is the old list
    with the new phone at its end, whether or not the list held that value
    already, the other fields being untouched; when the validation raises,
    the call raises the same error and the record is exactly as before; and
    the validation does one or the other. *)
Theorem add_phone_appends_or_raises (self : Record_) (value : str) :
  (forall p, Phone_setter value = Return p ->
     exists self',
       add_phone value self = (Return tt, self')
       /\ map Phone_value (phones self') = map Phone_value (phones self) ++ [value]
       /\ length (phones self') = S (length (phones self))
       /\ name self' = name self /\ birthday self' = birthday self
       /\ email self' = email self /\ address self' = address self)
  /\ (forall e, Phone_setter value = Raise e ->
        add_phone value self = (Raise e, self))
  /\ ((exists p, Phone_setter value = Return p)
      \/ Phone_setter value = Raise Phone_error).
Proof.
  split; [|split].
  3: { destruct (ten_isdigit_characters_dec value) as [H|H].
       - left. eexists. exact (Phone_setter_accepts value H).
       - right. exact (Phone_setter_rejects value H). }
  - intros p E. exists (set_phones (phones self ++ [p]) self).
    split; [exact (add_phone_accepted self value p E)|].
    apply Phone_setter_value in E. subst p. simpl.
    rewrite map_app, length_app. simpl.
    repeat split; try reflexivity. lia.
  - intros e E. exact (add_phone_rejected self value e E).
Qed.

(** The theorem on a record that already holds [0501234567]: adding the same
    number again gives a list holding it twice, and adding ["12"] raises and
    changes nothing. *)
Lemma add_phone_appends_or_raises_witness :
  (exists self',
     add_phone sample_phone sample_record = (Return tt, self')
     /\ map Phone_value (phones self') = [sample_phone; sample_phone])
  /\ add_phone (lit "12") sample_record = (Raise Phone_error, sample_record).
Proof.
  split.
  - destruct (proj1 (add_phone_appends_or_raises sample_record sample_phone)
                (mk_Phone sample_phone) eq_refl)
      as [self' [E [Hmap _]]].
    exists self'. split; [exact E | exact Hmap].
  - apply (proj1 (proj2 (add_phone_appends_or_raises sample_record (lit "12")))).
    reflexivity.
Defined.

Lemma edit_first_rejected (old_phone new_phone : str) (e : exn) (ps : list Phone) :
  Phone_setter new_phone = Raise e ->
  In old_phone (map Phone_value ps) ->
  edit_first old_phone new_phone ps = Some (Raise e).
Proof.
  intros E. induction ps as [|p ps IH]; simpl.
  - intros [].
  - intros [Hp|Hin].
    + rewrite Hp, Str_eqb_refl, E. reflexivity.
    + destruct (Str.eqb (Phone_value p) old_phone).
      * rewrite E. reflexivity.
      * rewrite (IH Hin). reflexivity.
Qed.

(** C10, amended.  When the phone list holds the old value and the validation
    of [Phone] rejects the new value, that is, when the new value is not a
    string of 10 characters that are digits for [str.isdigit], [edit_phone]
    raises the validation error and the record, its phone list included, is
    exactly as before. *)
Theorem edit_phone_rejected_keeps_phones
  (self : Record_) (old_phone new_phone : str) :
  In old_phone (map Phone_value (phones self)) ->
  ~ ten_isdigit_characters new_phone ->
  edit_phone old_phone new_phone self = (Raise Phone_error, self).
Proof.
  intros Hin Hbad. apply Phone_setter_rejects in Hbad.
  unfold edit_phone, bind, get.
  rewrite (edit_first_rejected old_phone new_phone _ (phones self) Hbad Hin). reflexivity.
Qed.

Lemma not_ten_isdigit_short : ~ ten_isdigit_characters (lit "12").
Proof. intros [H _]. discriminate H. Qed.

(** The theorem on the sample record, the new value being ["12"]. *)
Lemma edit_phone_rejected_keeps_phones_witness :
  edit_phone sample_phone (lit "12") sample_record
  = (Raise Phone_error, sample_record).
Proof.
  apply edit_phone_rejected_keeps_phones.
  - simpl. left. reflexivity.
  - exact not_ten_isdigit_short.
Defined.

(** C10 as stated fails: ten characters SUPERSCRIPT TWO are not 10 decimal
    digits, yet [edit_phone] raises nothing and stores them in place of the
    old value. *)
Lemma edit_phone_decimal_digits_counterexample :
  In sample_phone (map Phone_value (phones sample_record))
  /\ ten_decimal_digits ten_superscript_twos = false
  /\ (forall e, edit_phone sample_phone ten_superscript_twos sample_record
                <> (Raise e, sample_record))
  /\ map Phone_value
       (phones (snd (edit_phone sample_phone ten_superscript_twos sample_record)))
     = [ten_superscript_twos].
Proof.
  split; [left; reflexivity|].
  split; [reflexivity|].
  split; [|reflexivity].
  intros e H. vm_compute in H. discriminate H.
Qed.

(** ** [AddressBook.delete] *)

Lemma dict_mem_In (key : str) (data : AddressBook) :
  dict_mem key data = true <-> In key (keys data).
Proof.
  unfold dict_mem, keys. rewrite existsb_exists, in_map_iff. split.
  - intros [kv [Hin E]]. apply Str_eqb_eq in E. exists kv. split; assumption.
  - intros [kv [E Hin]]. exists kv. split; [assumption|].
    now apply Str_eqb_eq.
Qed.

Lemma dict_pop_absent (key : str) (data : AddressBook) :
  ~ In key (keys data) -> dict_pop key data = data.
Proof.
  induction data as [|[k v] data IH]; simpl; intros Hn; [reflexivity|].
  destruct (Str.eqb k key) eqn:E.
  - apply Str_eqb_eq in E. tauto.
  - rewrite IH; [reflexivity | tauto].
Qed.

(** On a dictionary, [pop] removes the entries of the key and keeps the
    others in their order. *)
Lemma dict_pop_filter (key : str) (data : AddressBook) :
  NoDup (keys data) ->
  dict_pop key data = filter (fun kv => negb (Str.eqb (fst kv) key)) data.
Proof.
  induction data as [|[k v] data IH]; simpl; intros Hnd; [reflexivity|].
  inversion Hnd as [|? ? Hk Hnd']; subst.
  destruct (Str.eqb k key) eqn:E; simpl.
  - apply Str_eqb_eq in E. subst k.
    rewrite <- IH by assumption. symmetry. now apply dict_pop_absent.
  - rewrite IH by assumption. reflexivity.
Qed.

Lemma keys_filter_In (f : str * Record_ -> bool) (data : AddressBook) (k : str) :
  In k (keys (filter f data)) -> In k (keys data).
Proof.
  unfold keys. rewrite !in_map_iff.
  intros [kv [E Hin]]. apply filter_In in Hin. exists kv. tauto.
Qed.

Lemma keys_filter_NoDup (f : str * Record_ -> bool) (data : AddressBook) :
  NoDup (keys data) -> NoDup (keys (filter f data)).
Proof.
  induction data as [|[k v] data IH]; simpl; intros Hnd; [constructor|].
  inversion Hnd as [|? ? Hk Hnd']; subst.
  destruct (f (k, v)); simpl; [|now apply IH].
  constructor; [|now apply IH].
  intros Hin. apply Hk. eapply keys_filter_In. exact Hin.
Qed.

Lemma dict_get_filter_other (key k : str) (data : AddressBook) :
  k <> key ->
  dict_get k (filter (fun kv => negb (Str.eqb (fst kv) key)) data)
  = dict_get k data.
Proof.
  intros Hne. induction data as [|[k' v] data IH]; simpl; [reflexivity|].
  destruct (Str.eqb k' key) eqn:E; simpl.
  - apply Str_eqb_eq in E. subst k'.
    destruct (Str.eqb key k) eqn:E'; [|exact IH].
    apply Str_eqb_eq in E'. congruence.
  - rewrite IH. reflexivity.
Qed.

Lemma dict_get_None (k : str) (data : AddressBook) :
  dict_get k data = None <-> ~ In k (keys data).
Proof.
  induction data as [|[k' v] data IH]; simpl; [tauto|].
  destruct (Str.eqb k' k) eqn:E.
  - apply Str_eqb_eq in E. split; [discriminate | tauto].
  - apply Str_eqb_neq in E. rewrite IH. tauto.
Qed.

(** C9.  On a dictionary (an association list without a repeated key), deleting a
    name that is not a key returns the not-found message and gives back the
    same mapping; deleting a name that is a key returns the deleted message
    and gives the mapping without that key, every other key keeping its
    record and its place; and in both cases [delete] returns and does not
    raise. *)
Theorem delete_found_or_not (data : AddressBook) (name_ : str) :
  NoDup (keys data) ->
  (~ In name_ (keys data) ->
   delete name_ data = (Return (not_found_message name_), data))
  /\ (In name_ (keys data) ->
      exists data',
        delete name_ data = (Return (deleted_message name_), data')
        /\ dict_get name_ data' = None
        /\ (forall k, k <> name_ -> dict_get k data' = dict_get k data)
        /\ data' = filter (fun kv => negb (Str.eqb (fst kv) name_)) data
        /\ NoDup (keys data'))
  /\ (exists msg data', delete name_ data = (Return msg, data'))
  /\ not_found_message name_ <> deleted_message name_.
Proof.
  intros Hnd. unfold delete, bind, get, put, ret.
  destruct (dict_mem name_ data) eqn:Hmem.
  - apply dict_mem_In in Hmem. rewrite (dict_pop_filter name_ data Hnd).
    split; [tauto|]. split; [|split].
    + intros _. eexists. split; [reflexivity|].
      split; [|split; [|split]].
      * apply dict_get_None. unfold keys. rewrite in_map_iff.
        intros [kv [E Hin]]. apply filter_In in Hin. destruct Hin as [_ Hf].
        rewrite E, Str_eqb_refl in Hf. discriminate.
      * intros k Hk. now apply dict_get_filter_other.
      * reflexivity.
      * now apply keys_filter_NoDup.
    + eexists. eexists. reflexivity.
    + unfold not_found_message, deleted_message. intros E.
      apply app_inv_head in E. apply app_inv_head in E. discriminate E.
  - assert (Hn : ~ In name_ (keys data)).
    { intros Hin. apply dict_mem_In in Hin. congruence. }
    split; [reflexivity|]. split; [tauto|]. split.
    + eexists. eexists. reflexivity.
    + unfold not_found_message, deleted_message. intros E.
      apply app_inv_head in E. apply app_inv_head in E. discriminate E.
Qed.

Lemma sample_book_NoDup : NoDup (keys sample_book).
Proof.
  repeat constructor; simpl; intros H;
    repeat (destruct H as [H|H]; [discriminate H|]); exact H.
Qed.

(** The theorem on a book with the keys John and Mary: deleting Bob finds
    nothing and changes nothing, deleting John leaves Mary alone. *)
Lemma delete_found_or_not_witness :
  delete (lit "Bob") sample_book
  = (Return (not_found_message (lit "Bob")), sample_book)
  /\ delete (lit "John") sample_book
     = (Return (deleted_message (lit "John")),
        [(lit "Mary", Record_init (lit "Mary"))]).
Proof.
  split.
  - apply (proj1 (delete_found_or_not sample_book (lit "Bob") sample_book_NoDup)).
    simpl. intros H.
    repeat (destruct H as [H|H]; [discriminate H|]); exact H.
  - destruct (proj1 (proj2 (delete_found_or_not sample_book (lit "John")
                              sample_book_NoDup)))
      as [data' [E [_ [_ [Hf _]]]]].
    + left. reflexivity.
    + rewrite E, Hf. reflexivity.
Defined.

(** ** The tag operations of [NotesAssistant] *)

Lemma has_tag_In (tag : str) (note : Note) :
  has_tag tag note = true <-> In tag (tags note).
Proof.
  unfold has_tag. rewrite existsb_exists. split.
  - intros [t [Hin E]]. apply Str_eqb_eq in E. now subst t.
  - intros Hin. exists tag. split; [assumption | apply Str_eqb_refl].
Qed.

(** The loop of [edit_note_content] returns the notes edited one by one. *)
Lemma edit_notes_map (tag new_content : str) (ns : list Note) (out : console) :
  exists out',
    edit_notes tag new_content ns out
    = (Return (map (edited tag new_content) ns), out').
Proof.
  revert out. induction ns as [|note ns IH]; intros out; simpl.
  - eexists. reflexivity.
  - unfold bind, print, modify, ret, edited.
    destruct (has_tag tag note); simpl.
    + destruct (IH (out ++ [updated_message])) as [out' E].
      rewrite E. eexists. reflexivity.
    + destruct (IH (out ++ [invalid_index_message])) as [out' E].
      rewrite E. eexists. reflexivity.
Qed.

Lemma filter_length_eq {A} (f : A -> bool) (l : list A) :
  length (filter f l) = length l <-> forall x, In x l -> f x = true.
Proof.
  induction l as [|a l IH]; simpl; [tauto|].
  pose proof (filter_length_le f l) as Hle.
  destruct (f a) eqn:E; simpl.
  - split.
    + intros H x [<-|Hx]; [exact E|]. apply IH; [lia | exact Hx].
    + intros H. f_equal. apply IH. intros x Hx. apply H. now right.
  - split.
    + intros H. lia.
    + intros H. specialize (H a (or_introl eq_refl)). congruence.
Qed.

(** The two lines of [delete_note_by_index] are different lines. *)
Lemma delete_messages_differ (tag : str) :
  note_deleted_message tag <> no_note_message tag.
Proof.
  unfold note_deleted_message, no_note_message, Str.green, Str.red.
  intros E. cbn [lit list_ascii_of_string app] in E. discriminate E.
Qed.

(** C7.  [edit_note_content] returns with the notes in the same order, the
    content of every note that carries the tag replaced by the new content
    and every other note, and all tags, as they were.  [delete_note_by_index]
    returns with exactly the notes that do not carry the tag, in their order,
    and prints the deleted message when some note carried the tag and the
    no-note message when none did; the two messages are different, so that
    the line printed tells whether any note was removed. *)
Theorem tag_edit_and_delete_all (self : NotesAssistant) (tag new_content : str) :
  (exists out,
     edit_note_content tag new_content self
     = (Return tt, mk_NotesAssistant (map (edited tag new_content) (notes self)) out)
     /\ Forall2 (fun old new =>
                   tags new = tags old
                   /\ (In tag (tags old) -> content new = new_content)
                   /\ (~ In tag (tags old) -> content new = content old))
                (notes self) (map (edited tag new_content) (notes self)))
  /\ (exists ns line,
        delete_note_by_index tag self
        = (Return tt, mk_NotesAssistant ns (printed self ++ [line]))
        /\ (forall note, In note ns <-> In note (notes self) /\ ~ In tag (tags note))
        /\ ns = filter (fun note => negb (has_tag tag note)) (notes self)
        /\ ((exists note, In note (notes self) /\ In tag (tags note))
            -> line = note_deleted_message tag)
        /\ ((forall note, In note (notes self) -> ~ In tag (tags note))
            -> line = no_note_message tag))
  /\ note_deleted_message tag <> no_note_message tag.
Proof.
  split; [|split; [|apply delete_messages_differ]].
  - unfold edit_note_content, bind, get, on_console, set_notes, modify.
    destruct (edit_notes_map tag new_content (notes self) (printed self))
      as [out' E].
    rewrite E. simpl. exists out'. split; [reflexivity|].
    clear E. induction (notes self) as [|note ns IH]; simpl; [constructor|].
    constructor; [|exact IH].
    unfold edited. destruct (has_tag tag note) eqn:Ht; simpl.
    + repeat split; try reflexivity. intros Hn. apply has_tag_In in Ht. tauto.
    + repeat split; try reflexivity. intros Hin.
      apply has_tag_In in Hin. congruence.
  - unfold delete_note_by_index, bind, get, set_notes, modify, on_console,
      print, modify. simpl.
    set (ns := filter (fun note => negb (has_tag tag note)) (notes self)).
    assert (Hns : forall note,
               In note ns <-> In note (notes self) /\ ~ In tag (tags note)).
    { intros note. unfold ns. rewrite filter_In, negb_true_iff.
      rewrite <- has_tag_In. destruct (has_tag tag note); intuition congruence. }
    destruct (length ns =? length (notes self)) eqn:Hlen; simpl.
    + apply Nat.eqb_eq in Hlen. unfold ns in Hlen.
      rewrite filter_length_eq in Hlen.
      exists ns, (no_note_message tag).
      split; [reflexivity|]. split; [exact Hns|]. split; [reflexivity|].
      split; [|reflexivity].
      intros [note [Hin Ht]]. apply Hlen in Hin.
      apply negb_true_iff in Hin. apply has_tag_In in Ht. congruence.
    + apply Nat.eqb_neq in Hlen.
      exists ns, (note_deleted_message tag).
      split; [reflexivity|]. split; [exact Hns|]. split; [reflexivity|].
      split; [reflexivity|].
      intros Hnone. exfalso. apply Hlen. unfold ns.
      apply filter_length_eq. intros note Hin.
      apply negb_true_iff. specialize (Hnone note Hin).
      rewrite <- has_tag_In in Hnone. now destruct (has_tag tag note).
Qed.

(** The theorem on three notes, two of which share the tag [home]:
    [edit_note_content] rewrites both and [delete_note_by_index] removes
    both. *)
Lemma tag_edit_and_delete_all_witness :
  (exists out,
     edit_note_content (lit "home") (lit "done") sample_notes
     = (Return tt,
        mk_NotesAssistant
          [mk_Note (lit "done") [lit "home"; lit "shop"];
           mk_Note (lit "call Bob") [lit "work"];
           mk_Note (lit "done") [lit "home"]] out))
  /\ delete_note_by_index (lit "home") sample_notes
     = (Return tt,
        mk_NotesAssistant [mk_Note (lit "call Bob") [lit "work"]]
                          [note_deleted_message (lit "home")]).
Proof.
  destruct (tag_edit_and_delete_all sample_notes (lit "home") (lit "done"))
    as [[out [E _]] [[ns [line [E' [_ [Hns [Hsome _]]]]]] _]].
  split.
  - exists out. exact E.
  - rewrite E', Hns, Hsome.
    + reflexivity.
    + exists (mk_Note (lit "fix tap") [lit "home"]).
      split; simpl; auto.
Defined.

(** ** [re] and [Email] *)

(** A greedy repetition stops after any prefix made of characters of the
    class. *)
Lemma greedy_In (cls : ascii -> bool) (s : str) (p : nat)
  (g : list (string * str)) (st : Re.mstate) :
  In st (Re.greedy cls p s g) <->
  exists w s', s = w ++ s' /\ forallb cls w = true
               /\ st = Re.mk_mstate (p + length w) s' g.
Proof.
  revert p. induction s as [|x s IH]; intros p; simpl.
  - split.
    + intros [<-|[]]. exists [], []. simpl. rewrite Nat.add_0_r. auto.
    + intros [w [s' [E [_ ->]]]]. left.
      symmetry in E. apply app_eq_nil in E. destruct E as [-> ->].
      simpl. now rewrite Nat.add_0_r.
  - assert (Hzero : Re.mk_mstate p (x :: s) g
                    = Re.mk_mstate (p + length (@nil ascii)) (x :: s) g)
      by (simpl; now rewrite Nat.add_0_r).
    destruct (cls x) eqn:Hx.
    + rewrite in_app_iff, IH. simpl. split.
      * intros [[w [s' [E [Hw ->]]]]|[<-|[]]].
        -- exists (x :: w), s'. subst s. simpl. rewrite Hx, Hw.
           repeat split. f_equal. lia.
        -- exists [], (x :: s). auto.
      * intros [[|y w] [s' [E [Hw ->]]]].
        -- right. left. simpl in E. subst s'. exact Hzero.
        -- left. simpl in E. inversion E; subst. simpl in Hw.
           apply andb_true_iff in Hw. exists w, s'.
           repeat split; [tauto|]. simpl. f_equal. lia.
    + simpl. split.
      * intros [<-|[]]. exists [], (x :: s). auto.
      * intros [[|y w] [s' [E [Hw ->]]]].
        -- left. simpl in E. subst s'. exact Hzero.
        -- simpl in E. inversion E; subst. simpl in Hw. rewrite Hx in Hw.
           discriminate Hw.
Qed.

Lemma run_Rep_In (n : nat) (cls : ascii -> bool) (st st' : Re.mstate) :
  In st' (Re.run (Re.Rep n cls) st) <->
  exists w, Re.rest st = w ++ Re.rest st' /\ forallb cls w = true
            /\ n <= length w
            /\ Re.pos st' = Re.pos st + length w
            /\ Re.groups st' = Re.groups st.
Proof.
  simpl. rewrite filter_In, greedy_In. split.
  - intros [[w [s' [E [Hw ->]]]] Hn]. simpl in *.
    apply Nat.leb_le in Hn. exists w. repeat split; auto. lia.
  - intros [w [E [Hw [Hn [Hp Hg]]]]]. split.
    + exists w, (Re.rest st'). repeat split; auto.
      destruct st'; simpl in *. congruence.
    + apply Nat.leb_le. lia.
Qed.

Lemma run_Chr_In (cls : ascii -> bool) (st st' : Re.mstate) :
  In st' (Re.run (Re.Chr cls) st) <->
  exists x, Re.rest st = x :: Re.rest st' /\ cls x = true
            /\ Re.pos st' = S (Re.pos st)
            /\ Re.groups st' = Re.groups st.
Proof.
  simpl. destruct (Re.rest st) as [|x s] eqn:E.
  - split; [intros [] | intros [x [H _]]; discriminate H].
  - destruct (cls x) eqn:Hx; simpl.
    + split.
      * intros [<-|[]]. exists x. simpl. auto.
      * intros [y [H [Hy [Hp Hg]]]]. left. inversion H; subst.
        destruct st'; simpl in *. congruence.
    + split; [intros []|]. intros [y [H [Hy _]]]. inversion H; subst.
      congruence.
Qed.

Lemma run_Seq_In (r1 r2 : Re.regex) (st st' : Re.mstate) :
  In st' (Re.run (Re.Seq r1 r2) st) <->
  exists mid, In mid (Re.run r1 st) /\ In st' (Re.run r2 mid).
Proof. simpl. apply in_flat_map. Qed.

Lemma run_Eol_In (st st' : Re.mstate) :
  In st' (Re.run Re.Eol st) <-> st' = st /\ Re.at_eol (Re.rest st) = true.
Proof.
  simpl. destruct (Re.at_eol (Re.rest st)); simpl; intuition congruence.
Qed.

Lemma at_eol_cases (s : str) :
  Re.at_eol s = true <-> s = [] \/ s = newline.
Proof.
  destruct s as [|x [|y s]]; simpl.
  - tauto.
  - unfold newline. split.
    + intros H. right. apply Nat.eqb_eq in H. unfold Str.code in H.
      rewrite <- (ascii_nat_embedding x), H. reflexivity.
    + intros [H|H]; [discriminate H|]. inversion H. reflexivity.
  - split; [discriminate|]. intros [H|H]; discriminate H.
Qed.

(** A pattern that starts with [^] matches at the start of the string or
    nowhere. *)
Lemma search_from_Bol (r : Re.regex) (p : nat) (s : str) :
  Re.search_from (Re.Seq Re.Bol r) (S p) s = None.
Proof.
  revert p. induction s as [|x s IH]; intros p; simpl; [reflexivity|].
  apply IH.
Qed.

Lemma search_Bol (r : Re.regex) (s : str) :
  Re.search (Re.Seq Re.Bol r) s = Re.re_match r s.
Proof.
  unfold Re.search, Re.re_match.
  destruct s as [|x s]; simpl; rewrite app_nil_r;
    destruct (hd_error _); try reflexivity.
  apply search_from_Bol.
Qed.

Lemma hd_error_Some_In {A} (l : list A) :
  (exists a, hd_error l = Some a) <-> (exists a, In a l).
Proof.
  destruct l as [|a l]; simpl.
  - split; intros [a H]; [discriminate H | destruct H].
  - split; intros _; exists a; auto.
Qed.

Lemma is_char_eq (a x : ascii) : Str.is_char a x = true <-> x = a.
Proof. unfold Str.is_char. rewrite Ascii.eqb_eq. split; congruence. Qed.

(** What the pattern of [Email] matches after its [^]. *)
Lemma Email_body_In (s : str) :
  (exists st', In st' (Re.run Email_body (Re.mk_mstate 0 s []))) <->
  exists local_ domain tld tail,
    s = local_ ++ "@"%char :: domain ++ "."%char :: tld ++ tail
    /\ 1 <= length local_ /\ forallb local_class local_ = true
    /\ 1 <= length domain /\ forallb domain_class domain = true
    /\ 2 <= length tld /\ forallb letter_class tld = true
    /\ Re.at_eol tail = true.
Proof.
  unfold Email_body, Re.c. split.
  - intros [st' H].
    apply run_Seq_In in H. destruct H as [m1 [H1 H]].
    apply run_Seq_In in H. destruct H as [m2 [H2 H]].
    apply run_Seq_In in H. destruct H as [m3 [H3 H]].
    apply run_Seq_In in H. destruct H as [m4 [H4 H]].
    apply run_Seq_In in H. destruct H as [m5 [H5 H]].
    apply run_Eol_In in H. destruct H as [-> Heol].
    apply run_Rep_In in H1. destruct H1 as [l [E1 [Hl [Hnl _]]]].
    apply run_Chr_In in H2. destruct H2 as [x [E2 [Hx _]]].
    apply run_Rep_In in H3. destruct H3 as [d [E3 [Hd [Hnd _]]]].
    apply run_Chr_In in H4. destruct H4 as [y [E4 [Hy _]]].
    apply run_Rep_In in H5. destruct H5 as [t [E5 [Ht [Hnt _]]]].
    apply is_char_eq in Hx, Hy. subst x y. simpl in E1.
    exists l, d, t, (Re.rest m5).
    rewrite E1, E2, E3, E4, E5. auto 10.
  - intros [l [d [t [tail [E [Hnl [Hl [Hnd [Hd [Hnt [Ht Heol]]]]]]]]]]].
    set (p1 := length l). set (p2 := S p1). set (p3 := p2 + length d).
    set (p4 := S p3). set (p5 := p4 + length t).
    exists (Re.mk_mstate p5 tail []).
    apply run_Seq_In.
    exists (Re.mk_mstate p1 ("@"%char :: d ++ "."%char :: t ++ tail) []).
    split; [apply run_Rep_In; exists l; simpl; auto|].
    apply run_Seq_In.
    exists (Re.mk_mstate p2 (d ++ "."%char :: t ++ tail) []).
    split; [apply run_Chr_In; exists "@"%char; simpl; auto|].
    apply run_Seq_In.
    exists (Re.mk_mstate p3 ("."%char :: t ++ tail) []).
    split; [apply run_Rep_In; exists d; simpl; auto|].
    apply run_Seq_In.
    exists (Re.mk_mstate p4 (t ++ tail) []).
    split; [apply run_Chr_In; exists "."%char; simpl; auto|].
    apply run_Seq_In.
    exists (Re.mk_mstate p5 tail []).
    split; [apply run_Rep_In; exists t; simpl; auto|].
    apply run_Eol_In. simpl. auto.
Qed.

Lemma email_words_tail (s : str) :
  (exists local_ domain tld tail,
    s = local_ ++ "@"%char :: domain ++ "."%char :: tld ++ tail
    /\ 1 <= length local_ /\ forallb local_class local_ = true
    /\ 1 <= length domain /\ forallb domain_class domain = true
    /\ 2 <= length tld /\ forallb letter_class tld = true
    /\ Re.at_eol tail = true)
  <-> email_words s \/ exists t, s = t ++ newline /\ email_words t.
Proof.
  assert (Hne : forall w : str, 1 <= length w <-> w <> []).
  { intros [|x w]; simpl; split; intros H; try lia; congruence. }
  split.
  - intros [l [d [t [tail [E [Hnl [Hl [Hnd [Hd [Hnt [Ht Heol]]]]]]]]]]].
    apply Hne in Hnl, Hnd.
    apply at_eol_cases in Heol. destruct Heol as [->| ->].
    + left. rewrite app_nil_r in E. exists l, d, t. auto 10.
    + right. exists (l ++ "@"%char :: d ++ "."%char :: t). split.
      * rewrite E. rewrite <- !app_assoc. simpl. rewrite <- !app_assoc.
        reflexivity.
      * exists l, d, t. auto 10.
  - intros [[l [d [t [E H]]]] | [s' [Es [l [d [t [E H]]]]]]].
    + exists l, d, t, []. rewrite app_nil_r. rewrite <- !Hne in H.
      intuition.
    + exists l, d, t, newline. rewrite <- !Hne in H. subst s s'.
      rewrite <- !app_assoc. simpl. rewrite <- !app_assoc.
      intuition.
Qed.

Lemma Email_setter_accepts_iff (s : str) :
  (exists e, Email_setter s = Return e) <->
  email_words s \/ exists t, s = t ++ newline /\ email_words t.
Proof.
  rewrite <- email_words_tail, <- Email_body_In, <- hd_error_Some_In.
  unfold Email_setter, Email_pattern. fold Email_body.
  rewrite search_Bol. unfold Re.re_match.
  destruct (hd_error _) as [m|]; split.
  - intros _. exists m. reflexivity.
  - intros _. eexists. reflexivity.
  - intros [e H]. discriminate H.
  - intros [a H]. discriminate H.
Qed.

Lemma email_words_last_letter (s : str) (x : ascii) :
  email_words s -> letter_class (last s x) = true.
Proof.
  intros [l [d [t [E [_ [_ [_ [_ [Hnt Ht]]]]]]]]]. subst s.
  assert (Hne : t <> []) by (intros ->; simpl in Hnt; lia).
  destruct (exists_last Hne) as [t' [y ->]].
  change (l ++ "@"%char :: d ++ "."%char :: t' ++ [y])
    with (l ++ ("@"%char :: d) ++ ("."%char :: t') ++ [y]).
  rewrite !app_assoc, last_last.
  rewrite forallb_forall in Ht. apply Ht.
  apply in_or_app. right. left. reflexivity.
Qed.

(** C5, amended.  [Email(s)] succeeds exactly when [s] is of the form
    local@domain.tld (one or more letters, digits, dots or underscores, an @,
    one or more letters, digits, dots or hyphens, a dot, two or more
    letters), or is such a string followed by one newline, which [$] lets
    through.  On success the stored value is [s]; every other string is
    rejected with the validation error; ["a.b@x.co"] is accepted and ["a@b"]
    rejected. *)
Theorem Email_accepts_iff (s : str) :
  ((exists e, Email_setter s = Return e) <->
   (email_words s \/ exists t, s = t ++ newline /\ email_words t))
  /\ (forall e, Email_setter s = Return e -> Email_value e = s)
  /\ ((forall e, Email_setter s <> Return e) -> Email_setter s = Raise Email_error)
  /\ Email_setter (lit "a.b@x.co") = Return (mk_Email (lit "a.b@x.co"))
  /\ Email_setter (lit "a@b") = Raise Email_error.
Proof.
  split; [apply Email_setter_accepts_iff|].
  unfold Email_setter.
  split; [|split; [|split; reflexivity]].
  - intros e. destruct (Re.search Email_pattern s); intros H; inversion H.
    reflexivity.
  - intros H. destruct (Re.search Email_pattern s); [|reflexivity].
    exfalso. exact (H _ eq_refl).
Qed.

(** The theorem at ["a@x.co"] followed by a newline. *)
Lemma Email_accepts_iff_witness :
  Email_value (mk_Email email_then_newline) = email_then_newline.
Proof.
  apply (proj1 (proj2 (Email_accepts_iff email_then_newline))).
  reflexivity.
Defined.

(** C5 as stated fails: ["a@x.co"] followed by a newline is accepted, and it
    is not of the form local@domain.tld, since it does not end in a letter. *)
Lemma Email_trailing_newline_counterexample :
  ~ ((exists e, Email_setter email_then_newline = Return e)
     <-> email_words email_then_newline).
Proof.
  intros [H _].
  assert (Hw : email_words email_then_newline).
  { apply H. eexists. reflexivity. }
  apply (email_words_last_letter email_then_newline "a"%char) in Hw.
  vm_compute in Hw. discriminate Hw.
Qed.

(** ** The pattern of [strptime] *)

(** A character class at the head of the input. *)
Lemma run_Chr_cons (cls : ascii -> bool) (p : nat) (a : ascii) (s : str)
  (g : list (string * str)) :
  Re.run (Re.Chr cls) (Re.mk_mstate p (a :: s) g)
  = if cls a then [Re.mk_mstate (S p) s g] else [].
Proof. reflexivity. Qed.

Lemma run_Chr_nil (cls : ascii -> bool) (p : nat) (g : list (string * str)) :
  Re.run (Re.Chr cls) (Re.mk_mstate p [] g) = [].
Proof. reflexivity. Qed.

(** The matcher is run on texts whose characters are variables: each test on
    a character that the hypotheses leave open is split in two. *)
Section Evaluation.

Local Arguments Re.run !r !st : simpl nomatch.
Local Arguments Str.in_range lo hi !c.
Local Arguments Str.is_char x !c.
Local Arguments Str.ascii_digit !c.

Ltac settle_test :=
  match goal with
  | |- context [if ?b then _ else _] =>
      let E := fresh "E" in
      destruct b eqn:E;
      try (apply is_char_eq in E; subst)
  end.

Ltac run_regex :=
  repeat (first [ rewrite run_Chr_cons | rewrite run_Chr_nil
                | progress simpl | settle_test ]).

(** On a year, a month and a day that the three groups match, joined by
    dots, the first match that the backtracking finds is the match of the
    whole text. *)
Lemma re_match_format (Y M D : str) :
  year_text Y = true -> month_text M = true -> day_text D = true ->
  Re.re_match Date.format_regex (Y ++ "."%char :: M ++ "."%char :: D)
  = Some (Re.mk_mstate (length (Y ++ "."%char :: M ++ "."%char :: D)) []
            [("d"%string, D); ("m"%string, M); ("Y"%string, Y)]).
Proof.
  destruct Y as [|y1 [|y2 [|y3 [|y4 [|y5 Y]]]]]; try discriminate.
  unfold year_text. simpl length. simpl forallb. simpl Nat.eqb.
  destruct M as [|m1 [|m2 [|m3 M]]]; try (simpl; discriminate);
  destruct D as [|d1 [|d2 [|d3 D]]]; try (simpl; discriminate).
  all: unfold Re.re_match, Date.format_regex, Date.re_Y, Date.re_m, Date.re_d,
         Re.digit, Re.c, Re.rng, month_text, day_text.
  all: simpl app.
  all: run_regex.
  all: try reflexivity.
  all: try (intros; discriminate).
  all: intros;
    repeat match goal with
      | H : context [Str.is_char ?x ?c && _] |- _ =>
          let E := fresh "E" in
          destruct (Str.is_char x c) eqn:E;
          [apply is_char_eq in E; subst|]; simpl in *
      end; try discriminate; try congruence.
Qed.

End Evaluation.

Lemma run_Alt_In (r1 r2 : Re.regex) (st st' : Re.mstate) :
  In st' (Re.run (Re.Alt r1 r2) st) <->
  In st' (Re.run r1 st) \/ In st' (Re.run r2 st).
Proof. simpl. apply in_app_iff. Qed.

Lemma run_Grp_In (name : string) (r : Re.regex) (st st' : Re.mstate) :
  In st' (Re.run (Re.Grp name r) st) <->
  exists m, In m (Re.run r st)
            /\ Re.pos st' = Re.pos m /\ Re.rest st' = Re.rest m
            /\ Re.groups st'
               = (name, firstn (Re.pos m - Re.pos st) (Re.rest st)) :: Re.groups m.
Proof.
  simpl. rewrite in_map_iff. split.
  - intros [m [<- Hm]]. exists m. simpl. auto.
  - intros [m [Hm [Hp [Hr Hg]]]]. exists m. split; [|exact Hm].
    destruct st'; simpl in *. congruence.
Qed.

(** Splits a match of a pattern into the matches of its parts. *)
Ltac invert_run :=
  repeat match goal with
    | H : In _ (Re.run (Re.Seq _ _) _) |- _ =>
        apply run_Seq_In in H; destruct H as [? [? H]]
    | H : In _ (Re.run (Re.Alt _ _) _) |- _ =>
        apply run_Alt_In in H; destruct H as [H|H]
    | H : In _ (Re.run (Re.Chr _) _) |- _ =>
        apply run_Chr_In in H; destruct H as [? [? [? [? ?]]]]
    | H : In _ (Re.run (Re.Grp _ _) _) |- _ =>
        apply run_Grp_In in H; destruct H as [? [H [? [? ?]]]]
    end.

Ltac open_states :=
  repeat match goal with
    | m : Re.mstate |- _ => destruct m as [? ? ?]
    end;
  cbn [Re.pos Re.rest Re.groups] in *; subst.

(** Conversely, a match that ends where the text ends splits the text into a
    year, a month and a day that the three groups match. *)
Lemma format_regex_In (s : str) (found : Re.mstate) :
  In found (Re.run Date.format_regex (Re.mk_mstate 0 s [])) ->
  Re.pos found = length s ->
  exists Y M D,
    s = Y ++ "."%char :: M ++ "."%char :: D
    /\ year_text Y = true /\ month_text M = true /\ day_text D = true.
Proof.
  unfold Date.format_regex, Date.re_Y, Date.re_m, Date.re_d, Re.digit, Re.c,
    Re.rng.
  intros H Hlen. invert_run.
  all: open_states.
  all: repeat match goal with
         | H : Str.is_char _ _ = true |- _ => apply is_char_eq in H; subst
         end.
  all: match goal with
       | H : _ = length (_ :: _) |- _ =>
           cbn [length] in H;
           repeat (apply Nat.succ_inj in H)
       end.
  all: match goal with
       | H : 0 = length ?l |- _ => destruct l; [clear H | discriminate H]
       end.
  all: match goal with
       | |- exists Y M D,
           ?a :: ?b :: ?c :: ?d :: _ :: ?m1 :: "."%char :: ?d1 :: [] = _ /\ _ =>
           exists [a; b; c; d], [m1], [d1]
       | |- exists Y M D,
           ?a :: ?b :: ?c :: ?d :: _ :: ?m1 :: "."%char :: ?d1 :: ?d2 :: [] = _ /\ _ =>
           exists [a; b; c; d], [m1], [d1; d2]
       | |- exists Y M D,
           ?a :: ?b :: ?c :: ?d :: _ :: ?m1 :: ?m2 :: "."%char :: ?d1 :: [] = _ /\ _ =>
           exists [a; b; c; d], [m1; m2], [d1]
       | |- exists Y M D,
           ?a :: ?b :: ?c :: ?d :: _ :: ?m1 :: ?m2 :: "."%char :: ?d1 :: ?d2 :: [] = _ /\ _ =>
           exists [a; b; c; d], [m1; m2], [d1; d2]
       end.
  all: split; [reflexivity|].
  all: unfold year_text, month_text, day_text;
       cbn [length forallb Nat.eqb andb].
  all: repeat match goal with
         | H : _ = true |- _ => rewrite H; clear H
         end.
  all: repeat split; try reflexivity.
  all: repeat match goal with
         | |- context [Str.is_char ?x ?c] =>
             is_var c; destruct (Str.is_char x c)
         | |- context [Str.in_range ?a ?b ?c] =>
             is_var c; destruct (Str.in_range a b c)
         end; reflexivity.
Qed.


(** ** Characters as numbers *)

(** The tests on characters are tests on their codes. *)
Lemma code_inj (a b : ascii) : Str.code a = Str.code b -> a = b.
Proof.
  unfold Str.code. intros H.
  rewrite <- (ascii_nat_embedding a), <- (ascii_nat_embedding b), H.
  reflexivity.
Qed.

Lemma is_char_code (x a : ascii) :
  Str.is_char x a = (Str.code a =? Str.code x).
Proof.
  unfold Str.is_char. destruct (Ascii.eqb x a) eqn:E.
  - apply Ascii.eqb_eq in E. subst. symmetry. apply Nat.eqb_refl.
  - symmetry. apply Nat.eqb_neq. intros H. apply code_inj in H.
    subst. rewrite Ascii.eqb_refl in E. discriminate E.
Qed.

Lemma in_range_code (lo hi a : ascii) :
  Str.in_range lo hi a = true <-> Str.code lo <= Str.code a <= Str.code hi.
Proof.
  unfold Str.in_range. rewrite andb_true_iff, !Nat.leb_le. tauto.
Qed.

Lemma ascii_digit_code (a : ascii) :
  Str.ascii_digit a = true <-> 48 <= Str.code a <= 57.
Proof. unfold Str.ascii_digit. apply in_range_code. Qed.

Lemma isspace_digit (a : ascii) :
  Str.ascii_digit a = true -> Str.isspace_char a = false.
Proof.
  rewrite ascii_digit_code. intros H. unfold Str.isspace_char.
  repeat match goal with
    | |- context [?x <=? ?y] => destruct (Nat.leb_spec x y)
    | |- context [?x =? ?y] => destruct (Nat.eqb_spec x y)
    end; simpl; try reflexivity; lia.
Qed.

(** Computes the codes of the literal characters. *)
Ltac literal_codes :=
  repeat match goal with
    | |- context [Str.code (Ascii ?a ?b ?c ?d ?e ?f ?g ?h)] =>
        let v := eval vm_compute in (Str.code (Ascii a b c d e f g h)) in
        change (Str.code (Ascii a b c d e f g h)) with v
    end.

Ltac literal_codes_in H :=
  repeat match type of H with
    | context [Str.code (Ascii ?a ?b ?c ?d ?e ?f ?g ?h)] =>
        let v := eval vm_compute in (Str.code (Ascii a b c d e f g h)) in
        change (Str.code (Ascii a b c d e f g h)) with v in H
    end.

(** Turns the tests on characters of the context into facts on their
    codes. *)
Ltac char_facts :=
  repeat match goal with
    | H : Str.ascii_digit _ = true |- _ => apply ascii_digit_code in H
    | H : Str.in_range _ _ _ = true |- _ =>
        apply in_range_code in H; literal_codes_in H
    | H : Str.is_char _ _ = true |- _ =>
        rewrite is_char_code in H; apply Nat.eqb_eq in H; literal_codes_in H
    | H : _ && _ = true |- _ => apply andb_true_iff in H; destruct H
    | H : _ || _ = true |- _ => apply orb_true_iff in H; destruct H
    end.

(** Proves a test on a character from facts on its code. *)
Ltac char_goal :=
  repeat match goal with
    | |- _ && _ = true => apply andb_true_iff; split
    | |- Str.ascii_digit _ = true => apply ascii_digit_code
    | |- Str.in_range _ _ _ = true => apply in_range_code; literal_codes
    | |- Str.is_char _ _ = true =>
        rewrite is_char_code; apply Nat.eqb_eq; literal_codes
    end.

(** [int] of the texts of one, two and four digits and of a space and a
    digit. *)
Lemma to_int_1 (a : ascii) :
  Str.ascii_digit a = true -> Str.to_int [a] = Some (Str.digit_value a).
Proof.
  intros H. unfold Str.to_int, Str.strip. cbn [Str.lstrip rev app].
  rewrite (isspace_digit a H). cbn [Str.lstrip rev app].
  rewrite (isspace_digit a H). cbn [rev app forallb fold_left].
  rewrite H. cbn [andb]. f_equal.
Qed.

Lemma to_int_2 (a b : ascii) :
  Str.ascii_digit a = true -> Str.ascii_digit b = true ->
  Str.to_int [a; b] = Some (10 * Str.digit_value a + Str.digit_value b)%Z.
Proof.
  intros Ha Hb. unfold Str.to_int, Str.strip. cbn [Str.lstrip rev app].
  rewrite (isspace_digit a Ha). cbn [Str.lstrip rev app].
  rewrite (isspace_digit b Hb). cbn [rev app forallb fold_left].
  rewrite Ha, Hb. cbn [andb]. f_equal.
Qed.

Lemma to_int_4 (a b c d : ascii) :
  Str.ascii_digit a = true -> Str.ascii_digit b = true ->
  Str.ascii_digit c = true -> Str.ascii_digit d = true ->
  Str.to_int [a; b; c; d]
  = Some (10 * (10 * (10 * Str.digit_value a + Str.digit_value b)
                + Str.digit_value c) + Str.digit_value d)%Z.
Proof.
  intros Ha Hb Hc Hd. unfold Str.to_int, Str.strip. cbn [Str.lstrip rev app].
  rewrite (isspace_digit a Ha). cbn [Str.lstrip rev app].
  rewrite (isspace_digit d Hd). cbn [rev app forallb fold_left].
  rewrite Ha, Hb, Hc, Hd. cbn [andb]. f_equal.
Qed.

Lemma to_int_space (b : ascii) :
  Str.ascii_digit b = true ->
  Str.to_int [" "%char; b] = Some (Str.digit_value b).
Proof.
  intros Hb. unfold Str.to_int, Str.strip. cbn [Str.lstrip rev app].
  change (Str.isspace_char " ") with true. cbn [Str.lstrip rev app].
  rewrite (isspace_digit b Hb). cbn [Str.lstrip rev app].
  rewrite (isspace_digit b Hb). cbn [rev app forallb fold_left].
  rewrite Hb. cbn [andb]. f_equal.
Qed.

Lemma digit_value_range (a : ascii) :
  Str.ascii_digit a = true -> (0 <= Str.digit_value a <= 9)%Z.
Proof. rewrite ascii_digit_code. unfold Str.digit_value. lia. Qed.

Lemma Some_inj {A} (a b : A) : Some a = Some b -> a = b.
Proof. intros H. congruence. Qed.

Lemma year_text_int (Y : str) :
  year_text Y = true ->
  exists y, Str.to_int Y = Some y /\ (0 <= y <= 9999)%Z.
Proof.
  destruct Y as [|a [|b [|c [|d [|e Y]]]]]; try discriminate.
  unfold year_text. cbn [length Nat.eqb forallb andb]. intros H.
  char_facts. clear H3.
  rewrite to_int_4 by (char_goal; assumption).
  eexists. split; [reflexivity|]. unfold Str.digit_value. lia.
Qed.

(** The month group matches the texts of one or two digits that read as a
    number from 1 to 12; the day group, those that read as a number from 1 to
    31 and a space followed by a digit from 1 to 9. *)
Lemma month_text_iff (M : str) :
  month_text M = true <->
  one_or_two_digits M = true
  /\ exists m, Str.to_int M = Some m /\ (1 <= m <= 12)%Z.
Proof.
  unfold one_or_two_digits.
  destruct M as [|a [|b [|c M]]]; cbn [month_text length Nat.eqb forallb orb andb].
  - split; [discriminate | intros [H _]; discriminate H].
  - split.
    + intros H. char_facts.
      assert (Ha : Str.ascii_digit a = true) by (char_goal; lia).
      rewrite Ha, to_int_1 by exact Ha. split; [reflexivity|].
      eexists. split; [reflexivity|]. unfold Str.digit_value. lia.
    + intros [H [m [E Hm]]]. apply andb_true_iff in H. destruct H as [Ha _].
      rewrite to_int_1 in E by exact Ha. apply Some_inj in E; subst m.
      unfold Str.digit_value in Hm. char_facts. char_goal. lia.
  - split.
    + intros H. char_facts.
      * assert (Ha : Str.ascii_digit a = true) by (char_goal; lia).
        assert (Hb : Str.ascii_digit b = true) by (char_goal; lia).
        rewrite Ha, Hb, to_int_2 by assumption. split; [reflexivity|].
        eexists. split; [reflexivity|]. unfold Str.digit_value. lia.
      * assert (Ha : Str.ascii_digit a = true) by (char_goal; lia).
        assert (Hb : Str.ascii_digit b = true) by (char_goal; lia).
        rewrite Ha, Hb, to_int_2 by assumption. split; [reflexivity|].
        eexists. split; [reflexivity|]. unfold Str.digit_value. lia.
    + intros [H [m [E Hm]]]. char_facts.
      assert (Ha : Str.ascii_digit a = true) by (char_goal; lia).
      assert (Hb : Str.ascii_digit b = true) by (char_goal; lia).
      rewrite to_int_2 in E by assumption. apply Some_inj in E; subst m.
      unfold Str.digit_value in Hm.
      apply orb_true_iff.
      destruct (Nat.eq_dec (Str.code a) 49) as [E1|E1].
      * left. char_goal; lia.
      * right. char_goal; lia.
  - split; [discriminate | intros [H _]; discriminate H].
Qed.

Lemma day_text_iff (D : str) :
  day_text D = true <->
  (one_or_two_digits D = true \/ space_and_digit D = true)
  /\ exists d, Str.to_int D = Some d /\ (1 <= d <= 31)%Z.
Proof.
  unfold one_or_two_digits.
  destruct D as [|a [|b [|c D]]];
    cbn [day_text space_and_digit length Nat.eqb forallb orb andb].
  - split; [discriminate | intros [[H|H] _]; discriminate H].
  - split.
    + intros H. char_facts.
      assert (Ha : Str.ascii_digit a = true) by (char_goal; lia).
      rewrite Ha, to_int_1 by exact Ha. split; [left; reflexivity|].
      eexists. split; [reflexivity|]. unfold Str.digit_value. lia.
    + intros [[H|H] [d [E Hd]]]; [|discriminate H].
      apply andb_true_iff in H. destruct H as [Ha _].
      rewrite to_int_1 in E by exact Ha. apply Some_inj in E; subst d.
      unfold Str.digit_value in Hd. char_facts. char_goal. lia.
  - split.
    + intros H. char_facts.
      4: { assert (Hb : Str.ascii_digit b = true) by (char_goal; lia).
           assert (Ea : a = " "%char) by (apply code_inj; exact H).
           subst a. rewrite to_int_space by exact Hb.
           split; [right; rewrite Hb; reflexivity|].
           eexists. split; [reflexivity|]. unfold Str.digit_value. lia. }
      all: assert (Ha : Str.ascii_digit a = true) by (char_goal; lia).
      all: assert (Hb : Str.ascii_digit b = true) by (char_goal; lia).
      all: rewrite Ha, Hb, to_int_2 by assumption.
      all: split; [left; reflexivity|].
      all: eexists; split; [reflexivity|]; unfold Str.digit_value; lia.
    + intros [[H|H] [d [E Hd]]].
      * char_facts.
        assert (Ha : Str.ascii_digit a = true) by (char_goal; lia).
        assert (Hb : Str.ascii_digit b = true) by (char_goal; lia).
        rewrite to_int_2 in E by assumption. apply Some_inj in E; subst d.
        unfold Str.digit_value in Hd.
        rewrite !orb_true_iff.
        destruct (Nat.eq_dec (Str.code a) 51) as [E3|E3];
          [left; left; left; char_goal; lia|].
        destruct (Nat.eq_dec (Str.code a) 48) as [E0|E0];
          [left; right; char_goal; lia|].
        left. left. right. char_goal; lia.
      * apply andb_true_iff in H. destruct H as [Ha Hb].
        apply is_char_eq in Ha. subst a.
        rewrite to_int_space in E by exact Hb. apply Some_inj in E; subst d.
        unfold Str.digit_value in Hd.
        rewrite !orb_true_iff. right. rewrite andb_true_iff.
        split; [reflexivity|]. char_facts. char_goal. lia.
  - split; [discriminate | intros [[H|H] _]; discriminate H].
Qed.

(** ** [strptime] and [Birthday] *)

Lemma new_Return (y m d : Z) (dt : Date.date) :
  Date.new y m d = Return dt <->
  Date.valid (Date.mk_date y m d) = true /\ dt = Date.mk_date y m d.
Proof.
  unfold Date.new, Date.valid. cbn [Date.year Date.month Date.day].
  destruct (Date.MINYEAR <=? y)%Z, (y <=? Date.MAXYEAR)%Z, (1 <=? m)%Z,
    (m <=? 12)%Z, (1 <=? d)%Z, (d <=? Date.days_in_month y m)%Z;
    cbn [negb andb];
    (split;
     [ intros H; try discriminate H; injection H as <-; auto
     | intros [H ->]; try discriminate H; reflexivity ]).
Qed.

Lemma new_raises_ValueError (y m d : Z) (e : exn) :
  Date.new y m d = Raise e -> exists msg, e = ValueError msg.
Proof.
  unfold Date.new.
  repeat match goal with
    | |- context [if ?b then _ else _] => destruct b
    end; intros H; try discriminate H; injection H as <-; eexists; reflexivity.
Qed.

Lemma strptime_raises_ValueError (s : str) (e : exn) :
  Date.strptime s = Raise e -> exists msg, e = ValueError msg.
Proof.
  unfold Date.strptime.
  destruct (Re.re_match Date.format_regex s) as [found|].
  2: { intros H. injection H as <-. eexists. reflexivity. }
  destruct (negb (length s =? Re.pos found)).
  { intros H. injection H as <-. eexists. reflexivity. }
  destruct (Date.group_int "Y" (Re.groups found));
    [|intros H; injection H as <-; eexists; reflexivity].
  destruct (Date.group_int "m" (Re.groups found));
    [|intros H; injection H as <-; eexists; reflexivity].
  destruct (Date.group_int "d" (Re.groups found));
    [|intros H; injection H as <-; eexists; reflexivity].
  apply new_raises_ValueError.
Qed.

Lemma strptime_texts (Y M D : str) (y m d : Z) :
  year_text Y = true -> month_text M = true -> day_text D = true ->
  Str.to_int Y = Some y -> Str.to_int M = Some m -> Str.to_int D = Some d ->
  Date.strptime (Y ++ "."%char :: M ++ "."%char :: D) = Date.new y m d.
Proof.
  intros HY HM HD Ey Em Ed. unfold Date.strptime.
  rewrite (re_match_format Y M D HY HM HD).
  cbn [Re.pos Re.groups]. rewrite Nat.eqb_refl. cbn [negb].
  unfold Date.group_int. cbn [Re.group String.eqb Ascii.eqb Bool.eqb].
  rewrite Ey, Em, Ed. reflexivity.
Qed.

Lemma strptime_Return (s : str) (dt : Date.date) :
  Date.strptime s = Return dt ->
  exists Y M D,
    s = Y ++ "."%char :: M ++ "."%char :: D
    /\ year_text Y = true /\ month_text M = true /\ day_text D = true.
Proof.
  unfold Date.strptime. unfold Re.re_match.
  destruct (hd_error _) as [found|] eqn:Hhd; [|discriminate].
  destruct (length s =? Re.pos found) eqn:Hlen; [|discriminate].
  intros _. apply Nat.eqb_eq in Hlen.
  apply (format_regex_In s found); [|congruence].
  destruct (Re.run Date.format_regex (Re.mk_mstate 0 s [])) as [|x l];
    [discriminate Hhd|].
  injection Hhd as ->. left. reflexivity.
Qed.

(** [strptime] accepts a year of four digits, a month and a day of one or two
    digits (the day also as a space and a digit), joined by dots, that are a
    date of the calendar; and nothing else. *)
Lemma strptime_iff (s : str) (dt : Date.date) :
  Date.strptime s = Return dt <->
  exists Y M D y m d,
    s = Y ++ "."%char :: M ++ "."%char :: D
    /\ year_text Y = true
    /\ one_or_two_digits M = true
    /\ (one_or_two_digits D = true \/ space_and_digit D = true)
    /\ Str.to_int Y = Some y /\ Str.to_int M = Some m /\ Str.to_int D = Some d
    /\ Date.valid (Date.mk_date y m d) = true
    /\ dt = Date.mk_date y m d.
Proof.
  split.
  - intros H. destruct (strptime_Return s dt H) as [Y [M [D [E [HY [HM HD]]]]]].
    destruct (year_text_int Y HY) as [y [Ey _]].
    destruct (proj1 (month_text_iff M) HM) as [HM' [m [Em _]]].
    destruct (proj1 (day_text_iff D) HD) as [HD' [d [Ed _]]].
    subst s. rewrite (strptime_texts Y M D y m d HY HM HD Ey Em Ed) in H.
    apply new_Return in H. destruct H as [Hv ->].
    exists Y, M, D, y, m, d. auto 10.
  - intros [Y [M [D [y [m [d [E [HY [HM [HD [Ey [Em [Ed [Hv ->]]]]]]]]]]]]]].
    assert (Hr : (1 <= m <= 12 /\ 1 <= d <= 31)%Z).
    { unfold Date.valid in Hv. cbn [Date.year Date.month Date.day] in Hv.
      rewrite !andb_true_iff, !Z.leb_le in Hv.
      assert (Date.days_in_month y m <= 31)%Z; [|lia].
      unfold Date.days_in_month.
      destruct ((m =? 2)%Z && Date.is_leap y); [lia|].
      assert (Hm : (m = 1 \/ m = 2 \/ m = 3 \/ m = 4 \/ m = 5 \/ m = 6 \/ m = 7
                    \/ m = 8 \/ m = 9 \/ m = 10 \/ m = 11 \/ m = 12)%Z) by lia.
      repeat (destruct Hm as [->|Hm]; [vm_compute; discriminate|]).
      subst m. vm_compute. discriminate. }
    assert (HM' : month_text M = true).
    { apply month_text_iff. split; [exact HM|]. exists m. tauto. }
    assert (HD' : day_text D = true).
    { apply day_text_iff. split; [exact HD|]. exists d. tauto. }
    subst s. rewrite (strptime_texts Y M D y m d HY HM' HD' Ey Em Ed).
    apply new_Return. auto.
Qed.


(** ** Rendering *)

Lemma code_digit_char (n : nat) : n < 10 -> Str.code (Str.digit_char n) = 48 + n.
Proof.
  intros H. unfold Str.code, Str.digit_char.
  apply nat_ascii_embedding. lia.
Qed.

Lemma digit_char_digit (n : nat) :
  n < 10 -> Str.ascii_digit (Str.digit_char n) = true.
Proof.
  intros H. apply ascii_digit_code. rewrite code_digit_char by exact H. lia.
Qed.

Lemma digit_char_value (n : nat) :
  n < 10 -> Str.digit_value (Str.digit_char n) = Z.of_nat n.
Proof.
  intros H. unfold Str.digit_value. rewrite code_digit_char by exact H. lia.
Qed.

Lemma digits_of_S (fuel n : nat) (acc : str) :
  Str.digits_of (S fuel) n acc
  = if n / 10 =? 0 then Str.digit_char (n mod 10) :: acc
    else Str.digits_of fuel (n / 10) (Str.digit_char (n mod 10) :: acc).
Proof. reflexivity. Qed.

(** The decimal digits of a number of four digits. *)
Lemma of_nat_4 (n : nat) :
  (1000 <= Z.of_nat n <= 9999)%Z ->
  Str.of_nat n
  = [Str.digit_char (n / 10 / 10 / 10); Str.digit_char (n / 10 / 10 mod 10);
     Str.digit_char (n / 10 mod 10); Str.digit_char (n mod 10)].
Proof.
  intros H. unfold Str.of_nat.
  destruct n as [|[|[|[|k]]]]; try lia.
  remember (S (S (S (S k)))) as n eqn:En.
  pose proof (Nat.div_mod_eq n 10) as D1.
  pose proof (Nat.mod_upper_bound n 10) as M1.
  pose proof (Nat.div_mod_eq (n / 10) 10) as D2.
  pose proof (Nat.mod_upper_bound (n / 10) 10) as M2.
  pose proof (Nat.div_mod_eq (n / 10 / 10) 10) as D3.
  pose proof (Nat.mod_upper_bound (n / 10 / 10) 10) as M3.
  pose proof (Nat.div_mod_eq (n / 10 / 10 / 10) 10) as D4.
  pose proof (Nat.mod_upper_bound (n / 10 / 10 / 10) 10) as M4.
  rewrite En at 1. rewrite !digits_of_S.
  assert (E1 : (n / 10 =? 0) = false) by (apply Nat.eqb_neq; lia).
  assert (E2 : (n / 10 / 10 =? 0) = false) by (apply Nat.eqb_neq; lia).
  assert (E3 : (n / 10 / 10 / 10 =? 0) = false) by (apply Nat.eqb_neq; lia).
  assert (E4 : (n / 10 / 10 / 10 / 10 =? 0) = true) by (apply Nat.eqb_eq; lia).
  rewrite E1, E2, E3, E4.
  replace (n / 10 / 10 / 10 mod 10) with (n / 10 / 10 / 10) by lia.
  reflexivity.
Qed.

Lemma year_rendered (y : Z) :
  (1000 <= y <= 9999)%Z ->
  exists a b c d,
    Str.of_Z y = [a; b; c; d]
    /\ year_text [a; b; c; d] = true
    /\ Str.to_int [a; b; c; d] = Some y.
Proof.
  intros H. destruct y as [|p|p]; try lia.
  cbn [Str.of_Z].
  set (n := Pos.to_nat p).
  assert (Hn : (1000 <= Z.of_nat n <= 9999)%Z) by (unfold n; lia).
  assert (Ey : Z.pos p = Z.of_nat n) by (unfold n; lia).
  rewrite (of_nat_4 n Hn).
  pose proof (Nat.div_mod_eq n 10) as D1.
  pose proof (Nat.mod_upper_bound n 10) as M1.
  pose proof (Nat.div_mod_eq (n / 10) 10) as D2.
  pose proof (Nat.mod_upper_bound (n / 10) 10) as M2.
  pose proof (Nat.div_mod_eq (n / 10 / 10) 10) as D3.
  pose proof (Nat.mod_upper_bound (n / 10 / 10) 10) as M3.
  assert (B4 : n / 10 / 10 / 10 < 10) by lia.
  do 4 eexists. split; [reflexivity|].
  assert (H1 := digit_char_digit _ B4).
  assert (H2 := digit_char_digit (n / 10 / 10 mod 10) ltac:(lia)).
  assert (H3 := digit_char_digit (n / 10 mod 10) ltac:(lia)).
  assert (H4 := digit_char_digit (n mod 10) ltac:(lia)).
  split.
  - unfold year_text. cbn [length Nat.eqb forallb andb].
    rewrite H1, H2, H3, H4. reflexivity.
  - rewrite to_int_4 by assumption.
    rewrite !digit_char_value by lia. f_equal. lia.
Qed.

Lemma two_digits_ok_all :
  forallb two_digits_ok (map Z.of_nat (seq 1 31)) = true.
Proof. vm_compute. reflexivity. Qed.

Lemma two_digits_rendered (m : Z) :
  (1 <= m <= 31)%Z ->
  exists a b,
    Date.two_digits m = [a; b]
    /\ one_or_two_digits [a; b] = true
    /\ Str.to_int [a; b] = Some m.
Proof.
  intros H.
  assert (Hin : In m (map Z.of_nat (seq 1 31))).
  { apply in_map_iff. exists (Z.to_nat m). split; [lia|].
    apply in_seq. lia. }
  pose proof (proj1 (forallb_forall _ _) two_digits_ok_all m Hin) as Hok.
  unfold two_digits_ok in Hok.
  destruct (Date.two_digits m) as [|a [|b [|c t]]]; try discriminate Hok.
  exists a, b. split; [reflexivity|].
  apply andb_true_iff in Hok. destruct Hok as [Hab Hv].
  unfold one_or_two_digits. cbn [length Nat.eqb orb forallb andb].
  apply andb_true_iff in Hab. destruct Hab as [Ha Hb].
  rewrite Ha, Hb. split; [reflexivity|].
  destruct (Str.to_int [a; b]) as [v|]; [|discriminate Hv].
  apply Z.eqb_eq in Hv. congruence.
Qed.

(** From the year 1000 on, a date is rendered as YYYY.MM.DD and the
    rendering reads back as the date. *)
Lemma strftime_strptime (dt : Date.date) :
  Date.valid dt = true -> (1000 <= Date.year dt)%Z ->
  strict_format (Date.strftime dt) = true
  /\ Date.strptime (Date.strftime dt) = Return dt.
Proof.
  intros Hv Hy. destruct dt as [y m d]. cbn [Date.year] in Hy.
  assert (Hr : (y <= 9999 /\ 1 <= m <= 12 /\ 1 <= d <= 31)%Z).
  { unfold Date.valid in Hv. cbn [Date.year Date.month Date.day] in Hv.
    rewrite !andb_true_iff, !Z.leb_le in Hv. unfold Date.MAXYEAR in Hv.
    assert (Date.days_in_month y m <= 31)%Z; [|lia].
    unfold Date.days_in_month.
    destruct ((m =? 2)%Z && Date.is_leap y); [lia|].
    assert (Hm : (m = 1 \/ m = 2 \/ m = 3 \/ m = 4 \/ m = 5 \/ m = 6 \/ m = 7
                  \/ m = 8 \/ m = 9 \/ m = 10 \/ m = 11 \/ m = 12)%Z) by lia.
    repeat (destruct Hm as [->|Hm]; [vm_compute; discriminate|]).
    subst m. vm_compute. discriminate. }
  destruct (year_rendered y ltac:(lia)) as [a [b [c [e [EY [HY IY]]]]]].
  destruct (two_digits_rendered m ltac:(lia)) as [m1 [m2 [EM [HM IM]]]].
  destruct (two_digits_rendered d ltac:(lia)) as [d1 [d2 [ED [HD ID]]]].
  unfold Date.strftime. cbn [Date.year Date.month Date.day].
  rewrite EY, EM, ED. cbn [lit list_ascii_of_string app].
  split.
  - unfold strict_format. unfold year_text in HY.
    unfold one_or_two_digits in HM, HD.
    cbn [length Nat.eqb forallb andb orb] in *.
    char_facts. rewrite !andb_true_iff.
    repeat split; try (char_goal; lia); reflexivity.
  - apply strptime_iff.
    exists [a; b; c; e], [m1; m2], [d1; d2], y, m, d. auto 12.
Qed.

Lemma Birthday_setter_Return (s : str) (b : Birthday) :
  Birthday_setter s = Return b <-> Date.strptime s = Return (Birthday_value b).
Proof.
  unfold Birthday_setter. destruct (Date.strptime s) as [dt|e] eqn:E.
  - destruct b as [v]. cbn [Birthday_value]. split; intros H; congruence.
  - destruct e; split; discriminate.
Qed.

Lemma Birthday_setter_Raise (s : str) :
  (forall b, Birthday_setter s <> Return b) ->
  Birthday_setter s = Raise Birthday_error.
Proof.
  unfold Birthday_setter. intros H.
  destruct (Date.strptime s) as [dt|e] eqn:E.
  - exfalso. exact (H _ eq_refl).
  - destruct (strptime_raises_ValueError s e E) as [msg ->]. reflexivity.
Qed.

(** A stored birthday is a date of the calendar. *)
Lemma Birthday_setter_valid (s : str) (b : Birthday) :
  Birthday_setter s = Return b -> Date.valid (Birthday_value b) = true.
Proof.
  intros H. apply Birthday_setter_Return in H. apply strptime_iff in H.
  destruct H as [Y [M [D [y [m [d [_ [_ [_ [_ [_ [_ [_ [Hv ->]]]]]]]]]]]]]].
  exact Hv.
Qed.

(** C4, amended.  [Birthday(s)] succeeds exactly when [s] is a year of four
    digits, a dot, a month of one or two digits, a dot and a day of one or
    two digits (or a space and one digit), and the three numbers are a date
    of the calendar, the year being at least 1; the value stored is that
    date.  Every other string is rejected with the validation error.  A
    stored date of the year 1000 or later is rendered as YYYY.MM.DD with the
    month and the day padded to two digits, and the rendering reads back as
    the same date.  So ["2024.02.29"] is accepted and ["2023.02.29"],
    ["2024.02.30"] are rejected. *)
Theorem Birthday_accepts_iff (s : str) :
  (forall b,
     Birthday_setter s = Return b <->
     exists Y M D y m d,
       s = Y ++ "."%char :: M ++ "."%char :: D
       /\ year_text Y = true
       /\ one_or_two_digits M = true
       /\ (one_or_two_digits D = true \/ space_and_digit D = true)
       /\ Str.to_int Y = Some y /\ Str.to_int M = Some m
       /\ Str.to_int D = Some d
       /\ Date.valid (Date.mk_date y m d) = true
       /\ b = mk_Birthday (Date.mk_date y m d))
  /\ ((forall b, Birthday_setter s <> Return b) ->
      Birthday_setter s = Raise Birthday_error)
  /\ (forall b,
        Birthday_setter s = Return b ->
        (1000 <= Date.year (Birthday_value b))%Z ->
        strict_format (Birthday_str b) = true
        /\ Birthday_setter (Birthday_str b) = Return b)
  /\ Birthday_setter leap_day_text
     = Return (mk_Birthday (Date.mk_date 2024 2 29))
  /\ Birthday_setter (lit "2023.02.29") = Raise Birthday_error
  /\ Birthday_setter (lit "2024.02.30") = Raise Birthday_error.
Proof.
  assert (Hiff : forall b,
     Birthday_setter s = Return b <->
     exists Y M D y m d,
       s = Y ++ "."%char :: M ++ "."%char :: D
       /\ year_text Y = true
       /\ one_or_two_digits M = true
       /\ (one_or_two_digits D = true \/ space_and_digit D = true)
       /\ Str.to_int Y = Some y /\ Str.to_int M = Some m
       /\ Str.to_int D = Some d
       /\ Date.valid (Date.mk_date y m d) = true
       /\ b = mk_Birthday (Date.mk_date y m d)).
  { intros b. rewrite Birthday_setter_Return, strptime_iff.
    split; intros [Y [M [D [y [m [d H]]]]]]; exists Y, M, D, y, m, d;
      destruct H as [E [HY [HM [HD [Ey [Em [Ed [Hv Hb]]]]]]]];
      repeat (split; [assumption|]).
    - destruct b as [v]. cbn [Birthday_value] in Hb. congruence.
    - subst b. reflexivity. }
  split; [exact Hiff|].
  split; [apply Birthday_setter_Raise|].
  split; [|repeat split; reflexivity].
  intros b Hb Hy.
  destruct (proj1 (Hiff b) Hb)
    as [Y [M [D [y [m [d [_ [_ [_ [_ [_ [_ [_ [Hv ->]]]]]]]]]]]]]].
  cbn [Birthday_value] in Hy. unfold Birthday_str. cbn [Birthday_value].
  destruct (strftime_strptime (Date.mk_date y m d) Hv Hy) as [Hs Hp].
  split; [exact Hs|].
  apply Birthday_setter_Return. exact Hp.
Qed.

(** The theorem at ["2024.2.9"]: it is accepted as 9 February 2024, which is
    rendered as ["2024.02.09"]. *)
Lemma Birthday_accepts_iff_witness :
  Birthday_setter short_date_text = Return (mk_Birthday (Date.mk_date 2024 2 9))
  /\ strict_format (Birthday_str (mk_Birthday (Date.mk_date 2024 2 9))) = true
  /\ Birthday_setter (Birthday_str (mk_Birthday (Date.mk_date 2024 2 9)))
     = Return (mk_Birthday (Date.mk_date 2024 2 9)).
Proof.
  split; [reflexivity|].
  apply (proj1 (proj2 (proj2 (Birthday_accepts_iff short_date_text)))).
  - reflexivity.
  - cbn. lia.
Defined.

(** C4 as stated fails: ["2024.2.9"] is not of the form YYYY.MM.DD, and
    [Birthday] accepts it. *)
Lemma Birthday_short_form_counterexample :
  ~ ((exists b, Birthday_setter short_date_text = Return b)
     <-> strict_format short_date_text = true).
Proof.
  intros [H _].
  assert (E : strict_format short_date_text = true).
  { apply H. eexists. reflexivity. }
  vm_compute in E. discriminate E.
Qed.

Section Calendar.

Local Open Scope Z_scope.

(** ** The calendar *)

Lemma is_leap_cases (y : Z) :
  Date.is_leap y = true \/ Date.is_leap y = false.
Proof. destruct (Date.is_leap y); auto. Qed.

Lemma days_before_year_succ (y : Z) :
  Date.days_before_year (y + 1)
  = Date.days_before_year y + 365 + (if Date.is_leap y then 1 else 0).
Proof.
  unfold Date.days_before_year, Date.is_leap. cbn zeta.
  replace (y + 1 - 1) with y by lia.
  destruct (Z.eqb_spec (y mod 4) 0), (Z.eqb_spec (y mod 100) 0),
    (Z.eqb_spec (y mod 400) 0); cbn [andb orb negb]; Z.div_mod_to_equations; lia.
Qed.

Lemma days_before_year_mono (y y' : Z) :
  y <= y' -> Date.days_before_year y <= Date.days_before_year y'.
Proof.
  unfold Date.days_before_year. cbn zeta. intros H. Z.div_mod_to_equations. lia.
Qed.

Lemma month_cases (m : Z) :
  1 <= m <= 12 ->
  m = 1 \/ m = 2 \/ m = 3 \/ m = 4 \/ m = 5 \/ m = 6 \/ m = 7 \/ m = 8
  \/ m = 9 \/ m = 10 \/ m = 11 \/ m = 12.
Proof. lia. Qed.

Lemma valid_fields (d : Date.date) :
  Date.valid d = true <->
  1 <= Date.year d <= 9999 /\ 1 <= Date.month d <= 12
  /\ 1 <= Date.day d <= Date.days_in_month (Date.year d) (Date.month d).
Proof.
  unfold Date.valid, Date.MINYEAR, Date.MAXYEAR.
  rewrite !andb_true_iff, !Z.leb_le. tauto.
Qed.

Lemma toordinal_day_of_year (d : Date.date) :
  Date.toordinal d = Date.days_before_year (Date.year d) + day_of_year d.
Proof. unfold Date.toordinal, Date.ymd_to_ord, day_of_year. lia. Qed.

(** Splits on the month of a date and on whether its year is a leap year,
    and computes the tables. *)
Ltac tables :=
  unfold Date.days_before_month, Date.days_in_month in *;
  repeat match goal with
    | |- context [nth (Z.to_nat ?k) ?T 0] =>
        let v := eval vm_compute in (nth (Z.to_nat k) T 0) in
        change (nth (Z.to_nat k) T 0) with v
    | H : context [nth (Z.to_nat ?k) ?T 0] |- _ =>
        let v := eval vm_compute in (nth (Z.to_nat k) T 0) in
        change (nth (Z.to_nat k) T 0) with v in H
    end;
  cbn [Z.ltb Z.eqb Z.compare Pos.compare Pos.compare_cont Pos.eqb andb] in *.

Ltac month_tables y m Hm :=
  let L := fresh "L" in
  destruct (Date.is_leap y) eqn:L;
  destruct (month_cases m Hm) as
    [->|[->|[->|[->|[->|[->|[->|[->|[->|[->|[->| ->]]]]]]]]]]];
  unfold Date.days_before_month, Date.days_in_month in *;
  rewrite ?L in *; tables.

Lemma day_of_year_bounds (d : Date.date) :
  Date.valid d = true ->
  1 <= day_of_year d
       <= 365 + (if Date.is_leap (Date.year d) then 1 else 0).
Proof.
  rewrite valid_fields. destruct d as [y m dd]. unfold day_of_year.
  cbn [Date.year Date.month Date.day]. intros [Hy [Hm Hd]].
  month_tables y m Hm; lia.
Qed.

Lemma day_of_year_lt (y ma da mb db : Z) :
  Date.valid (Date.mk_date y ma da) = true ->
  Date.valid (Date.mk_date y mb db) = true ->
  ma < mb ->
  day_of_year (Date.mk_date y ma da) < day_of_year (Date.mk_date y mb db).
Proof.
  rewrite !valid_fields. unfold day_of_year.
  cbn [Date.year Date.month Date.day]. intros [_ [Ha Hda]] [_ [Hb Hdb]] Hlt.
  destruct (Date.is_leap y) eqn:L;
  destruct (month_cases ma Ha) as
    [->|[->|[->|[->|[->|[->|[->|[->|[->|[->|[->| ->]]]]]]]]]]];
  destruct (month_cases mb Hb) as
    [->|[->|[->|[->|[->|[->|[->|[->|[->|[->|[->| ->]]]]]]]]]]];
  try lia;
  unfold Date.days_before_month, Date.days_in_month in *;
  rewrite ?L in *; tables; lia.
Qed.

(** The ordinal grows with the date. *)
Lemma toordinal_lt (a b : Date.date) :
  Date.valid a = true -> Date.valid b = true ->
  Date.ltb a b = true -> Date.toordinal a < Date.toordinal b.
Proof.
  intros Ha Hb. rewrite !toordinal_day_of_year.
  pose proof (day_of_year_bounds a Ha) as Ba.
  pose proof (day_of_year_bounds b Hb) as Bb.
  unfold Date.ltb.
  repeat (rewrite orb_true_iff || rewrite andb_true_iff).
  rewrite !Z.ltb_lt, !Z.eqb_eq.
  intros [Hy|[Hy [Hm|[Hm Hd]]]].
  - pose proof (days_before_year_succ (Date.year a)) as S.
    pose proof (days_before_year_mono (Date.year a + 1) (Date.year b)
                  ltac:(lia)) as M.
    lia.
  - destruct a as [ya ma da], b as [yb mb db].
    cbn [Date.year Date.month Date.day] in *. subst yb.
    pose proof (day_of_year_lt ya ma da mb db Ha Hb Hm). lia.
  - destruct a as [ya ma da], b as [yb mb db].
    cbn [Date.year Date.month Date.day] in *. subst yb mb.
    unfold day_of_year. cbn [Date.year Date.month Date.day]. lia.
Qed.

Lemma Date_eqb_eq (a b : Date.date) : Date.eqb a b = true <-> a = b.
Proof.
  unfold Date.eqb. rewrite !andb_true_iff, !Z.eqb_eq.
  destruct a, b; cbn [Date.year Date.month Date.day].
  split; [intros [[-> ->] ->]; reflexivity | intros H; inversion H; auto].
Qed.

Lemma date_trichotomy (a b : Date.date) :
  Date.ltb a b = true \/ a = b \/ Date.ltb b a = true.
Proof.
  unfold Date.ltb.
  repeat (rewrite orb_true_iff || rewrite andb_true_iff).
  rewrite !Z.ltb_lt, !Z.eqb_eq.
  destruct a as [ya ma da], b as [yb mb db].
  cbn [Date.year Date.month Date.day].
  destruct (Z.lt_trichotomy ya yb) as [H|[H|H]]; [lia| |lia].
  destruct (Z.lt_trichotomy ma mb) as [H'|[H'|H']]; [lia| |lia].
  destruct (Z.lt_trichotomy da db) as [H''|[H''|H'']]; [lia| |lia].
  right. left. congruence.
Qed.

Lemma Date_ltb_toordinal (a b : Date.date) :
  Date.valid a = true -> Date.valid b = true ->
  Date.ltb a b = true <-> Date.toordinal a < Date.toordinal b.
Proof.
  intros Ha Hb. split; [apply toordinal_lt; assumption|].
  intros H. destruct (date_trichotomy a b) as [L|[E|L]]; [exact L| |].
  - subst b. lia.
  - apply toordinal_lt in L; try assumption. lia.
Qed.

Lemma Date_leb_toordinal (a b : Date.date) :
  Date.valid a = true -> Date.valid b = true ->
  Date.leb a b = true <-> Date.toordinal a <= Date.toordinal b.
Proof.
  intros Ha Hb. unfold Date.leb. rewrite orb_true_iff, Date_eqb_eq.
  rewrite (Date_ltb_toordinal a b Ha Hb). split.
  - intros [H| ->]; lia.
  - intros H. destruct (date_trichotomy a b) as [L|[E|L]].
    + left. now apply Date_ltb_toordinal.
    + right. exact E.
    + apply toordinal_lt in L; try assumption. lia.
Qed.

Lemma toordinal_range (d : Date.date) :
  Date.valid d = true -> 1 <= Date.toordinal d <= Date.MAXORDINAL.
Proof.
  intros Hv. rewrite toordinal_day_of_year.
  pose proof (day_of_year_bounds d Hv) as B.
  apply valid_fields in Hv. destruct Hv as [Hy _].
  pose proof (days_before_year_mono 1 (Date.year d) ltac:(lia)) as M1.
  pose proof (days_before_year_succ (Date.year d)) as S.
  pose proof (days_before_year_mono (Date.year d + 1) 10000 ltac:(lia)) as M2.
  change (Date.days_before_year 1) with 0 in M1.
  change (Date.days_before_year 10000) with 3652059 in M2.
  unfold Date.MAXORDINAL. lia.
Qed.

(** ** The date of an ordinal *)

Lemma month_and_day_ok_all :
  forallb (fun n => month_and_day_ok false n && month_and_day_ok true n)
          (map Z.of_nat (seq 0 365)) = true.
Proof. vm_compute. reflexivity. Qed.

Lemma days_in_month_flag (y m : Z) :
  Date.days_in_month y m
  = nth (Z.to_nat m) Date.DAYS_IN_MONTH 0
    + (if (m =? 2) && Date.is_leap y then 1 else 0).
Proof.
  unfold Date.days_in_month. destruct (Z.eqb_spec m 2) as [->|_].
  - destruct (Date.is_leap y); reflexivity.
  - cbn [andb]. lia.
Qed.

Lemma month_and_day_correct (y n : Z) :
  0 <= n < 365 ->
  let (m, d) := Date.month_and_day n (Date.is_leap y) in
  1 <= m <= 12 /\ 1 <= d <= Date.days_in_month y m
  /\ Date.days_before_month y m + d = n + 1.
Proof.
  intros Hn.
  assert (Hin : In n (map Z.of_nat (seq 0 365))).
  { apply in_map_iff. exists (Z.to_nat n). split; [lia|].
    apply in_seq. lia. }
  pose proof (proj1 (forallb_forall _ _) month_and_day_ok_all n Hin) as Hok.
  cbv beta in Hok. apply andb_true_iff in Hok. destruct Hok as [Hf Ht].
  unfold month_and_day_ok in Hf, Ht.
  destruct (Date.is_leap y) eqn:L.
  - destruct (Date.month_and_day n true) as [m d].
    rewrite !andb_true_iff, !Z.leb_le, Z.eqb_eq in Ht.
    rewrite days_in_month_flag, L. unfold Date.days_before_month.
    rewrite L. lia.
  - destruct (Date.month_and_day n false) as [m d].
    rewrite !andb_true_iff, !Z.leb_le, Z.eqb_eq in Hf.
    rewrite days_in_month_flag, L. unfold Date.days_before_month.
    rewrite L. lia.
Qed.

(** The days before a year, by the cycles of 400, 100 and 4 years and the
    single years that lead to it; and whether it is a leap year. *)
Lemma days_before_year_cycles (a b c d : Z) :
  0 <= a -> 0 <= b <= 3 -> 0 <= c <= 24 -> 0 <= d <= 3 ->
  Date.days_before_year (a * 400 + 1 + b * 100 + c * 4 + d)
  = 146097 * a + 36524 * b + 1461 * c + 365 * d.
Proof.
  intros Ha Hb Hc Hd. unfold Date.days_before_year. cbv zeta.
  Z.div_mod_to_equations. lia.
Qed.

Lemma is_leap_cycles (a b c d : Z) :
  0 <= a -> 0 <= b <= 3 -> 0 <= c <= 24 -> 0 <= d <= 3 ->
  Date.is_leap (a * 400 + 1 + b * 100 + c * 4 + d)
  = (d =? 3) && (negb (c =? 24) || (b =? 3)).
Proof.
  intros Ha Hb Hc Hd. unfold Date.is_leap.
  destruct (Z.eqb_spec ((a * 400 + 1 + b * 100 + c * 4 + d) mod 4) 0),
    (Z.eqb_spec ((a * 400 + 1 + b * 100 + c * 4 + d) mod 100) 0),
    (Z.eqb_spec ((a * 400 + 1 + b * 100 + c * 4 + d) mod 400) 0),
    (Z.eqb_spec d 3), (Z.eqb_spec c 24), (Z.eqb_spec b 3);
    cbn [andb orb negb]; try reflexivity; exfalso;
    Z.div_mod_to_equations; lia.
Qed.

Lemma last_day_of_cycle (y : Z) :
  1 <= y <= 9999 -> Date.is_leap y = true ->
  Date.valid (Date.mk_date y 12 31) = true
  /\ Date.toordinal (Date.mk_date y 12 31) = Date.days_before_year y + 366.
Proof.
  intros Hy L. split.
  - apply valid_fields. cbn [Date.year Date.month Date.day].
    change (Date.days_in_month y 12) with 31. lia.
  - unfold Date.toordinal, Date.ymd_to_ord, Date.days_before_month.
    cbn [Date.year Date.month Date.day]. rewrite L.
    change (nth (Z.to_nat 12) Date.DAYS_BEFORE_MONTH 0) with 334.
    cbn [Z.ltb Z.compare Pos.compare Pos.compare_cont andb]. lia.
Qed.

(** [ord_to_ymd] is the inverse of [toordinal] on the ordinals of the
    calendar. *)
Lemma ord_to_ymd_correct (n : Z) :
  1 <= n <= Date.MAXORDINAL ->
  Date.valid (Date.ord_to_ymd n) = true
  /\ Date.toordinal (Date.ord_to_ymd n) = n.
Proof.
  intros Hn. unfold Date.MAXORDINAL in Hn. unfold Date.ord_to_ymd.
  cbv zeta. unfold Date.DI400Y, Date.DI100Y, Date.DI4Y.
  set (n0 := n - 1).
  set (q1 := n0 / 146097). set (r1 := n0 mod 146097).
  set (q2 := r1 / 36524). set (r2 := r1 mod 36524).
  set (q3 := r2 / 1461). set (r3 := r2 mod 1461).
  set (q4 := r3 / 365). set (r4 := r3 mod 365).
  assert (E1 : n0 = 146097 * q1 + r1 /\ 0 <= r1 < 146097)
    by (unfold q1, r1; Z.div_mod_to_equations; lia).
  assert (E2 : r1 = 36524 * q2 + r2 /\ 0 <= r2 < 36524)
    by (unfold q2, r2; Z.div_mod_to_equations; lia).
  assert (E3 : r2 = 1461 * q3 + r3 /\ 0 <= r3 < 1461)
    by (unfold q3, r3; Z.div_mod_to_equations; lia).
  assert (E4 : r3 = 365 * q4 + r4 /\ 0 <= r4 < 365)
    by (unfold q4, r4; Z.div_mod_to_equations; lia).
  clearbody q1 r1 q2 r2 q3 r3 q4 r4.
  assert (Hq : 0 <= q1 <= 24 /\ 0 <= q2 <= 4 /\ 0 <= q3 <= 24 /\ 0 <= q4 <= 4)
    by lia.
  destruct (Z.eqb_spec q4 4) as [H4|H4]; [|destruct (Z.eqb_spec q2 4) as [H2|H2]];
    cbn [orb].
  - (* the last day of a 4-year cycle *)
    assert (Hb : q2 <= 3 /\ q3 <= 23) by lia.
    replace (q1 * 400 + 1 + q2 * 100 + q3 * 4 + q4 - 1)
      with (q1 * 400 + 1 + q2 * 100 + q3 * 4 + 3) by lia.
    pose proof (days_before_year_cycles q1 q2 q3 3
                  ltac:(lia) ltac:(lia) ltac:(lia) ltac:(lia)) as D.
    pose proof (is_leap_cycles q1 q2 q3 3
                  ltac:(lia) ltac:(lia) ltac:(lia) ltac:(lia)) as L.
    assert (L' : Date.is_leap (q1 * 400 + 1 + q2 * 100 + q3 * 4 + 3) = true).
    { rewrite L. destruct (Z.eqb_spec q3 24); [lia|reflexivity]. }
    destruct (last_day_of_cycle (q1 * 400 + 1 + q2 * 100 + q3 * 4 + 3)
                ltac:(lia) L') as [V O].
    split; [exact V|]. rewrite O, D. lia.
  - (* the last day of a 400-year cycle *)
    replace (q1 * 400 + 1 + q2 * 100 + q3 * 4 + q4 - 1)
      with (q1 * 400 + 1 + 3 * 100 + 24 * 4 + 3) by lia.
    pose proof (days_before_year_cycles q1 3 24 3
                  ltac:(lia) ltac:(lia) ltac:(lia) ltac:(lia)) as D.
    pose proof (is_leap_cycles q1 3 24 3
                  ltac:(lia) ltac:(lia) ltac:(lia) ltac:(lia)) as L.
    destruct (last_day_of_cycle (q1 * 400 + 1 + 3 * 100 + 24 * 4 + 3)
                ltac:(lia) L) as [V O].
    split; [exact V|]. rewrite O, D. lia.
  - pose proof (days_before_year_cycles q1 q2 q3 q4
                  ltac:(lia) ltac:(lia) ltac:(lia) ltac:(lia)) as D.
    rewrite <- (is_leap_cycles q1 q2 q3 q4) by lia.
    set (y := q1 * 400 + 1 + q2 * 100 + q3 * 4 + q4) in *.
    pose proof (month_and_day_correct y r4 ltac:(lia)) as Hmd.
    destruct (Date.month_and_day r4 (Date.is_leap y)) as [m d].
    destruct Hmd as [Hm [Hd Ho]].
    split.
    + assert (Hy : 1 <= y <= 9999) by (unfold y; lia).
      apply valid_fields. cbn [Date.year Date.month Date.day]. lia.
    + unfold Date.toordinal, Date.ymd_to_ord.
      cbn [Date.year Date.month Date.day]. lia.
Qed.

(** [d + timedelta(days=n)] is the date [n] days away when that date is in
    the calendar. *)
Lemma add_days_Return (d : Date.date) (n : Z) :
  Date.valid d = true ->
  1 <= Date.toordinal d + n <= Date.MAXORDINAL ->
  exists d',
    Date.add_days d n = Return d'
    /\ Date.valid d' = true
    /\ Date.toordinal d' = Date.toordinal d + n.
Proof.
  intros Hv Hr. unfold Date.add_days. cbv zeta.
  destruct (ord_to_ymd_correct _ Hr) as [V O].
  assert (E : ((1 <=? Date.toordinal d + n)
               && (Date.toordinal d + n <=? Date.MAXORDINAL)) = true).
  { apply andb_true_iff. rewrite !Z.leb_le. exact Hr. }
  rewrite E. eexists. split; [reflexivity|]. split; assumption.
Qed.

Lemma toordinal_inj (a b : Date.date) :
  Date.valid a = true -> Date.valid b = true ->
  Date.toordinal a = Date.toordinal b -> a = b.
Proof.
  intros Ha Hb E. destruct (date_trichotomy a b) as [L|[H|L]];
    [|exact H|]; apply toordinal_lt in L; try assumption; lia.
Qed.

(** ** [days_to_birthday] away from 29 February *)

Lemma days_in_month_other_year (y y' m : Z) :
  m <> 2 -> Date.days_in_month y' m = Date.days_in_month y m.
Proof.
  intros H. unfold Date.days_in_month.
  destruct (Z.eqb_spec m 2); [contradiction|reflexivity].
Qed.

Lemma days_in_february (y : Z) :
  Date.days_in_month y 2 = if Date.is_leap y then 29 else 28.
Proof.
  unfold Date.days_in_month. destruct (Date.is_leap y); reflexivity.
Qed.

Lemma anniversary_valid (y : Z) (b : Date.date) :
  Date.valid b = true -> regular_day b -> 1 <= y <= 9999 ->
  Date.valid (anniversary y b) = true.
Proof.
  rewrite !valid_fields. unfold regular_day, anniversary.
  cbn [Date.year Date.month Date.day]. intros [Hy [Hm Hd]] Hr Hy'.
  split; [exact Hy'|]. split; [exact Hm|].
  destruct (Z.eq_dec (Date.month b) 2) as [E|E].
  - rewrite E in *. rewrite days_in_february in *.
    destruct (Date.is_leap y), (Date.is_leap (Date.year b)); lia.
  - rewrite (days_in_month_other_year (Date.year b) y _ E). exact Hd.
Qed.

Lemma replace_year_regular (y : Z) (b : Date.date) :
  Date.valid b = true -> regular_day b -> 1 <= y <= 9999 ->
  Date.replace_year b y = Return (anniversary y b).
Proof.
  intros Hv Hr Hy. unfold Date.replace_year.
  pose proof (anniversary_valid y b Hv Hr Hy) as V.
  unfold Date.new. unfold Date.valid, anniversary in V.
  cbn [Date.year Date.month Date.day] in V.
  rewrite !andb_true_iff in V.
  destruct V as [[[[[V1 V2] V3] V4] V5] V6].
  rewrite V1, V2, V3, V4, V5, V6. reflexivity.
Qed.

Lemma anniversary_gap (y : Z) (b : Date.date) :
  Date.valid (anniversary y b) = true ->
  Date.valid (anniversary (y + 1) b) = true ->
  Date.toordinal (anniversary y b) + 365
  <= Date.toordinal (anniversary (y + 1) b)
  <= Date.toordinal (anniversary y b) + 366.
Proof.
  rewrite !valid_fields. unfold anniversary, Date.toordinal, Date.ymd_to_ord.
  cbn [Date.year Date.month Date.day].
  intros [_ [Hm Hd]] [_ [_ Hd']].
  rewrite (days_before_year_succ y).
  unfold Date.is_leap at 1.
  destruct (Date.is_leap y) eqn:L, (Date.is_leap (y + 1)) eqn:L'.
  - exfalso. unfold Date.is_leap in L, L'.
    rewrite !andb_true_iff in L, L'. rewrite !Z.eqb_eq in L, L'.
    Z.div_mod_to_equations. lia.
  - destruct (month_cases _ Hm) as
      [E|[E|[E|[E|[E|[E|[E|[E|[E|[E|[E|E]]]]]]]]]]];
      rewrite E in *; unfold Date.days_before_month, Date.days_in_month in *;
      rewrite ?L, ?L' in *; tables; fold (Date.is_leap y); rewrite L; lia.
  - destruct (month_cases _ Hm) as
      [E|[E|[E|[E|[E|[E|[E|[E|[E|[E|[E|E]]]]]]]]]]];
      rewrite E in *; unfold Date.days_before_month, Date.days_in_month in *;
      rewrite ?L, ?L' in *; tables; fold (Date.is_leap y); rewrite L; lia.
  - destruct (month_cases _ Hm) as
      [E|[E|[E|[E|[E|[E|[E|[E|[E|[E|[E|E]]]]]]]]]]];
      rewrite E in *; unfold Date.days_before_month, Date.days_in_month in *;
      rewrite ?L, ?L' in *; tables; fold (Date.is_leap y); rewrite L; lia.
Qed.

Lemma eqb_anniversary (today b : Date.date) :
  Date.eqb today (anniversary (Date.year today) b) = true
  <-> Date.month b = Date.month today /\ Date.day b = Date.day today.
Proof.
  unfold Date.eqb, anniversary. cbn [Date.year Date.month Date.day].
  rewrite !andb_true_iff, !Z.eqb_eq. intuition congruence.
Qed.

Lemma yesterday_exists (today : Date.date) :
  Date.valid today = true -> 2 <= Date.year today ->
  exists yesterday,
    Date.add_days today (-1) = Return yesterday
    /\ Date.valid yesterday = true
    /\ Date.toordinal yesterday = Date.toordinal today - 1.
Proof.
  intros Hv Hy.
  destruct (add_days_Return today (-1) Hv) as [d [E [V O]]].
  - pose proof (toordinal_range today Hv) as R.
    rewrite toordinal_day_of_year in *.
    pose proof (day_of_year_bounds today Hv) as B.
    pose proof (days_before_year_mono 2 (Date.year today) Hy) as M.
    change (Date.days_before_year 2) with 365 in M. lia.
  - exists d. repeat split; try assumption; lia.
Qed.

Lemma Date_leb_yesterday (today yesterday a : Date.date) :
  Date.valid today = true -> Date.valid yesterday = true ->
  Date.valid a = true ->
  Date.toordinal yesterday = Date.toordinal today - 1 ->
  Date.leb a yesterday = Date.ltb a today.
Proof.
  intros Ht Hy Ha O.
  destruct (Date.ltb a today) eqn:L.
  - apply Date_leb_toordinal; try assumption.
    apply Date_ltb_toordinal in L; try assumption. lia.
  - destruct (Date.leb a yesterday) eqn:L'; [|reflexivity].
    apply Date_leb_toordinal in L'; try assumption.
    assert (Date.ltb a today = true)
      by (apply Date_ltb_toordinal; try assumption; lia).
    congruence.
Qed.

(** [days_to_birthday] when the birthday is not 29 February, by the place of
    this year's anniversary. *)
Lemma days_to_birthday_cases (today b : Date.date) (self : Record_) :
  Date.valid today = true -> 2 <= Date.year today <= 9998 ->
  birthday self = Some (mk_Birthday b) ->
  Date.valid b = true -> regular_day b ->
  days_to_birthday today self
  = if Date.eqb today (anniversary (Date.year today) b)
    then Return BirthdayToday
    else if Date.ltb (anniversary (Date.year today) b) today
         then Return (Days (Date.toordinal (anniversary (Date.year today + 1) b)
                            - Date.toordinal today))
         else Return (Days (Date.toordinal (anniversary (Date.year today) b)
                            - Date.toordinal today)).
Proof.
  intros Ht Hy Hb Hv Hr. unfold days_to_birthday. rewrite Hb.
  cbn [Birthday_value].
  rewrite (replace_year_regular (Date.year today) b Hv Hr) by lia.
  cbn [res_bind].
  destruct (Date.eqb today (anniversary (Date.year today) b)); [reflexivity|].
  destruct (yesterday_exists today Ht ltac:(lia)) as [yesterday [E [V O]]].
  rewrite E. cbn [res_bind].
  pose proof (anniversary_valid (Date.year today) b Hv Hr ltac:(lia)) as Va.
  rewrite (Date_leb_yesterday today yesterday _ Ht V Va O).
  destruct (Date.ltb (anniversary (Date.year today) b) today).
  - assert (R : regular_day (anniversary (Date.year today) b))
      by exact Hr.
    rewrite (replace_year_regular (Date.year today + 1) _ Va R) by lia.
    reflexivity.
  - reflexivity.
Qed.

Lemma Date_ltb_neq (a b : Date.date) :
  Date.ltb a b = true -> Date.eqb b a = false.
Proof.
  unfold Date.ltb, Date.eqb.
  repeat (rewrite orb_true_iff || rewrite andb_true_iff).
  rewrite !Z.ltb_lt, !Z.eqb_eq. intros H.
  destruct (Z.eqb_spec (Date.year b) (Date.year a)),
    (Z.eqb_spec (Date.month b) (Date.month a)),
    (Z.eqb_spec (Date.day b) (Date.day a)); cbn [andb]; try reflexivity; lia.
Qed.

Lemma Date_ltb_asym (a b : Date.date) :
  Date.ltb a b = true -> Date.ltb b a = false.
Proof.
  unfold Date.ltb.
  repeat (rewrite orb_true_iff || rewrite andb_true_iff).
  rewrite !Z.ltb_lt, !Z.eqb_eq. intros H.
  destruct (Z.ltb_spec (Date.year b) (Date.year a)),
    (Z.eqb_spec (Date.year b) (Date.year a)),
    (Z.ltb_spec (Date.month b) (Date.month a)),
    (Z.eqb_spec (Date.month b) (Date.month a)),
    (Z.ltb_spec (Date.day b) (Date.day a));
    cbn [andb orb]; try reflexivity; lia.
Qed.

Lemma days_to_birthday_no_birthday (today : Date.date) (self : Record_) :
  birthday self = None -> days_to_birthday today self = Return NoBirthday.
Proof. intros H. unfold days_to_birthday. rewrite H. reflexivity. Qed.

(** [days_to_birthday] on every birthday but 29 February, [today] being
    between the years 2 and 9998: the today result when month and day are
    today's; the days to next year's anniversary when this year's is before
    today, that is, yesterday or earlier; the days to this year's anniversary
    otherwise; and 1 when the birthday falls tomorrow. *)
Lemma days_to_birthday_regular (today b : Date.date) (self : Record_) :
  Date.valid today = true -> 2 <= Date.year today <= 9998 ->
  birthday self = Some (mk_Birthday b) ->
  Date.valid b = true -> regular_day b ->
  (Date.month b = Date.month today /\ Date.day b = Date.day today ->
   days_to_birthday today self = Return BirthdayToday)
  /\ (Date.ltb (anniversary (Date.year today) b) today = true ->
      days_to_birthday today self
      = Return (Days (Date.toordinal (anniversary (Date.year today + 1) b)
                      - Date.toordinal today)))
  /\ (Date.ltb today (anniversary (Date.year today) b) = true ->
      days_to_birthday today self
      = Return (Days (Date.toordinal (anniversary (Date.year today) b)
                      - Date.toordinal today)))
  /\ (forall tomorrow,
        Date.add_days today 1 = Return tomorrow ->
        Date.month b = Date.month tomorrow ->
        Date.day b = Date.day tomorrow ->
        days_to_birthday today self = Return (Days 1)).
Proof.
  intros Ht Hy Hb Hv Hr.
  rewrite (days_to_birthday_cases today b self Ht Hy Hb Hv Hr).
  pose proof (anniversary_valid (Date.year today) b Hv Hr ltac:(lia)) as Va.
  pose proof (anniversary_valid (Date.year today + 1) b Hv Hr ltac:(lia))
    as Va'.
  split; [|split; [|split]].
  - intros H. apply eqb_anniversary in H. rewrite H. reflexivity.
  - intros L. rewrite (Date_ltb_neq _ _ L), L. reflexivity.
  - intros L. rewrite (Date_ltb_asym _ _ L).
    destruct (Date.eqb today (anniversary (Date.year today) b)) eqn:E;
      [|reflexivity].
    apply Date_eqb_eq in E. rewrite <- E in L.
    apply Date_ltb_toordinal in L; try assumption. lia.
  - intros tomorrow Ea Em Ed.
    pose proof (toordinal_range today Ht) as Rt.
    assert (Hr1 : 1 <= Date.toordinal today + 1 <= Date.MAXORDINAL).
    { rewrite toordinal_day_of_year in *.
      pose proof (day_of_year_bounds today Ht) as B.
      pose proof (days_before_year_succ (Date.year today)) as S.
      pose proof (days_before_year_mono (Date.year today + 1) 9999
                    ltac:(lia)) as M.
      change (Date.days_before_year 9999) with 3651694 in M.
      unfold Date.MAXORDINAL. lia. }
    destruct (add_days_Return today 1 Ht Hr1) as [t' [Ea' [Vt Ot]]].
    rewrite Ea in Ea'. injection Ea' as <-.
    (* the year of tomorrow is this year or the next *)
    assert (Hyear : Date.year tomorrow = Date.year today
                    \/ Date.year tomorrow = Date.year today + 1).
    { pose proof (day_of_year_bounds today Ht) as Bt.
      pose proof (day_of_year_bounds tomorrow Vt) as Bm.
      rewrite !toordinal_day_of_year in Ot.
      destruct (Z.lt_trichotomy (Date.year tomorrow) (Date.year today))
        as [H|[H|H]]; [|left; exact H|].
      - pose proof (days_before_year_succ (Date.year tomorrow)) as S.
        pose proof (days_before_year_mono (Date.year tomorrow + 1)
                      (Date.year today) ltac:(lia)) as M.
        lia.
      - destruct (Z.eq_dec (Date.year tomorrow) (Date.year today + 1))
          as [H1|H1]; [right; exact H1|].
        pose proof (days_before_year_succ (Date.year today)) as S.
        pose proof (days_before_year_succ (Date.year today + 1)) as S'.
        pose proof (days_before_year_mono (Date.year today + 1 + 1)
                      (Date.year tomorrow) ltac:(lia)) as M.
        destruct (Date.is_leap (Date.year today)),
          (Date.is_leap (Date.year today + 1)); lia. }
    destruct Hyear as [Hs|Hn].
    + assert (Et : anniversary (Date.year today) b = tomorrow).
      { unfold anniversary. rewrite Em, Ed, <- Hs. destruct tomorrow.
        reflexivity. }
      rewrite Et.
      assert (L : Date.ltb today tomorrow = true)
        by (apply Date_ltb_toordinal; try assumption; lia).
      rewrite (Date_ltb_asym _ _ L).
      destruct (Date.eqb today tomorrow) eqn:E.
      * apply Date_eqb_eq in E. rewrite <- E in Ot. lia.
      * rewrite Ot. do 2 f_equal. lia.
    + assert (Et : anniversary (Date.year today + 1) b = tomorrow).
      { unfold anniversary. rewrite Em, Ed, <- Hn. destruct tomorrow.
        reflexivity. }
      pose proof (anniversary_gap (Date.year today) b Va Va') as G.
      rewrite Et in G.
      assert (L : Date.ltb (anniversary (Date.year today) b) today = true)
        by (apply Date_ltb_toordinal; try assumption; lia).
      rewrite (Date_ltb_neq _ _ L), L, Et, Ot. do 2 f_equal. lia.
Qed.

(** The same in the words of the test the code makes: with [yesterday] the
    date [today - timedelta(days=1)], the anniversary moves to next year
    exactly when this year's is [yesterday] or earlier. *)
Lemma days_to_birthday_by_yesterday (today b : Date.date) (self : Record_) :
  Date.valid today = true -> 2 <= Date.year today <= 9998 ->
  birthday self = Some (mk_Birthday b) ->
  Date.valid b = true -> regular_day b ->
  exists yesterday,
    Date.add_days today (-1) = Return yesterday
    /\ Date.toordinal yesterday = Date.toordinal today - 1
    /\ (Date.leb (anniversary (Date.year today) b) yesterday = true ->
        days_to_birthday today self
        = Return (Days (Date.toordinal (anniversary (Date.year today + 1) b)
                        - Date.toordinal today)))
    /\ (Date.leb (anniversary (Date.year today) b) yesterday = false ->
        anniversary (Date.year today) b <> today ->
        days_to_birthday today self
        = Return (Days (Date.toordinal (anniversary (Date.year today) b)
                        - Date.toordinal today))).
Proof.
  intros Ht Hy Hb Hv Hr.
  destruct (yesterday_exists today Ht ltac:(lia)) as [yesterday [E [V O]]].
  pose proof (anniversary_valid (Date.year today) b Hv Hr ltac:(lia)) as Va.
  exists yesterday. split; [exact E|]. split; [exact O|].
  rewrite (Date_leb_yesterday today yesterday _ Ht V Va O).
  rewrite (days_to_birthday_cases today b self Ht Hy Hb Hv Hr).
  split.
  - intros L. rewrite (Date_ltb_neq _ _ L), L. reflexivity.
  - intros L Hne. rewrite L.
    destruct (Date.eqb today (anniversary (Date.year today) b)) eqn:Eq;
      [|reflexivity].
    apply Date_eqb_eq in Eq. congruence.
Qed.

(** C1, at the failing input.  A record whose birthday was set from
    ["2024.02.29"] has a birthday, and on 1 March 2025 [days_to_birthday]
    returns none of its three results: [replace(year=2025)] raises. *)
Theorem days_to_birthday_leap_day_raises :
  add_birthday leap_day_text (Record_init (lit "John"))
  = (Return tt, leap_day_record)
  /\ days_to_birthday march_first_2025 leap_day_record
     = Raise (ValueError (lit "day is out of range for month")).
Proof. split; reflexivity. Qed.

(** ** [birthday_in_given_days] against the rollover rule *)

Lemma next_anniversary_cases (today b : Date.date) :
  Date.valid today = true -> 2 <= Date.year today <= 9998 ->
  Date.valid b = true -> regular_day b ->
  next_anniversary today b
  = Return (if Date.eqb today (anniversary (Date.year today) b)
            then anniversary (Date.year today) b
            else if Date.ltb (anniversary (Date.year today) b) today
                 then anniversary (Date.year today + 1) b
                 else anniversary (Date.year today) b).
Proof.
  intros Ht Hy Hv Hr. unfold next_anniversary.
  rewrite (replace_year_regular (Date.year today) b Hv Hr) by lia.
  cbn [res_bind].
  destruct (Date.eqb today (anniversary (Date.year today) b)); [reflexivity|].
  destruct (yesterday_exists today Ht ltac:(lia)) as [yesterday [E [V O]]].
  rewrite E. cbn [res_bind].
  pose proof (anniversary_valid (Date.year today) b Hv Hr ltac:(lia)) as Va.
  rewrite (Date_leb_yesterday today yesterday _ Ht V Va O).
  destruct (Date.ltb (anniversary (Date.year today) b) today).
  - assert (R : regular_day (anniversary (Date.year today) b))
      by exact Hr.
    rewrite (replace_year_regular (Date.year today + 1) _ Va R) by lia.
    reflexivity.
  - reflexivity.
Qed.

(** On items that are all comparable, the loop lists exactly the records the
    rule puts in the window. *)
Lemma birthday_items_comparable (today date_value : Date.date) (n : Z)
  (items : AddressBook) (acc : list str) :
  Date.valid today = true -> 2 <= Date.year today <= 9998 ->
  Date.add_days today n = Return date_value ->
  Forall (comparable today) items ->
  birthday_items today date_value items acc
  = Return (acc ++ flat_map (expected_lines today n) items).
Proof.
  intros Ht Hy En Hall. revert acc.
  induction Hall as [|[name_ rec] items Hc _ IH]; intros acc;
    cbn [birthday_items flat_map].
  - rewrite app_nil_r. reflexivity.
  - set (tail := flat_map (expected_lines today n) items) in *.
    unfold comparable in Hc. unfold expected_lines. cbn [fst snd] in *.
    destruct (birthday rec) as [[b]|] eqn:Hb; cbn [Birthday_value] in *.
    2: { cbn [res_bind app]. apply IH. }
    destruct Hc as [Hv [Hr Hne]].
    rewrite (replace_year_regular (Date.year today) b Hv Hr) by lia.
    cbn [res_bind].
    destruct (yesterday_exists today Ht ltac:(lia)) as [yesterday [E [V O]]].
    rewrite E. cbn [res_bind].
    pose proof (anniversary_valid (Date.year today) b Hv Hr ltac:(lia)) as Va.
    pose proof (anniversary_valid (Date.year today + 1) b Hv Hr ltac:(lia))
      as Va'.
    unfold within_window.
    rewrite (next_anniversary_cases today b Ht Hy Hv Hr), En.
    cbn [res_bind].
    rewrite (days_to_birthday_cases today b rec Ht Hy Hb Hv Hr).
    assert (R : regular_day (anniversary (Date.year today) b)) by exact Hr.
    pose proof (replace_year_regular (Date.year today + 1) _ Va R
                  ltac:(lia)) as Rn.
    change (anniversary (Date.year today + 1)
              (anniversary (Date.year today) b))
      with (anniversary (Date.year today + 1) b) in Rn.
    destruct (Date.eqb today (anniversary (Date.year today) b)) eqn:Eq.
    + (* the anniversary is today *)
      apply Date_eqb_eq in Eq. rewrite <- Eq.
      assert (L : Date.ltb today yesterday = false).
      { destruct (Date.ltb today yesterday) eqn:L; [|reflexivity].
        apply Date_ltb_toordinal in L; try assumption. lia. }
      rewrite L. cbn [res_bind].
      destruct (Date.leb today today && Date.leb today date_value);
        cbn [res_bind app]; rewrite IH, <- ?app_assoc; reflexivity.
    + destruct (Date.ltb (anniversary (Date.year today) b) today) eqn:Lt.
      * (* before today, and not yesterday: both advance it *)
        assert (L : Date.ltb (anniversary (Date.year today) b) yesterday
                    = true).
        { apply Date_ltb_toordinal; try assumption.
          apply Date_ltb_toordinal in Lt; try assumption. lia. }
        rewrite L, Rn. cbn [res_bind].
        destruct (Date.leb today (anniversary (Date.year today + 1) b)
                  && Date.leb (anniversary (Date.year today + 1) b) date_value);
          cbn [res_bind app]; rewrite IH, <- ?app_assoc; reflexivity.
      * (* after today: neither advances it *)
        assert (L : Date.ltb (anniversary (Date.year today) b) yesterday
                    = false).
        { destruct (Date.ltb (anniversary (Date.year today) b) yesterday)
            eqn:L; [|reflexivity].
          apply Date_ltb_toordinal in L; try assumption.
          assert (Date.ltb (anniversary (Date.year today) b) today = true)
            by (apply Date_ltb_toordinal; try assumption; lia).
          congruence. }
        rewrite L. cbn [res_bind].
        destruct (Date.leb today (anniversary (Date.year today) b)
                  && Date.leb (anniversary (Date.year today) b) date_value);
          cbn [res_bind app]; rewrite IH, <- ?app_assoc; reflexivity.
Qed.

Lemma birthday_in_given_days_comparable (today : Date.date) (n : Z)
  (phone_book : AddressBook) (out : console) :
  Date.valid today = true -> 2 <= Date.year today <= 9998 ->
  0 <= n < 365 ->
  Forall (comparable today) phone_book ->
  birthday_in_given_days today n phone_book out
  = match flat_map (expected_lines today n) phone_book with
    | [] => (Return None, out ++ [no_birthday_message])
    | l => (Return (Some l), out)
    end.
Proof.
  intros Ht Hy Hn Hall.
  assert (Hr : 1 <= Date.toordinal today + n <= Date.MAXORDINAL).
  { pose proof (toordinal_range today Ht) as R.
    rewrite toordinal_day_of_year in *.
    pose proof (day_of_year_bounds today Ht) as B.
    pose proof (days_before_year_succ (Date.year today)) as S.
    pose proof (days_before_year_mono (Date.year today + 1) 9999
                  ltac:(lia)) as M.
    change (Date.days_before_year 9999) with 3651694 in M.
    unfold Date.MAXORDINAL. lia. }
  destruct (add_days_Return today n Ht Hr) as [date_value [En _]].
  unfold birthday_in_given_days, bind, lift. rewrite En.
  rewrite (birthday_items_comparable today date_value n phone_book []
             Ht Hy En Hall).
  cbn [app].
  destruct (flat_map (expected_lines today n) phone_book); reflexivity.
Qed.

(** When this year's anniversary is yesterday, the query never lists the
    record, whatever the number of days, while [days_to_birthday] counts the
    364 or 365 days to next year's anniversary. *)
Lemma birthday_in_given_days_yesterday (today b : Date.date) (n : Z)
  (name_ : str) (rec : Record_) (out : console) :
  Date.valid today = true -> 2 <= Date.year today <= 9998 ->
  0 <= n < 365 ->
  birthday rec = Some (mk_Birthday b) ->
  Date.valid b = true -> regular_day b ->
  Date.toordinal (anniversary (Date.year today) b) = Date.toordinal today - 1 ->
  birthday_in_given_days today n [(name_, rec)] out
  = (Return None, out ++ [no_birthday_message])
  /\ exists k,
       days_to_birthday today rec = Return (Days k) /\ 364 <= k <= 365.
Proof.
  intros Ht Hy Hn Hb Hv Hr Hyes.
  pose proof (anniversary_valid (Date.year today) b Hv Hr ltac:(lia)) as Va.
  pose proof (anniversary_valid (Date.year today + 1) b Hv Hr ltac:(lia))
    as Va'.
  destruct (yesterday_exists today Ht ltac:(lia)) as [yesterday [E [V O]]].
  assert (Ey : anniversary (Date.year today) b = yesterday)
    by (apply toordinal_inj; try assumption; lia).
  split.
  - assert (Hr1 : 1 <= Date.toordinal today + n <= Date.MAXORDINAL).
    { pose proof (toordinal_range today Ht) as R.
      rewrite toordinal_day_of_year in *.
      pose proof (day_of_year_bounds today Ht) as B.
      pose proof (days_before_year_succ (Date.year today)) as S.
      pose proof (days_before_year_mono (Date.year today + 1) 9999
                    ltac:(lia)) as M.
      change (Date.days_before_year 9999) with 3651694 in M.
      unfold Date.MAXORDINAL. lia. }
    destruct (add_days_Return today n Ht Hr1) as [date_value [En _]].
    unfold birthday_in_given_days, bind, lift. rewrite En.
    cbn [birthday_items]. rewrite Hb. cbn [Birthday_value].
    rewrite (replace_year_regular (Date.year today) b Hv Hr) by lia.
    cbn [res_bind]. rewrite E. cbn [res_bind]. rewrite Ey.
    assert (L : Date.ltb yesterday yesterday = false).
    { destruct (Date.ltb yesterday yesterday) eqn:L; [|reflexivity].
      apply Date_ltb_toordinal in L; try assumption. lia. }
    assert (L' : Date.leb today yesterday = false).
    { destruct (Date.leb today yesterday) eqn:L'; [|reflexivity].
      apply Date_leb_toordinal in L'; try assumption. lia. }
    rewrite L. cbn [res_bind]. rewrite L'. reflexivity.
  - rewrite (days_to_birthday_cases today b rec Ht Hy Hb Hv Hr).
    assert (L : Date.ltb (anniversary (Date.year today) b) today = true)
      by (apply Date_ltb_toordinal; try assumption; lia).
    rewrite (Date_ltb_neq _ _ L), L.
    pose proof (anniversary_gap (Date.year today) b Va Va') as G.
    eexists. split; [reflexivity|]. lia.
Qed.

(** C2, at the failing input.  On 2 June 2022 a birthday on 1 June lies 364
    days ahead: [days_to_birthday] says so, and the next anniversary is in
    the window of 364 days.  [birthday_in_given_days 364] leaves the record
    out, because it advances the anniversary only when it is strictly before
    yesterday. *)
Theorem birthday_in_given_days_skips_yesterday :
  days_to_birthday june_second_2022 june_first_record = Return (Days 364)
  /\ next_anniversary june_second_2022 (Date.mk_date 1990 6 1)
     = Return (Date.mk_date 2023 6 1)
  /\ within_window june_second_2022 364 (Date.mk_date 1990 6 1) = Return true
  /\ birthday_in_given_days june_second_2022 364 june_first_book []
     = (Return None, [no_birthday_message]).
Proof. repeat split; vm_compute; reflexivity. Qed.

End Calendar.

(** ** [AddressBook.search] *)

Lemma startswith_iff (p s : str) :
  Str.startswith p s = true <-> exists post, s = p ++ post.
Proof.
  revert s. induction p as [|a p IH]; intros s; cbn [Str.startswith].
  - split; [intros _; exists s; reflexivity | reflexivity].
  - destruct s as [|b s].
    + split; [discriminate | intros [post H]; discriminate H].
    + rewrite andb_true_iff, Ascii.eqb_eq, IH. split.
      * intros [-> [post ->]]. exists post. reflexivity.
      * intros [post H]. inversion H; subst. split; [reflexivity|].
        exists post. reflexivity.
Qed.

(** [sub in s] *)
Lemma contains_iff (sub s : str) :
  Str.contains sub s = true <-> exists pre post, s = pre ++ sub ++ post.
Proof.
  induction s as [|b s IH]; cbn [Str.contains].
  - rewrite orb_false_r, startswith_iff. split.
    + intros [post H]. exists [], post. exact H.
    + intros [[|x pre] [post H]]; [exists post; exact H | discriminate H].
  - rewrite orb_true_iff, startswith_iff, IH. split.
    + intros [[post H]|[pre [post H]]].
      * exists [], post. exact H.
      * exists (b :: pre), post. rewrite H. reflexivity.
    + intros [[|x pre] [post H]].
      * left. exists post. exact H.
      * right. inversion H; subst. exists pre, post. reflexivity.
Qed.

Lemma map_eq_app_inv {A B} (f : A -> B) (l : list A) (u v : list B) :
  map f l = u ++ v -> exists l1 l2, l = l1 ++ l2 /\ map f l1 = u /\ map f l2 = v.
Proof.
  revert l. induction u as [|x u IH]; intros l H.
  - exists [], l. auto.
  - destruct l as [|a l]; [discriminate H|]. cbn in H. inversion H; subst.
    destruct (IH l H2) as [l1 [l2 [-> [E1 E2]]]].
    exists (a :: l1), l2. cbn. rewrite E1. auto.
Qed.

(** The test on the key is a search without regard to case: some substring of
    the key has the same lower-case form as the term. *)
Lemma name_matches_iff (value name_ : str) :
  name_matches value name_ = true <->
  exists pre mid post,
    name_ = pre ++ mid ++ post /\ Str.lower mid = Str.lower value.
Proof.
  unfold name_matches. rewrite contains_iff. unfold Str.lower. split.
  - intros [u [v H]].
    destruct (map_eq_app_inv _ _ _ _ H) as [pre [l2 [-> [E1 E2]]]].
    destruct (map_eq_app_inv _ _ _ _ E2) as [mid [post [-> [E3 E4]]]].
    exists pre, mid, post. auto.
  - intros [pre [mid [post [-> E]]]].
    exists (map Str.lower_char pre), (map Str.lower_char post).
    rewrite !map_app, E. reflexivity.
Qed.

Lemma search_phones_renders (today : Date.date) (value : str) (rec : Record_)
  (s : str) (items : list Phone) (acc : str) :
  Record_str today rec = Return s ->
  search_phones today value rec items acc
  = Return (acc ++ concat (map (fun _ => s)
                             (filter (phone_matches value) items))).
Proof.
  intros Hs. revert acc.
  induction items as [|item items IH]; intros acc;
    cbn [search_phones filter map concat].
  - rewrite app_nil_r. reflexivity.
  - unfold phone_matches at 1.
    destruct (Str.contains value (Phone_value item));
      cbn [map concat]; rewrite ?Hs; cbn [res_bind]; rewrite IH.
    + rewrite <- app_assoc. reflexivity.
    + reflexivity.
Qed.

Lemma search_items_renders (today : Date.date) (value : str)
  (render : Record_ -> str) (items : AddressBook) (acc : str) :
  (forall kv, In kv items -> Record_str today (snd kv) = Return (render (snd kv))) ->
  search_items today value items acc
  = Return (acc ++ concat (flat_map (search_hits value render) items)).
Proof.
  revert acc. induction items as [|[name_ rec] items IH]; intros acc Hr;
    cbn [search_items flat_map concat].
  - rewrite app_nil_r. reflexivity.
  - pose proof (Hr (name_, rec) (or_introl eq_refl)) as Hs. cbn [snd] in Hs.
    assert (Hr' : forall kv, In kv items ->
                    Record_str today (snd kv) = Return (render (snd kv)))
      by (intros kv Hin; apply Hr; right; exact Hin).
    rewrite concat_app. unfold search_hits at 1. cbn [fst snd].
    rewrite concat_app. unfold name_matches.
    destruct (Str.contains (Str.lower value) (Str.lower name_));
      rewrite ?Hs; cbn [res_bind concat app];
      rewrite (search_phones_renders today value rec _ _ _ Hs);
      cbn [res_bind]; rewrite (IH _ Hr'); rewrite <- ?app_assoc;
      rewrite ?app_nil_r; reflexivity.
Qed.



(** The searches of the specification on the sample book, whose record John
    has the phone 0501234567: ["Joh"] finds John by name, ["joh"] too,
    ["Jo"] is too short, ["012"] finds John by phone and ["xyz"] nothing. *)
Lemma search_examples :
  search march_first_2025 (lit "Joh") sample_book
  = Return (Some (lit "John," ++ spaces 12 ++ lit "0501234567," ++ spaces 16
                  ++ lit "None, None, " ++ spaces 20 ++ lit "None, None"
                  ++ newline))
  /\ search march_first_2025 (lit "joh") sample_book
     = search march_first_2025 (lit "Joh") sample_book
  /\ search march_first_2025 (lit "Jo") sample_book
     = Return (Some search_usage)
  /\ search march_first_2025 (lit "012") sample_book
     = Return (Some (lit "John," ++ spaces 12 ++ lit "0501234567," ++ spaces 16
                     ++ lit "None, None, " ++ spaces 20 ++ lit "None, None"))
  /\ search march_first_2025 (lit "xyz") sample_book = Return None.
Proof. repeat split; vm_compute; reflexivity. Qed.

(** C6, at the failing input.  In a book whose one record, under the key
    John, has its birthday on 29 February, the search for ["Joh"] on 1 March
    2025 matches the name and then raises while the record is rendered. *)
Theorem search_leap_day_raises :
  Str.contains (Str.lower (lit "Joh")) (Str.lower (lit "John")) = true
  /\ search march_first_2025 (lit "Joh") leap_day_book
     = Raise (ValueError (lit "day is out of range for month")).
Proof. split; reflexivity. Qed.

(** ** [remove_phone], [find_phone] and [edit_phone] *)

Lemma set_phones_same (self : Record_) : set_phones (phones self) self = self.
Proof. destruct self; reflexivity. Qed.

Lemma remove_first_None (phone : str) (ps : list Phone) :
  remove_first phone ps = None <-> ~ In phone (map Phone_value ps).
Proof.
  induction ps as [|item ps IH]; simpl; [tauto|].
  destruct (Str.eqb (Phone_value item) phone) eqn:E.
  - apply Str_eqb_eq in E. split; [discriminate | tauto].
  - apply Str_eqb_neq in E.
    destruct (remove_first phone ps); split; try discriminate; intuition congruence.
Qed.

(** The first phone that has a value splits the list around it. *)
Lemma first_phone_split (phone : str) (ps : list Phone) :
  In phone (map Phone_value ps) ->
  exists before item after,
    ps = before ++ item :: after
    /\ Phone_value item = phone
    /\ ~ In phone (map Phone_value before).
Proof.
  induction ps as [|p ps IH]; simpl; [tauto|]. intros Hin.
  destruct (Str.eqb (Phone_value p) phone) eqn:E.
  - apply Str_eqb_eq in E. exists [], p, ps. simpl. tauto.
  - apply Str_eqb_neq in E. destruct Hin as [Hin|Hin]; [congruence|].
    destruct (IH Hin) as [before [item [after [E1 [E2 Hn]]]]].
    exists (p :: before), item, after. subst ps. simpl.
    split; [reflexivity|]. split; [exact E2|]. intuition congruence.
Qed.

Lemma remove_first_split (phone : str) (before after : list Phone) (item : Phone) :
  Phone_value item = phone ->
  ~ In phone (map Phone_value before) ->
  remove_first phone (before ++ item :: after) = Some (before ++ after).
Proof.
  intros Ev. induction before as [|p before IH]; simpl; intros Hn.
  - rewrite (proj2 (Str_eqb_eq _ _) Ev). reflexivity.
  - destruct (Str.eqb (Phone_value p) phone) eqn:E.
    + apply Str_eqb_eq in E. tauto.
    + rewrite IH by tauto. reflexivity.
Qed.

(** X1.  [remove_phone] takes out the first phone that has the value and no
    other: the phones before it and after it, duplicates of the value among
    the latter included, stay in their order, and the call returns the
    deleted message.  When no phone has the value the call returns the
    not-found message, a different string, and the record is as before.  It
    never raises. *)
Theorem remove_phone_first_only (self : Record_) (phone : str) :
  (~ In phone (phone_values self) ->
   remove_phone phone self = (Return (phone_not_found_message phone), self))
  /\ (In phone (phone_values self) ->
      exists before item after,
        phones self = before ++ item :: after
        /\ Phone_value item = phone
        /\ ~ In phone (map Phone_value before)
        /\ remove_phone phone self
           = (Return (phone_deleted_message phone),
              set_phones (before ++ after) self))
  /\ phone_deleted_message phone <> phone_not_found_message phone.
Proof.
  unfold phone_values, remove_phone, bind, get, put, ret.
  split; [|split].
  - intros Hn. apply remove_first_None in Hn. rewrite Hn. reflexivity.
  - intros Hin.
    destruct (first_phone_split phone (phones self) Hin)
      as [before [item [after [E [Ev Hn]]]]].
    exists before, item, after.
    split; [exact E|]. split; [exact Ev|]. split; [exact Hn|].
    rewrite E, (remove_first_split phone before after item Ev Hn). reflexivity.
  - unfold phone_deleted_message, phone_not_found_message. intros E.
    vm_compute in E. discriminate E.
Qed.

(** X2.  [find_phone] gives the first phone that has the value, and [None]
    exactly when no phone of the record has it. *)
Theorem find_phone_first (self : Record_) (phone : str) :
  (find_phone phone self = None <-> ~ In phone (phone_values self))
  /\ (forall item,
        find_phone phone self = Some item <->
        exists before after,
          phones self = before ++ item :: after
          /\ Phone_value item = phone
          /\ ~ In phone (map Phone_value before)).
Proof.
  unfold find_phone, phone_values.
  induction (phones self) as [|p ps [IHn IHs]]; simpl.
  - split; [tauto|]. intros item. split; [discriminate|].
    intros [before [after [E _]]]. destruct before; discriminate E.
  - destruct (Str.eqb (Phone_value p) phone) eqn:E.
    + apply Str_eqb_eq in E. split; [split; [discriminate | tauto]|].
      intros item. split.
      * intros H. inversion H. subst item. exists [], ps. simpl. tauto.
      * intros [before [after [E1 [E2 Hn]]]].
        destruct before as [|q before]; simpl in *.
        -- inversion E1. reflexivity.
        -- inversion E1. subst q. tauto.
    + apply Str_eqb_neq in E. split; [rewrite IHn; intuition congruence|].
      intros item. rewrite IHs. split.
      * intros [before [after [E1 [E2 Hn]]]].
        exists (p :: before), after. subst ps. simpl.
        split; [reflexivity|]. split; [exact E2|]. intuition congruence.
      * intros [before [after [E1 [E2 Hn]]]].
        destruct before as [|q before]; simpl in *.
        -- inversion E1. congruence.
        -- inversion E1. subst q ps. exists before, after. tauto.
Qed.

Lemma edit_first_None (old_phone new_phone : str) (ps : list Phone) :
  ~ In old_phone (map Phone_value ps) ->
  edit_first old_phone new_phone ps = None.
Proof.
  induction ps as [|p ps IH]; simpl; [reflexivity|]. intros Hn.
  destruct (Str.eqb (Phone_value p) old_phone) eqn:E.
  - apply Str_eqb_eq in E. tauto.
  - rewrite IH by tauto. reflexivity.
Qed.

Lemma edit_first_split (old_phone new_phone : str)
  (before after : list Phone) (item : Phone) :
  Phone_value item = old_phone ->
  ~ In old_phone (map Phone_value before) ->
  edit_first old_phone new_phone (before ++ item :: after)
  = Some (try! phone' <- Phone_setter new_phone ;;
          Return (before ++ phone' :: after)).
Proof.
  intros Ev. induction before as [|p before IH]; simpl; intros Hn.
  - rewrite (proj2 (Str_eqb_eq _ _) Ev). reflexivity.
  - destruct (Str.eqb (Phone_value p) old_phone) eqn:E.
    + apply Str_eqb_eq in E. tauto.
    + rewrite IH by tauto. destruct (Phone_setter new_phone); reflexivity.
Qed.

(** X3.  [edit_phone] with a new value that [Phone] accepts rewrites the
    first phone that has the old value, in its place, and no other phone:
    later duplicates of the old value stay.  It returns the line of all the
    phones after the change.  When no phone has the old value it returns
    [None] and changes nothing, and then the new value is not validated at
    all. *)
Theorem edit_phone_replaces_first (self : Record_) (old_phone new_phone : str) :
  (~ In old_phone (phone_values self) ->
   edit_phone old_phone new_phone self = (Return None, self))
  /\ (ten_isdigit_characters new_phone ->
      In old_phone (phone_values self) ->
      exists before item after,
        phones self = before ++ item :: after
        /\ Phone_value item = old_phone
        /\ ~ In old_phone (map Phone_value before)
        /\ edit_phone old_phone new_phone self
           = (Return (Some (lit "Phones: "
                            ++ Str.join (lit "; ")
                                 (map Phone_value before ++ new_phone
                                    :: map Phone_value after))),
              set_phones (before ++ mk_Phone new_phone :: after) self)).
Proof.
  unfold phone_values, edit_phone, bind, get, put, ret, lift.
  split.
  - intros Hn. rewrite (edit_first_None old_phone new_phone _ Hn). reflexivity.
  - intros Hok Hin.
    destruct (first_phone_split old_phone (phones self) Hin)
      as [before [item [after [E [Ev Hn]]]]].
    exists before, item, after.
    split; [exact E|]. split; [exact Ev|]. split; [exact Hn|].
    rewrite E, (edit_first_split old_phone new_phone before after item Ev Hn).
    rewrite (Phone_setter_accepts new_phone Hok). simpl.
    unfold phones_line. rewrite map_app. reflexivity.
Qed.

(** X4.  Adding a number that the record does not hold and removing it again
    gives the record back as it was.  When the record holds the number
    already, the two calls take out the earlier phone and leave the new one,
    so that the number moves to the end of the list. *)
Theorem add_then_remove_phone (self : Record_) (value : str) :
  ten_isdigit_characters value ->
  (~ In value (phone_values self) ->
   (add_phone value ;;; remove_phone value) self
   = (Return (phone_deleted_message value), self))
  /\ (forall before item after,
        phones self = before ++ item :: after ->
        Phone_value item = value ->
        ~ In value (map Phone_value before) ->
        (add_phone value ;;; remove_phone value) self
        = (Return (phone_deleted_message value),
           set_phones (before ++ after ++ [mk_Phone value]) self)).
Proof.
  intros Hok. unfold bind at 1 2.
  rewrite (add_phone_accepted self value _ (Phone_setter_accepts value Hok)).
  unfold remove_phone, bind, get, put, ret. simpl. split.
  - intros Hn.
    rewrite (remove_first_split value (phones self) [] (mk_Phone value) eq_refl Hn).
    rewrite app_nil_r. destruct self; reflexivity.
  - intros before item after E Ev Hn. rewrite E, <- app_assoc. simpl.
    rewrite (remove_first_split value before (after ++ [mk_Phone value]) item Ev Hn).
    reflexivity.
Qed.

Lemma sample_phone_ok : ten_isdigit_characters sample_phone.
Proof. split; [reflexivity|]. repeat constructor. Qed.

(** The theorem on a new record, which gets the number and loses it again, and
    on the record that holds it. *)
Lemma add_then_remove_phone_witness :
  (add_phone sample_phone ;;; remove_phone sample_phone)
    (Record_init (lit "Mary"))
  = (Return (phone_deleted_message sample_phone), Record_init (lit "Mary"))
  /\ (add_phone sample_phone ;;; remove_phone sample_phone) sample_record
     = (Return (phone_deleted_message sample_phone), sample_record).
Proof.
  split.
  - apply (add_then_remove_phone (Record_init (lit "Mary")) sample_phone
             sample_phone_ok).
    simpl. tauto.
  - apply (proj2 (add_then_remove_phone sample_record sample_phone
                    sample_phone_ok) [] (mk_Phone sample_phone) []);
      [reflexivity | reflexivity | simpl; tauto].
Defined.

(** ** [add_email] and [add_address] *)

Lemma Email_accepted_dec (value : str) :
  (exists e, Email_setter value = Return e) \/ Email_setter value = Raise Email_error.
Proof.
  unfold Email_setter. destruct (Re.search Email_pattern value).
  - left. eexists. reflexivity.
  - right. reflexivity.
Qed.

(** X5.  [add_email] stores the string exactly when the pattern of [Email]
    accepts it, replacing the e-mail the record had and touching no other
    field; any other string raises the validation error and the record, its
    previous e-mail included, is as before.  [add_address] stores any string. *)
Theorem add_email_sets_or_raises (self : Record_) (value : str) :
  (Email_accepted value ->
   add_email value self = (Return tt, set_email (Some (mk_Email value)) self))
  /\ (~ Email_accepted value ->
      add_email value self = (Raise Email_error, self))
  /\ add_address value self
     = (Return tt, set_address (Some (mk_Address value)) self).
Proof.
  unfold Email_accepted, add_email, bind, lift, modify.
  split; [|split; [|reflexivity]].
  - intros H. apply Email_setter_accepts_iff in H. destruct H as [e E].
    rewrite E. unfold Email_setter in E.
    destruct (Re.search Email_pattern value); inversion E. reflexivity.
  - intros H. rewrite <- Email_setter_accepts_iff in H.
    destruct (Email_accepted_dec value) as [He|He]; [tauto|].
    rewrite He. reflexivity.
Qed.

(** ** [add_record], [find] and [delete] *)

Lemma find_dict_get (name_ : str) (data : AddressBook) :
  find name_ data = dict_get name_ data.
Proof.
  unfold find. destruct (dict_mem name_ data) eqn:E; [reflexivity|].
  symmetry. apply dict_get_None. intros Hin. apply dict_mem_In in Hin. congruence.
Qed.

Lemma dict_get_set_same (key : str) (v : Record_) (data : AddressBook) :
  dict_get key (dict_set key v data) = Some v.
Proof.
  induction data as [|[k v'] data IH]; simpl.
  - rewrite Str_eqb_refl. reflexivity.
  - destruct (Str.eqb k key) eqn:E; simpl; rewrite E; [reflexivity | exact IH].
Qed.

Lemma dict_get_set_other (key k : str) (v : Record_) (data : AddressBook) :
  k <> key -> dict_get k (dict_set key v data) = dict_get k data.
Proof.
  intros Hk. induction data as [|[k' v'] data IH]; simpl.
  - destruct (Str.eqb key k) eqn:E; [|reflexivity].
    apply Str_eqb_eq in E. congruence.
  - destruct (Str.eqb k' key) eqn:E; simpl.
    + apply Str_eqb_eq in E. subst k'.
      destruct (Str.eqb key k) eqn:E2; [|reflexivity].
      apply Str_eqb_eq in E2. congruence.
    + rewrite IH. reflexivity.
Qed.

Lemma dict_set_present (key : str) (v : Record_) (data : AddressBook) :
  In key (keys data) -> keys (dict_set key v data) = keys data.
Proof.
  induction data as [|[k v'] data IH]; simpl; [tauto|]. intros Hin.
  destruct (Str.eqb k key) eqn:E; simpl; [reflexivity|].
  apply Str_eqb_neq in E. destruct Hin as [Hin|Hin]; [congruence|].
  f_equal. exact (IH Hin).
Qed.

Lemma dict_set_absent (key : str) (v : Record_) (data : AddressBook) :
  ~ In key (keys data) -> dict_set key v data = data ++ [(key, v)].
Proof.
  induction data as [|[k v'] data IH]; simpl; [reflexivity|]. intros Hn.
  destruct (Str.eqb k key) eqn:E.
  - apply Str_eqb_eq in E. tauto.
  - rewrite IH by tauto. reflexivity.
Qed.

Lemma In_keys_dec (key : str) (data : AddressBook) :
  In key (keys data) \/ ~ In key (keys data).
Proof.
  destruct (dict_mem key data) eqn:E.
  - left. now apply dict_mem_In.
  - right. intros H. apply dict_mem_In in H. congruence.
Qed.

Lemma dict_set_In (key : str) (v : Record_) (data : AddressBook)
  (kv : str * Record_) :
  In kv (dict_set key v data) -> kv = (key, v) \/ In kv data.
Proof.
  induction data as [|[k v'] data IH]; simpl.
  - intros [H|H]; [left; congruence | tauto].
  - destruct (Str.eqb k key) eqn:E; simpl.
    + apply Str_eqb_eq in E. subst k. intros [H|H]; [left; congruence | tauto].
    + intros [H|H]; [tauto|]. destruct (IH H); tauto.
Qed.

Lemma dict_set_NoDup (key : str) (v : Record_) (data : AddressBook) :
  NoDup (keys data) -> NoDup (keys (dict_set key v data)).
Proof.
  intros Hnd. destruct (In_keys_dec key data) as [Hin|Hn].
  - rewrite dict_set_present by exact Hin. exact Hnd.
  - rewrite dict_set_absent by exact Hn. unfold keys in *.
    rewrite map_app. simpl. apply NoDup_app; [exact Hnd | repeat constructor; simpl; tauto |].
    intros a Ha [E|[]]. simpl in E. congruence.
Qed.

(** X6.  After [add_record], [find] under the name of the record gives that
    record, and every other name finds what it found before.  A record whose
    name is new goes to the end of the store; a record whose name is a key
    already silently takes the place of the one stored under it, the keys and
    their order staying as they were.  [find] of a name that is not a key is
    [None]; neither call raises. *)
Theorem add_record_then_find (data : AddressBook) (record : Record_) :
  let key := Name_value (name record) in
  exists data',
    add_record record data = (Return tt, data')
    /\ find key data' = Some record
    /\ (forall k, k <> key -> find k data' = find k data)
    /\ (forall k, ~ In k (keys data') -> find k data' = None)
    /\ (~ In key (keys data) -> data' = data ++ [(key, record)])
    /\ (In key (keys data) ->
        keys data' = keys data /\ length data' = length data).
Proof.
  intros key. exists (dict_set key record data).
  split; [reflexivity|]. split; [|split; [|split; [|split]]].
  - rewrite find_dict_get. apply dict_get_set_same.
  - intros k Hk. rewrite !find_dict_get. now apply dict_get_set_other.
  - intros k Hk. rewrite find_dict_get. now apply dict_get_None.
  - apply dict_set_absent.
  - intros Hin. pose proof (dict_set_present key record data Hin) as E.
    split; [exact E|].
    apply (f_equal (@length str)) in E. unfold keys in E.
    now rewrite !length_map in E.
Qed.

Lemma delete_state (name_ : str) (data : AddressBook) :
  snd (delete name_ data) = dict_pop name_ data.
Proof.
  unfold delete, bind, get, put, ret.
  destruct (dict_mem name_ data) eqn:E; simpl; [reflexivity|].
  symmetry. apply dict_pop_absent. intros H. apply dict_mem_In in H. congruence.
Qed.

(** X7.  The invariants of the store, that no key occurs twice and that every
    record is stored under its own name, are kept by [add_record] and by
    [delete]. *)
Theorem store_invariants_kept (data : AddressBook) (record : Record_)
  (name_ : str) :
  store_ok data ->
  store_ok (snd (add_record record data))
  /\ store_ok (snd (delete name_ data)).
Proof.
  intros [Hnd Hkey]. split.
  - unfold add_record, modify. simpl. split.
    + now apply dict_set_NoDup.
    + apply Forall_forall. intros kv Hin. apply dict_set_In in Hin.
      destruct Hin as [E|Hin]; [subst kv; reflexivity|].
      rewrite Forall_forall in Hkey. now apply Hkey.
  - rewrite delete_state, (dict_pop_filter name_ data Hnd). split.
    + now apply keys_filter_NoDup.
    + apply Forall_forall. intros kv Hin. apply filter_In in Hin.
      rewrite Forall_forall in Hkey. now apply Hkey.
Qed.

Lemma sample_book_ok : store_ok sample_book.
Proof.
  split; [exact sample_book_NoDup|]. repeat constructor.
Qed.

(** The theorem on the sample store, for a record under a new name and the
    removal of a key. *)
Lemma store_invariants_kept_witness :
  store_ok (snd (add_record (Record_init (lit "Ann")) sample_book))
  /\ store_ok (snd (delete (lit "John") sample_book)).
Proof.
  exact (store_invariants_kept sample_book (Record_init (lit "Ann")) (lit "John")
           sample_book_ok).
Defined.

Lemma dict_pop_app_last (key : str) (v : Record_) (data : AddressBook) :
  ~ In key (keys data) -> dict_pop key (data ++ [(key, v)]) = data.
Proof.
  induction data as [|[k v'] data IH]; simpl; intros Hn.
  - rewrite Str_eqb_refl. reflexivity.
  - destruct (Str.eqb k key) eqn:E.
    + apply Str_eqb_eq in E. tauto.
    + rewrite IH by tauto. reflexivity.
Qed.

(** X8.  Adding a record under a name that is not a key and deleting that
    name again gives the store back as it was; deleting the name once more
    reports that it was not found and changes nothing. *)
Theorem add_then_delete (data : AddressBook) (record : Record_) :
  let key := Name_value (name record) in
  ~ In key (keys data) ->
  (add_record record ;;; delete key) data = (Return (deleted_message key), data)
  /\ (add_record record ;;; delete key ;;; delete key) data
     = (Return (not_found_message key), data).
Proof.
  intros key Hn.
  assert (Hmem : dict_mem key (data ++ [(key, record)]) = true).
  { apply dict_mem_In. unfold keys. rewrite map_app. apply in_or_app.
    right. simpl. tauto. }
  assert (Hmem' : dict_mem key data = false).
  { destruct (dict_mem key data) eqn:E; [|reflexivity].
    apply dict_mem_In in E. tauto. }
  unfold add_record, delete, bind, modify, get, put, ret. fold key.
  rewrite (dict_set_absent key record data Hn), Hmem.
  rewrite (dict_pop_app_last key record data Hn), Hmem'. split; reflexivity.
Qed.

(** The theorem on the sample store and a record under the new name [Ann]. *)
Lemma add_then_delete_witness :
  (add_record (Record_init (lit "Ann")) ;;; delete (lit "Ann")) sample_book
  = (Return (deleted_message (lit "Ann")), sample_book)
  /\ (add_record (Record_init (lit "Ann")) ;;; delete (lit "Ann")
      ;;; delete (lit "Ann")) sample_book
     = (Return (not_found_message (lit "Ann")), sample_book).
Proof.
  apply (add_then_delete sample_book (Record_init (lit "Ann"))).
  simpl. intros [H|[H|[]]]; discriminate H.
Defined.

Section NextBirthday.

Local Open Scope Z_scope.

(** ** [days_to_birthday]: the count and the date it leads to *)

Lemma year_le_of_toordinal (a b : Date.date) :
  Date.valid a = true -> Date.valid b = true ->
  Date.toordinal a <= Date.toordinal b -> Date.year a <= Date.year b.
Proof.
  intros Va Vb Hle.
  destruct (Z_le_gt_dec (Date.year a) (Date.year b)) as [H|H]; [exact H|].
  exfalso.
  assert (L : Date.ltb b a = true).
  { unfold Date.ltb. apply orb_true_iff. left. apply Z.ltb_lt. lia. }
  apply (toordinal_lt b a Vb Va) in L. lia.
Qed.

Lemma add_days_inv (d d' : Date.date) (n : Z) :
  Date.add_days d n = Return d' ->
  Date.valid d' = true /\ Date.toordinal d' = Date.toordinal d + n.
Proof.
  unfold Date.add_days.
  destruct ((1 <=? Date.toordinal d + n)
            && (Date.toordinal d + n <=? Date.MAXORDINAL)) eqn:E;
    [|discriminate].
  apply andb_true_iff in E. destruct E as [E1 E2].
  apply Z.leb_le in E1. apply Z.leb_le in E2.
  intros H. inversion H. apply ord_to_ymd_correct. lia.
Qed.

Lemma anniversary_of_date (d b : Date.date) :
  Date.month d = Date.month b -> Date.day d = Date.day b ->
  d = anniversary (Date.year d) b.
Proof. destruct d. unfold anniversary. simpl. congruence. Qed.

Lemma anniversary_same_year_gap (today b : Date.date) :
  Date.valid today = true ->
  Date.valid (anniversary (Date.year today) b) = true ->
  Date.toordinal (anniversary (Date.year today) b) - Date.toordinal today <= 365.
Proof.
  intros Vt Va.
  pose proof (day_of_year_bounds today Vt) as Bt.
  pose proof (day_of_year_bounds _ Va) as Ba.
  rewrite (toordinal_day_of_year today), (toordinal_day_of_year (anniversary _ _)).
  change (Date.year (anniversary (Date.year today) b)) with (Date.year today) in *.
  destruct (Date.is_leap (Date.year today)); lia.
Qed.

(** X9.  For a birthday that is not a 29 February, [days_to_birthday] returns
    the today result exactly when the month and the day of the birthday are
    those of today; otherwise it returns a number of days between 1 and 365,
    and that many days after today is the first day after today that has the
    month and the day of the birthday. *)
Theorem days_to_birthday_next_occurrence (today b : Date.date) (self : Record_) :
  Date.valid today = true -> 2 <= Date.year today <= 9998 ->
  birthday self = Some (mk_Birthday b) ->
  Date.valid b = true -> regular_day b ->
  (Date.month b = Date.month today /\ Date.day b = Date.day today ->
   days_to_birthday today self = Return BirthdayToday)
  /\ (~ (Date.month b = Date.month today /\ Date.day b = Date.day today) ->
      exists n next,
        days_to_birthday today self = Return (Days n)
        /\ 1 <= n <= 365
        /\ Date.add_days today n = Return next
        /\ Date.month next = Date.month b /\ Date.day next = Date.day b
        /\ forall k d,
             1 <= k < n -> Date.add_days today k = Return d ->
             ~ (Date.month d = Date.month b /\ Date.day d = Date.day b)).
Proof.
  intros Vt Hy Hb Vb Hr.
  pose proof (days_to_birthday_cases today b self Vt Hy Hb Vb Hr) as C.
  pose proof (anniversary_valid (Date.year today) b Vb Hr ltac:(lia)) as Va.
  pose proof (anniversary_valid (Date.year today + 1) b Vb Hr ltac:(lia)) as Va'.
  pose proof (anniversary_gap (Date.year today) b Va Va') as G.
  pose proof (anniversary_same_year_gap today b Vt Va) as S.
  assert (Hnext : Date.toordinal today
                  < Date.toordinal (anniversary (Date.year today + 1) b)).
  { apply (toordinal_lt _ _ Vt Va'). unfold Date.ltb, anniversary. simpl.
    apply orb_true_iff. left. apply Z.ltb_lt. lia. }
  set (a := anniversary (Date.year today) b) in *.
  set (a' := anniversary (Date.year today + 1) b) in *.
  split.
  - intros E. apply eqb_anniversary in E. fold a in E. rewrite E in C. exact C.
  - intros N. rewrite <- eqb_anniversary in N. fold a in N.
    apply not_true_is_false in N. rewrite N in C.
    assert (Hmin : forall target k d,
               (target = a \/ target = a') ->
               Date.toordinal today < Date.toordinal target ->
               (target = a' -> Date.toordinal a < Date.toordinal today) ->
               1 <= k < Date.toordinal target - Date.toordinal today ->
               Date.add_days today k = Return d ->
               ~ (Date.month d = Date.month b /\ Date.day d = Date.day b)).
    { intros target k d Ht Hlt Hroll Hk Ed [Em Ed'].
      apply add_days_inv in Ed. destruct Ed as [Vd Od].
      pose proof (anniversary_of_date d b Em Ed') as Ea.
      assert (Vtarget : Date.valid target = true) by (destruct Ht; subst; assumption).
      pose proof (year_le_of_toordinal today d Vt Vd ltac:(lia)) as Y1.
      pose proof (year_le_of_toordinal d target Vd Vtarget ltac:(lia)) as Y2.
      assert (Yt : Date.year target <= Date.year today + 1)
        by (destruct Ht; subst target; unfold a, a', anniversary; simpl; lia).
      assert (Hd : d = a \/ d = a').
      { assert (Date.year d = Date.year today \/ Date.year d = Date.year today + 1)
          as [Y|Y] by lia; rewrite Y in Ea; [left | right]; exact Ea. }
      destruct Hd as [Hd|Hd], Ht as [Ht|Ht]; subst d target;
        try specialize (Hroll eq_refl);
        unfold a, a', anniversary in Y2; simpl in Y2; lia. }
    destruct (Date.ltb a today) eqn:L.
    + apply (toordinal_lt a today Va Vt) in L.
      destruct (add_days_Return today (Date.toordinal a' - Date.toordinal today) Vt)
        as [next [En [Vn On]]].
      { pose proof (toordinal_range a' Va'). lia. }
      exists (Date.toordinal a' - Date.toordinal today), next.
      assert (next = a') by (apply toordinal_inj; [assumption | assumption | lia]).
      subst next.
      split; [exact C|]. split; [lia|]. split; [exact En|].
      split; [reflexivity|]. split; [reflexivity|].
      intros k d Hk Ed. apply (Hmin a' k d); auto; lia.
    + assert (La : Date.toordinal today < Date.toordinal a).
      { destruct (date_trichotomy a today) as [H|[H|H]].
        - congruence.
        - rewrite <- H in N at 1. unfold Date.eqb in N.
          rewrite !Z.eqb_refl in N. discriminate N.
        - now apply toordinal_lt. }
      destruct (add_days_Return today (Date.toordinal a - Date.toordinal today) Vt)
        as [next [En [Vn On]]].
      { pose proof (toordinal_range a Va). lia. }
      exists (Date.toordinal a - Date.toordinal today), next.
      assert (next = a) by (apply toordinal_inj; [assumption | assumption | lia]).
      subst next.
      split; [exact C|]. split; [lia|]. split; [exact En|].
      split; [reflexivity|]. split; [reflexivity|].
      intros k d Hk Ed. apply (Hmin a k d); auto. intros H.
      exfalso. apply (f_equal Date.year) in H.
      unfold a, a', anniversary in H. simpl in H. lia.
Qed.

(** The theorem for a birthday on 1 June and the 2 June 2022: 364 days, to
    the 1 June 2023. *)
Lemma days_to_birthday_next_occurrence_witness :
  exists n next,
    days_to_birthday june_second_2022 june_first_record = Return (Days n)
    /\ 1 <= n <= 365
    /\ Date.add_days june_second_2022 n = Return next
    /\ Date.month next = 6 /\ Date.day next = 1.
Proof.
  destruct (proj2 (days_to_birthday_next_occurrence june_second_2022
                     (Date.mk_date 1990 6 1) june_first_record
                     eq_refl ltac:(simpl; lia) eq_refl eq_refl
                     ltac:(unfold regular_day; simpl; lia))
              ltac:(simpl; lia))
    as [n [next [E [B [A [M [D _]]]]]]].
  exists n, next. auto.
Defined.

Lemma next_year_not_leap (y : Z) :
  Date.is_leap y = true -> Date.is_leap (y + 1) = false.
Proof.
  unfold Date.is_leap. intros H. apply andb_true_iff in H. destruct H as [H _].
  apply Z.eqb_eq in H. apply andb_false_iff. left. apply Z.eqb_neq.
  Z.div_mod_to_equations. lia.
Qed.

Lemma new_leap_day (y : Z) :
  1 <= y <= 9999 ->
  Date.new y 2 29
  = if Date.is_leap y then Return (Date.mk_date y 2 29)
    else Raise (ValueError (lit "day is out of range for month")).
Proof.
  intros Hy. unfold Date.new, Date.MINYEAR, Date.MAXYEAR.
  rewrite (proj2 (Z.leb_le 1 y)), (proj2 (Z.leb_le y 9999)) by lia.
  rewrite days_in_february. cbn [andb negb Z.leb Z.compare Pos.compare Pos.compare_cont].
  destruct (Date.is_leap y); reflexivity.
Qed.

(** X10.  For a birthday on a 29 February, [days_to_birthday] returns only in
    a leap year and up to its 29 February: the today result on that day, and
    before it the number of days to it.  In a year that is not a leap year,
    and in a leap year from the 1 March on, it raises the [ValueError] of
    [date.replace]. *)
Theorem days_to_birthday_leap_day (today b : Date.date) (self : Record_) :
  Date.valid today = true -> 2 <= Date.year today <= 9998 ->
  birthday self = Some (mk_Birthday b) ->
  Date.month b = 2 -> Date.day b = 29 ->
  let feb29 := Date.mk_date (Date.year today) 2 29 in
  (Date.is_leap (Date.year today) = true -> Date.leb today feb29 = true ->
   days_to_birthday today self
   = Return (if Date.eqb today feb29 then BirthdayToday
             else Days (Date.toordinal feb29 - Date.toordinal today)))
  /\ (Date.is_leap (Date.year today) = false \/ Date.ltb feb29 today = true ->
      days_to_birthday today self
      = Raise (ValueError (lit "day is out of range for month"))).
Proof.
  intros Vt Hy Hb Hm Hd feb29.
  assert (R : Date.replace_year b (Date.year today)
              = if Date.is_leap (Date.year today) then Return feb29
                else Raise (ValueError (lit "day is out of range for month"))).
  { unfold Date.replace_year. rewrite Hm, Hd. apply new_leap_day. lia. }
  unfold days_to_birthday. rewrite Hb. cbn [Birthday_value]. rewrite R.
  destruct (Date.is_leap (Date.year today)) eqn:Leap.
  2: { split; [discriminate | reflexivity]. }
  cbn [res_bind].
  assert (Vf : Date.valid feb29 = true).
  { apply valid_fields. unfold feb29. cbn [Date.year Date.month Date.day].
    rewrite days_in_february, Leap. lia. }
  destruct (yesterday_exists today Vt ltac:(lia)) as [yesterday [E [V O]]].
  rewrite E. cbn [res_bind].
  rewrite (Date_leb_yesterday today yesterday feb29 Vt V Vf O).
  unfold Date.replace_year. change (Date.month feb29) with 2.
  change (Date.day feb29) with 29. rewrite new_leap_day by lia.
  rewrite (next_year_not_leap _ Leap).
  split.
  - intros _ Hle. destruct (Date.eqb today feb29) eqn:Q; [reflexivity|].
    unfold Date.leb in Hle. rewrite Q, orb_false_r in Hle.
    rewrite (Date_ltb_asym _ _ Hle). reflexivity.
  - intros [H|H]; [discriminate H|].
    rewrite (Date_ltb_neq _ _ H), H. reflexivity.
Qed.

(** The theorem for a birthday on the 29 February 2024: on the 1 March 2025
    the call raises, and on the 1 February 2024 it counts 28 days. *)
Lemma days_to_birthday_leap_day_witness :
  days_to_birthday march_first_2025 leap_day_record
  = Raise (ValueError (lit "day is out of range for month"))
  /\ days_to_birthday (Date.mk_date 2024 2 1) leap_day_record = Return (Days 28).
Proof.
  split.
  - apply (days_to_birthday_leap_day march_first_2025 (Date.mk_date 2024 2 29)
             leap_day_record eq_refl ltac:(simpl; lia) eq_refl eq_refl eq_refl).
    left. reflexivity.
  - apply (days_to_birthday_leap_day (Date.mk_date 2024 2 1)
             (Date.mk_date 2024 2 29)
             leap_day_record eq_refl ltac:(simpl; lia) eq_refl eq_refl eq_refl);
      reflexivity.
Defined.

End NextBirthday.

Section BirthdayQueries.

Local Open Scope Z_scope.

(** ** The birthday queries of [BirthAssistant] *)

(** The anniversary the loops of the queries work with: this year's, moved
    to next year when it is strictly before yesterday. *)
Lemma query_rollover {A} (today b : Date.date) (k : Date.date -> result A) :
  Date.valid today = true -> 2 <= Date.year today <= 9998 ->
  Date.valid b = true -> regular_day b ->
  (try! birth <- Date.replace_year b (Date.year today) ;;
   try! yesterday <- Date.add_days today (-1) ;;
   try! birth' <-
     (if Date.ltb birth yesterday
      then Date.replace_year birth (Date.year today + 1)
      else Return birth) ;;
   k birth')
  = k (if Date.toordinal (anniversary (Date.year today) b)
          <? Date.toordinal today - 1
       then anniversary (Date.year today + 1) b
       else anniversary (Date.year today) b).
Proof.
  intros Vt Hy Vb Hr.
  rewrite (replace_year_regular (Date.year today) b Vb Hr) by lia.
  cbn [res_bind].
  destruct (yesterday_exists today Vt ltac:(lia)) as [yesterday [E [V O]]].
  rewrite E. cbn [res_bind].
  pose proof (anniversary_valid (Date.year today) b Vb Hr ltac:(lia)) as Va.
  assert (R : regular_day (anniversary (Date.year today) b)) by exact Hr.
  pose proof (replace_year_regular (Date.year today + 1) _ Va R ltac:(lia)) as Rn.
  change (anniversary (Date.year today + 1) (anniversary (Date.year today) b))
    with (anniversary (Date.year today + 1) b) in Rn.
  destruct (Z.ltb_spec (Date.toordinal (anniversary (Date.year today) b))
              (Date.toordinal today - 1)) as [L|L].
  - rewrite (proj2 (Date_ltb_toordinal _ _ Va V)) by lia.
    rewrite Rn. reflexivity.
  - destruct (Date.ltb (anniversary (Date.year today) b) yesterday) eqn:L';
      [|reflexivity].
    apply Date_ltb_toordinal in L'; try assumption. lia.
Qed.

(** Within a window of at most 363 days, the anniversary of the loops and
    the next anniversary of the rollover rule are in or out together. *)
Lemma window_agrees (today b last : Date.date) (n : Z) :
  Date.valid today = true -> 2 <= Date.year today <= 9998 ->
  Date.valid b = true -> regular_day b ->
  0 <= n <= 363 ->
  Date.add_days today n = Return last ->
  let a := anniversary (Date.year today) b in
  let a' := anniversary (Date.year today + 1) b in
  let birth := if Date.toordinal a <? Date.toordinal today - 1 then a' else a in
  let next := if Date.eqb today a then a
              else if Date.ltb a today then a' else a in
  Date.leb today birth && Date.leb birth last
  = Date.leb today next && Date.leb next last
  /\ (Date.leb today birth && Date.leb birth last = true -> birth = next).
Proof.
  intros Vt Hy Vb Hr Hn En a a' birth next.
  pose proof (anniversary_valid (Date.year today) b Vb Hr ltac:(lia)) as Va.
  pose proof (anniversary_valid (Date.year today + 1) b Vb Hr ltac:(lia)) as Va'.
  pose proof (anniversary_gap (Date.year today) b Va Va') as G.
  apply add_days_inv in En. destruct En as [Vl Ol].
  fold a in Va, G. fold a' in Va', G.
  destruct (Date.eqb today a) eqn:Q.
  - apply Date_eqb_eq in Q. subst birth next.
    destruct (Z.ltb_spec (Date.toordinal a) (Date.toordinal today - 1)) as [L|L];
      [rewrite <- Q in L; lia | tauto].
  - assert (Hne : Date.toordinal a <> Date.toordinal today).
    { intros H. apply toordinal_inj in H; try assumption. subst a.
      rewrite H in Q. rewrite (proj2 (Date_eqb_eq _ _) eq_refl) in Q.
      discriminate Q. }
    subst birth next.
    destruct (Z.ltb_spec (Date.toordinal a) (Date.toordinal today - 1)) as [L|L].
    + rewrite (proj2 (Date_ltb_toordinal a today Va Vt)) by lia. tauto.
    + destruct (Date.ltb a today) eqn:L'; [|tauto].
      apply Date_ltb_toordinal in L'; try assumption.
      assert (F1 : Date.leb today a = false).
      { destruct (Date.leb today a) eqn:F; [|reflexivity].
        apply Date_leb_toordinal in F; try assumption. lia. }
      assert (F2 : Date.leb a' last = false).
      { destruct (Date.leb a' last) eqn:F; [|reflexivity].
        apply Date_leb_toordinal in F; try assumption. lia. }
      rewrite F1, F2, andb_false_r. split; [reflexivity | discriminate].
Qed.

Lemma add_days_in_range (today : Date.date) (n : Z) :
  Date.valid today = true -> Date.year today <= 9998 -> 0 <= n < 365 ->
  exists d, Date.add_days today n = Return d.
Proof.
  intros Vt Hy Hn.
  destruct (add_days_Return today n Vt) as [d [E _]]; [|exists d; exact E].
  pose proof (toordinal_range today Vt) as R.
  rewrite toordinal_day_of_year in *.
  pose proof (day_of_year_bounds today Vt) as B.
  pose proof (days_before_year_succ (Date.year today)) as S.
  pose proof (days_before_year_mono (Date.year today + 1) 9999 ltac:(lia)) as M.
  change (Date.days_before_year 9999) with 3651694 in M.
  unfold Date.MAXORDINAL. lia.
Qed.

Lemma birthday_items_regular (today date_value : Date.date) (n : Z)
  (items : AddressBook) (acc : list str) :
  Date.valid today = true -> 2 <= Date.year today <= 9998 ->
  0 <= n <= 363 ->
  Date.add_days today n = Return date_value ->
  Forall regular_birthday items ->
  birthday_items today date_value items acc
  = Return (acc ++ flat_map (expected_lines today n) items).
Proof.
  intros Vt Hy Hn En Hall. revert acc.
  induction Hall as [|[name_ rec] items Hc _ IH]; intros acc;
    cbn [birthday_items flat_map].
  - rewrite app_nil_r. reflexivity.
  - set (tail := flat_map (expected_lines today n) items) in *.
    unfold regular_birthday in Hc. unfold expected_lines. cbn [fst snd] in *.
    destruct (birthday rec) as [[b]|] eqn:Hb; cbn [Birthday_value] in *.
    2: { cbn [res_bind app]. apply IH. }
    destruct Hc as [Vb Hr].
    rewrite (query_rollover today b _ Vt Hy Vb Hr).
    unfold within_window.
    rewrite (next_anniversary_cases today b Vt Hy Vb Hr), En.
    cbn [res_bind].
    destruct (window_agrees today b date_value n Vt Hy Vb Hr Hn En) as [W _].
    cbn zeta in W. rewrite W.
    rewrite (days_to_birthday_cases today b rec Vt Hy Hb Vb Hr).
    match goal with
    | |- context [Date.leb today ?x && Date.leb ?x date_value] =>
        destruct (Date.leb today x && Date.leb x date_value)
    end.
    + destruct (Date.eqb today (anniversary (Date.year today) b));
        [|destruct (Date.ltb (anniversary (Date.year today) b) today)];
        cbn [res_bind app]; rewrite IH, <- ?app_assoc; reflexivity.
    + cbn [res_bind app]. rewrite IH. reflexivity.
Qed.

(** X11.  For a number of days up to 363 and a store whose birthdays are not
    on a 29 February, [birthday_in_given_days] lists, in the order of the
    store, exactly the records whose next anniversary under the rollover rule
    of [days_to_birthday] lies within the days from today to today plus that
    number, each with the count of [days_to_birthday]; when there is none it
    prints the message and returns [None]. *)
Theorem birthday_in_given_days_up_to_363 (today : Date.date) (n : Z)
  (phone_book : AddressBook) (out : console) :
  Date.valid today = true -> 2 <= Date.year today <= 9998 ->
  0 <= n <= 363 ->
  Forall regular_birthday phone_book ->
  birthday_in_given_days today n phone_book out
  = match flat_map (expected_lines today n) phone_book with
    | [] => (Return None, out ++ [no_birthday_message])
    | l => (Return (Some l), out)
    end.
Proof.
  intros Vt Hy Hn Hall.
  destruct (add_days_in_range today n Vt ltac:(lia) ltac:(lia))
    as [date_value En].
  unfold birthday_in_given_days, bind, lift. rewrite En.
  rewrite (birthday_items_regular today date_value n phone_book []
             Vt Hy Hn En Hall).
  cbn [app].
  destruct (flat_map (expected_lines today n) phone_book); reflexivity.
Qed.

Lemma june_first_book_regular : Forall regular_birthday june_first_book.
Proof.
  constructor; [|constructor]. split; [reflexivity|].
  unfold regular_day. simpl. lia.
Qed.

(** The theorem on the 25 May 2022, for ten days and a birthday on 1 June. *)
Lemma birthday_in_given_days_up_to_363_witness :
  birthday_in_given_days (Date.mk_date 2022 5 25) 10 june_first_book []
  = (Return (Some [lit "Mary; 1990-06-01; 7"]), []).
Proof.
  rewrite (birthday_in_given_days_up_to_363 (Date.mk_date 2022 5 25) 10
             june_first_book [] eq_refl ltac:(simpl; lia) ltac:(lia)
             june_first_book_regular).
  vm_compute. reflexivity.
Defined.

Lemma week_items_regular (today end_date : Date.date)
  (items : AddressBook) (acc : list (str * Date.date * Z)) :
  Date.valid today = true -> 2 <= Date.year today <= 9998 ->
  Date.add_days today 7 = Return end_date ->
  Forall regular_birthday items ->
  week_items today items acc
  = Return (acc ++ flat_map (expected_week_entry today) items).
Proof.
  intros Vt Hy En Hall. revert acc.
  induction Hall as [|[name_ rec] items Hc _ IH]; intros acc;
    cbn [week_items flat_map].
  - rewrite app_nil_r. reflexivity.
  - set (tail := flat_map (expected_week_entry today) items) in *.
    unfold regular_birthday in Hc. unfold expected_week_entry.
    cbn [fst snd] in *.
    destruct (birthday rec) as [[b]|] eqn:Hb; cbn [Birthday_value] in *.
    2: { cbn [res_bind app]. apply IH. }
    destruct Hc as [Vb Hr]. cbn zeta.
    rewrite (query_rollover today b _ Vt Hy Vb Hr).
    unfold within_window.
    rewrite (next_anniversary_cases today b Vt Hy Vb Hr), En.
    cbn [res_bind].
    destruct (window_agrees today b end_date 7 Vt Hy Vb Hr ltac:(lia) En)
      as [W Wn].
    cbn zeta in W, Wn. rewrite <- W.
    match goal with
    | |- context [Date.leb today ?x && Date.leb ?x end_date] =>
        destruct (Date.leb today x && Date.leb x end_date) eqn:In_
    end.
    + rewrite <- (Wn eq_refl). cbn [res_bind app].
      rewrite IH, <- app_assoc. reflexivity.
    + cbn [res_bind app]. rewrite IH. reflexivity.
Qed.

(** X12.  For a store whose birthdays are not on a 29 February,
    [get_birthdays_per_week] takes, in the order of the store, exactly the
    records whose next anniversary under the rollover rule of
    [days_to_birthday] lies within today and the seven days after it, each
    with that anniversary and its day of the week; when there is none it
    prints the message and returns [None], and otherwise it returns these
    entries grouped by the second loop. *)
Theorem get_birthdays_per_week_window (today : Date.date)
  (phone_book : AddressBook) (out : console) :
  Date.valid today = true -> 2 <= Date.year today <= 9998 ->
  Forall regular_birthday phone_book ->
  get_birthdays_per_week today phone_book out
  = match flat_map (expected_week_entry today) phone_book with
    | [] => (Return None, out ++ [no_birthday_this_week_message])
    | entries =>
        (Return (Some (filter (fun kv => negb (length (snd kv) =? 0)%nat)
                              (week_users entries []))), out)
    end.
Proof.
  intros Vt Hy Hall.
  destruct (add_days_in_range today 7 Vt ltac:(lia) ltac:(lia))
    as [end_date En].
  unfold get_birthdays_per_week, bind, lift.
  rewrite (week_items_regular today end_date phone_book [] Vt Hy En Hall).
  cbn [app].
  destruct (flat_map (expected_week_entry today) phone_book); reflexivity.
Qed.

(** The theorem on Saturday the 28 May 2022 and a birthday on 1 June, a
    Wednesday that year. *)
Lemma get_birthdays_per_week_window_witness :
  get_birthdays_per_week (Date.mk_date 2022 5 28) june_first_book []
  = (Return (Some [(lit "Wednesday", [lit "Mary: 1990-06-01"])]), []).
Proof.
  rewrite (get_birthdays_per_week_window (Date.mk_date 2022 5 28)
             june_first_book [] eq_refl ltac:(simpl; lia)
             june_first_book_regular).
  vm_compute. reflexivity.
Defined.

(** *** The grouping by the day of the week *)

Lemma week_users_step (item : str * Date.date * Z)
  (users : list (str * list str)) :
  fold_left
    (fun users' day =>
       if snd item =? fst day
       then dd_append (snd day) (fst (fst item)) users'
       else users')
    weekdays users
  = match weekday_name (snd item) with
    | Some nm => dd_append nm (fst (fst item)) users
    | None => users
    end.
Proof.
  generalize (snd item) as w, (fst (fst item)) as x. intros w x.
  unfold weekday_name, weekdays. cbn [fold_left List.find fst snd].
  destruct (Z.eqb_spec w 1) as [->|]; [reflexivity|].
  destruct (Z.eqb_spec w 2) as [->|]; [reflexivity|].
  destruct (Z.eqb_spec w 3) as [->|]; [reflexivity|].
  destruct (Z.eqb_spec w 4) as [->|]; [reflexivity|].
  destruct (Z.eqb_spec w 5) as [->|]; [reflexivity|].
  destruct (Z.eqb_spec w 6) as [->|]; [reflexivity|].
  destruct (Z.eqb_spec w 7) as [->|]; reflexivity.
Qed.

Lemma weekday_name_In (w : Z) (nm : str) :
  In (w, nm) weekdays <-> weekday_name w = Some nm.
Proof.
  unfold weekday_name, weekdays. cbn [List.find In fst snd]. split.
  - intros H.
    repeat (destruct H as [H|H]; [inversion H; reflexivity|]). destruct H.
  - destruct (Z.eqb_spec w 1) as [->|]; [intros H; inversion H; tauto|].
    destruct (Z.eqb_spec w 2) as [->|]; [intros H; inversion H; tauto|].
    destruct (Z.eqb_spec w 3) as [->|]; [intros H; inversion H; tauto|].
    destruct (Z.eqb_spec w 4) as [->|]; [intros H; inversion H; tauto|].
    destruct (Z.eqb_spec w 5) as [->|]; [intros H; inversion H; tauto|].
    destruct (Z.eqb_spec w 6) as [->|]; [intros H; inversion H; tauto|].
    destruct (Z.eqb_spec w 7) as [->|]; [intros H; inversion H; tauto|].
    discriminate.
Qed.

Lemma weekday_name_inj (w w' : Z) (nm : str) :
  weekday_name w = Some nm -> weekday_name w' = Some nm -> w = w'.
Proof.
  intros H H'. apply weekday_name_In in H. apply weekday_name_In in H'.
  unfold weekdays in *. cbn [In] in *.
  repeat (destruct H as [H|H]; [inversion H; subst; clear H|]); [..|destruct H];
    repeat (destruct H' as [H'|H']; [inversion H'; reflexivity|]);
    destruct H'.
Qed.

Lemma users_get_append_same (key x : str) (users : list (str * list str)) :
  users_get key (dd_append key x users)
  = Some (match users_get key users with Some v => v | None => [] end ++ [x]).
Proof.
  induction users as [|[k v] users IH]; simpl.
  - rewrite Str_eqb_refl. reflexivity.
  - destruct (Str.eqb k key) eqn:E; simpl; rewrite E; [reflexivity | exact IH].
Qed.

Lemma users_get_append_other (key k x : str) (users : list (str * list str)) :
  k <> key -> users_get k (dd_append key x users) = users_get k users.
Proof.
  intros Hk. induction users as [|[k' v] users IH]; simpl.
  - destruct (Str.eqb key k) eqn:E; [|reflexivity].
    apply Str_eqb_eq in E. congruence.
  - destruct (Str.eqb k' key) eqn:E; simpl.
    + apply Str_eqb_eq in E. subst k'.
      destruct (Str.eqb key k) eqn:E2; [|reflexivity].
      apply Str_eqb_eq in E2. congruence.
    + rewrite IH. reflexivity.
Qed.

Lemma dd_append_In (key x : str) (users : list (str * list str))
  (kv : str * list str) :
  In kv (dd_append key x users) ->
  fst kv = key /\ snd kv <> [] \/ In kv users.
Proof.
  induction users as [|[k v] users IH]; simpl.
  - intros [H|[]]. subst kv. left. split; [reflexivity | discriminate].
  - destruct (Str.eqb k key) eqn:E; simpl.
    + apply Str_eqb_eq in E. subst k. intros [H|H]; [|tauto].
      subst kv. left. split; [reflexivity|]. simpl. intros H.
      apply app_eq_nil in H. destruct H as [_ H]. discriminate H.
    + intros [H|H]; [tauto|]. destruct (IH H); tauto.
Qed.

Lemma dd_append_keys (key x : str) (users : list (str * list str)) :
  NoDup (map fst users) -> NoDup (map fst (dd_append key x users)).
Proof.
  induction users as [|[k v] users IH]; simpl; intros Hnd.
  - repeat constructor. simpl. tauto.
  - inversion Hnd as [|? ? Hn Hnd']. subst.
    destruct (Str.eqb k key) eqn:E; simpl.
    + constructor; assumption.
    + constructor; [|now apply IH].
      intros Hin. apply in_map_iff in Hin. destruct Hin as [kv [Ek Hin]].
      apply dd_append_In in Hin. destruct Hin as [[Hk _]|Hin].
      * apply Str_eqb_neq in E. congruence.
      * apply Hn. apply in_map_iff. exists kv. tauto.
Qed.

(** What the second loop keeps true, entry after entry. *)
Lemma week_users_invariant (entries done : list (str * Date.date * Z))
  (users : list (str * list str)) :
  NoDup (map fst users) ->
  (forall kv, In kv users ->
     snd kv <> [] /\ exists w, weekday_name w = Some (fst kv)) ->
  (forall w nm, weekday_name w = Some nm ->
     users_get nm users
     = match names_on w done with [] => None | l => Some l end) ->
  let users' := week_users entries users in
  NoDup (map fst users')
  /\ (forall kv, In kv users' ->
        snd kv <> [] /\ exists w, weekday_name w = Some (fst kv))
  /\ (forall w nm, weekday_name w = Some nm ->
        users_get nm users'
        = match names_on w (done ++ entries) with [] => None | l => Some l end).
Proof.
  revert done users.
  induction entries as [|item entries IH]; intros done users Hnd Hval Hget;
    cbn [week_users].
  - rewrite app_nil_r. cbn zeta. auto.
  - rewrite week_users_step.
    replace (done ++ item :: entries) with ((done ++ [item]) ++ entries)
      by (rewrite <- app_assoc; reflexivity).
    assert (Hnames : forall w,
               names_on w (done ++ [item])
               = names_on w done
                 ++ (if snd item =? w then [fst (fst item)] else [])).
    { intros w. unfold names_on. rewrite filter_app, map_app. simpl.
      destruct (snd item =? w); reflexivity. }
    destruct (weekday_name (snd item)) as [nm0|] eqn:Hw.
    + apply IH.
      * now apply dd_append_keys.
      * intros kv Hin. apply dd_append_In in Hin.
        destruct Hin as [[Hk Hv]|Hin]; [|now apply Hval].
        split; [exact Hv|]. exists (snd item). congruence.
      * intros w nm Hnm. rewrite Hnames.
        destruct (Z.eqb_spec (snd item) w) as [Ew|Ew].
        -- subst w. assert (nm = nm0) by congruence. subst nm.
           rewrite users_get_append_same, (Hget _ _ Hw).
           destruct (names_on (snd item) done); reflexivity.
        -- rewrite app_nil_r, users_get_append_other; [now apply Hget|].
           intros E. subst nm. apply Ew.
           exact (weekday_name_inj _ _ _ Hw Hnm).
    + apply IH; [exact Hnd | exact Hval |].
      intros w nm Hnm. rewrite Hnames.
      destruct (Z.eqb_spec (snd item) w) as [Ew|Ew]; [congruence|].
      rewrite app_nil_r. now apply Hget.
Qed.

Lemma filter_all {A} (f : A -> bool) (l : list A) :
  (forall x, In x l -> f x = true) -> filter f l = l.
Proof.
  induction l as [|a l IH]; simpl; intros H; [reflexivity|].
  rewrite (H a (or_introl eq_refl)), IH; [reflexivity|].
  intros x Hx. apply H. now right.
Qed.

(** X13.  The dictionary [get_birthdays_per_week] returns for its entries
    has the names of the days of the week as keys, none of them twice and
    none with an empty list: under the name of a day stand, in the order of
    the entries, the names of exactly the entries that fall on that day, and
    a day on which none falls is not a key. *)
Theorem week_users_by_day (entries : list (str * Date.date * Z)) :
  let users :=
    filter (fun kv => negb (length (snd kv) =? 0)%nat)
           (week_users entries []) in
  NoDup (map fst users)
  /\ (forall kv, In kv users ->
        snd kv <> [] /\ exists w, In (w, fst kv) weekdays)
  /\ (forall w nm, In (w, nm) weekdays ->
        users_get nm users
        = match names_on w entries with [] => None | l => Some l end).
Proof.
  destruct (week_users_invariant entries [] [] (NoDup_nil _)) as [Hnd [Hval Hget]].
  - intros kv [].
  - intros w nm _. reflexivity.
  - cbn zeta in *. cbn [app] in Hget.
    rewrite filter_all.
    + split; [exact Hnd|]. split.
      * intros kv Hin. destruct (Hval kv Hin) as [Hv [w Hw]].
        split; [exact Hv|]. exists w. now apply weekday_name_In.
      * intros w nm Hin. apply Hget. now apply weekday_name_In.
    + intros kv Hin. destruct (Hval kv Hin) as [Hv _].
      destruct (snd kv); [congruence | reflexivity].
Qed.

(** *** The birthdays on a day *)

Lemma for_date_items_regular (today d : Date.date) (items : AddressBook)
  (acc : list str) :
  1 <= Date.year today <= 9999 ->
  Forall regular_birthday items ->
  for_date_items today d items acc
  = Return (acc ++ if Date.year d =? Date.year today
                   then map fst (filter (born_on d) items) else []).
Proof.
  intros Hy Hall. revert acc.
  induction Hall as [|[name_ rec] items Hc _ IH]; intros acc;
    cbn [for_date_items].
  - destruct (Date.year d =? Date.year today); cbn [filter map];
      rewrite app_nil_r; reflexivity.
  - unfold regular_birthday in Hc. unfold born_on at 1 in IH.
    cbn [filter]. unfold born_on at 1. cbn [fst snd] in *.
    destruct (birthday rec) as [[b]|] eqn:Hb; cbn [Birthday_value] in *.
    2: { cbn [res_bind]. apply IH. }
    destruct Hc as [Vb Hr].
    rewrite (replace_year_regular (Date.year today) b Vb Hr Hy).
    cbn [res_bind]. unfold Date.eqb at 1, anniversary at 1 2 3.
    cbn [Date.year Date.month Date.day].
    rewrite (Z.eqb_sym (Date.year today) (Date.year d)).
    destruct (Date.year d =? Date.year today) eqn:Ey; cbn [andb].
    + destruct ((Date.month b =? Date.month d) && (Date.day b =? Date.day d));
        cbn [map fst res_bind]; rewrite IH, ?Ey, <- ?app_assoc; reflexivity.
    + cbn [res_bind]. rewrite IH, ?Ey. reflexivity.
Qed.

(** X14.  [birthdays_for_date] raises the [ValueError] of [strptime] on a
    text that is not a date.  On the text of a date of the current year it
    returns, in the order of the store, the names of the records whose
    birthday has the month and the day of that date; on the text of a date of
    any other year it finds nobody, since it compares with the anniversaries
    of the current year.  When it finds nobody it prints the message and
    returns [None].  (The store holds no birthday on a 29 February.) *)
Theorem birthdays_for_date_same_year (today : Date.date) (day : str)
  (phone_book : AddressBook) (out : console) :
  1 <= Date.year today <= 9999 ->
  Forall regular_birthday phone_book ->
  (forall d, Date.strptime day = Return d ->
     birthdays_for_date today day phone_book out
     = match (if Date.year d =? Date.year today
              then map fst (filter (born_on d) phone_book) else []) with
       | [] => (Return None, out ++ [no_birthday_this_day_message])
       | names => (Return (Some names), out)
       end)
  /\ ((forall d, Date.strptime day <> Return d) ->
      exists msg,
        birthdays_for_date today day phone_book out
        = (Raise (ValueError msg), out)).
Proof.
  intros Hy Hall. unfold birthdays_for_date, bind, lift. split.
  - intros d E. rewrite E.
    rewrite (for_date_items_regular today d phone_book [] Hy Hall).
    cbn [app].
    destruct (if Date.year d =? Date.year today
              then map fst (filter (born_on d) phone_book) else []);
      reflexivity.
  - intros N. destruct (Date.strptime day) as [d|e] eqn:E.
    + exfalso. exact (N d eq_refl).
    + destruct (strptime_raises_ValueError day e E) as [msg Em].
      exists msg. rewrite Em. reflexivity.
Qed.

(** The theorem on the 1 March 2025 and a birthday on 1 June: the 1 June
    2025 finds the record, the 1 June 2024 does not. *)
Lemma birthdays_for_date_same_year_witness :
  birthdays_for_date march_first_2025 (lit "2025.06.01") june_first_book []
  = (Return (Some [lit "Mary"]), [])
  /\ birthdays_for_date march_first_2025 (lit "2024.06.01") june_first_book []
     = (Return None, [no_birthday_this_day_message]).
Proof.
  split.
  - rewrite (proj1 (birthdays_for_date_same_year march_first_2025
                      (lit "2025.06.01") june_first_book []
                      ltac:(simpl; lia) june_first_book_regular)
               (Date.mk_date 2025 6 1) eq_refl).
    reflexivity.
  - rewrite (proj1 (birthdays_for_date_same_year march_first_2025
                      (lit "2024.06.01") june_first_book []
                      ltac:(simpl; lia) june_first_book_regular)
               (Date.mk_date 2024 6 1) eq_refl).
    reflexivity.
Defined.

(** X15.  With the text [strftime] gives for today, as
    [birthdays_for_date_menu] calls it, [birthdays_for_date] returns the
    names of exactly the records whose birthday has the month and the day of
    today.  (Today is in the year 1000 or later, and the store holds no
    birthday on a 29 February.) *)
Theorem birthdays_for_date_today (today : Date.date)
  (phone_book : AddressBook) (out : console) :
  Date.valid today = true -> 1000 <= Date.year today ->
  Forall regular_birthday phone_book ->
  birthdays_for_date today (Date.strftime today) phone_book out
  = match map fst (filter (born_on today) phone_book) with
    | [] => (Return None, out ++ [no_birthday_this_day_message])
    | names => (Return (Some names), out)
    end.
Proof.
  intros Vt Hy Hall.
  destruct (strftime_strptime today Vt Hy) as [_ E].
  pose proof (proj1 (valid_fields today) Vt) as [Hr _].
  unfold birthdays_for_date, bind, lift. rewrite E.
  rewrite (for_date_items_regular today today phone_book [] Hr Hall).
  rewrite Z.eqb_refl. cbn [app].
  destruct (map fst (filter (born_on today) phone_book)); reflexivity.
Qed.

(** The theorem on the 1 June 2025 and a birthday on 1 June. *)
Lemma birthdays_for_date_today_witness :
  birthdays_for_date (Date.mk_date 2025 6 1) (lit "2025.06.01")
    june_first_book []
  = (Return (Some [lit "Mary"]), []).
Proof.
  exact (birthdays_for_date_today (Date.mk_date 2025 6 1) june_first_book []
           eq_refl ltac:(simpl; lia) june_first_book_regular).
Defined.

End BirthdayQueries.

(** ** The order of sequences *)

Section SequenceOrder.

Variable A : Type.
Variables eqb ltb : A -> A -> bool.
Hypothesis eqb_eq : forall x y, eqb x y = true <-> x = y.
Hypothesis ltb_irrefl : forall x, ltb x x = false.
Hypothesis ltb_trans :
  forall x y z, ltb x y = true -> ltb y z = true -> ltb x z = true.
Hypothesis ltb_total :
  forall x y, ltb x y = true \/ x = y \/ ltb y x = true.

Lemma seq_eqb_refl (x : A) : eqb x x = true.
Proof. now apply eqb_eq. Qed.

Lemma seq_eqb_false (x y : A) : eqb x y = false <-> x <> y.
Proof.
  destruct (eqb x y) eqn:E.
  - apply eqb_eq in E. split; [discriminate | tauto].
  - split; [|reflexivity]. intros _ H. apply eqb_eq in H. congruence.
Qed.

Lemma seq_ltb_irrefl (a : list A) : seq_ltb eqb ltb a a = false.
Proof.
  induction a as [|x a IH]; simpl; [reflexivity|].
  rewrite seq_eqb_refl. exact IH.
Qed.

Lemma seq_ltb_trans (a b c : list A) :
  seq_ltb eqb ltb a b = true -> seq_ltb eqb ltb b c = true ->
  seq_ltb eqb ltb a c = true.
Proof.
  revert b c. induction a as [|x a IH]; intros [|y b] [|z c]; simpl;
    try discriminate; try reflexivity.
  destruct (eqb x y) eqn:Exy.
  - apply eqb_eq in Exy. subst y.
    destruct (eqb x z) eqn:Exz; [apply IH | tauto].
  - destruct (eqb y z) eqn:Eyz.
    + apply eqb_eq in Eyz. subst z. rewrite Exy. tauto.
    + intros H1 H2. pose proof (ltb_trans _ _ _ H1 H2) as H.
      destruct (eqb x z) eqn:Exz; [|exact H].
      apply eqb_eq in Exz. subst z. rewrite ltb_irrefl in H. discriminate H.
Qed.

Lemma seq_ltb_total (a b : list A) :
  seq_ltb eqb ltb a b = true \/ a = b \/ seq_ltb eqb ltb b a = true.
Proof.
  revert b. induction a as [|x a IH]; intros [|y b]; simpl; auto.
  destruct (eqb x y) eqn:Exy.
  - apply eqb_eq in Exy. subst y. rewrite seq_eqb_refl.
    destruct (IH b) as [H|[H|H]]; auto. subst b. auto.
  - assert (Eyx : eqb y x = false).
    { apply seq_eqb_false. apply seq_eqb_false in Exy. congruence. }
    rewrite Eyx. apply seq_eqb_false in Exy.
    destruct (ltb_total x y) as [H|[H|H]]; auto; congruence.
Qed.

End SequenceOrder.

Lemma char_ltb_irrefl (x : ascii) : char_ltb x x = false.
Proof. unfold char_ltb. apply Nat.ltb_irrefl. Qed.

Lemma char_ltb_trans (x y z : ascii) :
  char_ltb x y = true -> char_ltb y z = true -> char_ltb x z = true.
Proof. unfold char_ltb. rewrite !Nat.ltb_lt. lia. Qed.

Lemma char_ltb_total (x y : ascii) :
  char_ltb x y = true \/ x = y \/ char_ltb y x = true.
Proof.
  unfold char_ltb, Str.code. rewrite !Nat.ltb_lt.
  destruct (Nat.lt_trichotomy (nat_of_ascii x) (nat_of_ascii y)) as [H|[H|H]];
    auto.
  right. left. rewrite <- (ascii_nat_embedding x), <- (ascii_nat_embedding y).
  now rewrite H.
Qed.

Lemma str_ltb_irrefl (a : str) : str_ltb a a = false.
Proof. apply seq_ltb_irrefl. exact Ascii.eqb_eq. Qed.

Lemma str_ltb_trans (a b c : str) :
  str_ltb a b = true -> str_ltb b c = true -> str_ltb a c = true.
Proof.
  apply seq_ltb_trans;
    [exact Ascii.eqb_eq | exact char_ltb_irrefl | exact char_ltb_trans].
Qed.

Lemma str_ltb_total (a b : str) :
  str_ltb a b = true \/ a = b \/ str_ltb b a = true.
Proof. apply seq_ltb_total; [exact Ascii.eqb_eq | exact char_ltb_total]. Qed.

Lemma tags_ltb_irrefl (a : list str) : tags_ltb a a = false.
Proof. apply seq_ltb_irrefl. exact Str_eqb_eq. Qed.

Lemma tags_ltb_trans (a b c : list str) :
  tags_ltb a b = true -> tags_ltb b c = true -> tags_ltb a c = true.
Proof.
  apply seq_ltb_trans;
    [exact Str_eqb_eq | exact str_ltb_irrefl | exact str_ltb_trans].
Qed.

Lemma tags_ltb_total (a b : list str) :
  tags_ltb a b = true \/ a = b \/ tags_ltb b a = true.
Proof. apply seq_ltb_total; [exact Str_eqb_eq | exact str_ltb_total]. Qed.

Lemma tags_in_order_trans (a b c : Note) :
  tags_in_order a b -> tags_in_order b c -> tags_in_order a c.
Proof.
  unfold tags_in_order. intros H1 H2.
  destruct (tags_ltb (tags c) (tags a)) eqn:H; [|reflexivity].
  destruct (tags_ltb_total (tags b) (tags a)) as [T|[T|T]].
  - congruence.
  - rewrite T in H2. congruence.
  - rewrite (tags_ltb_trans _ _ _ H T) in H2. discriminate H2.
Qed.

Lemma tags_ltb_in_order (a b : Note) :
  tags_ltb (tags a) (tags b) = true -> tags_in_order a b.
Proof.
  unfold tags_in_order. intros H.
  destruct (tags_ltb (tags b) (tags a)) eqn:H'; [|reflexivity].
  pose proof (tags_ltb_trans _ _ _ H H') as T.
  rewrite tags_ltb_irrefl in T. discriminate T.
Qed.

(** ** [search_and_sort_notes] *)

Lemma sorted_insert_perm (x : Note) (l : list Note) :
  Permutation (sorted_insert tags_ltb tags x l) (x :: l).
Proof.
  induction l as [|y l IH]; simpl; [apply Permutation_refl|].
  destruct (tags_ltb (tags y) (tags x)); [|apply Permutation_refl].
  apply perm_trans with (y :: x :: l); [now apply perm_skip | apply perm_swap].
Qed.

Lemma sorted_perm (l : list Note) : Permutation (sorted tags_ltb tags l) l.
Proof.
  induction l as [|x l IH]; simpl; [apply perm_nil|].
  apply perm_trans with (x :: sorted tags_ltb tags l);
    [apply sorted_insert_perm | now apply perm_skip].
Qed.

Lemma sorted_insert_sorted (x : Note) (l : list Note) :
  StronglySorted tags_in_order l ->
  StronglySorted tags_in_order (sorted_insert tags_ltb tags x l).
Proof.
  induction l as [|y l IH]; simpl; intros Hs.
  - constructor; constructor.
  - inversion Hs as [|? ? Hl Hy]. subst.
    destruct (tags_ltb (tags y) (tags x)) eqn:E.
    + constructor; [now apply IH|].
      apply Forall_forall. intros z Hz.
      apply (Permutation_in _ (sorted_insert_perm x l)) in Hz.
      destruct Hz as [Hz|Hz].
      * subst z. now apply tags_ltb_in_order.
      * rewrite Forall_forall in Hy. now apply Hy.
    + constructor; [exact Hs|]. constructor; [exact E|].
      apply Forall_forall. intros z Hz. rewrite Forall_forall in Hy.
      apply (tags_in_order_trans x y z); [exact E | now apply Hy].
Qed.

Lemma sorted_sorted (l : list Note) :
  StronglySorted tags_in_order (sorted tags_ltb tags l).
Proof.
  induction l as [|x l IH]; simpl; [constructor|].
  now apply sorted_insert_sorted.
Qed.

Lemma same_tags_eq (t : list str) (note : Note) :
  same_tags t note = true <-> tags note = t.
Proof.
  unfold same_tags.
  destruct (list_eq_dec (list_eq_dec ascii_dec) (tags note) t);
    split; congruence.
Qed.

Lemma sorted_insert_stable (t : list str) (x : Note) (l : list Note) :
  filter (same_tags t) (sorted_insert tags_ltb tags x l)
  = filter (same_tags t) (x :: l).
Proof.
  induction l as [|y l IH]; [reflexivity|].
  cbn [sorted_insert].
  destruct (tags_ltb (tags y) (tags x)) eqn:E; [|reflexivity].
  cbn [filter] in *. rewrite IH.
  destruct (same_tags t y) eqn:Ty; [|reflexivity].
  destruct (same_tags t x) eqn:Tx; [|reflexivity].
  apply same_tags_eq in Tx, Ty. rewrite Tx, Ty, tags_ltb_irrefl in E.
  discriminate E.
Qed.

Lemma sorted_stable (t : list str) (l : list Note) :
  filter (same_tags t) (sorted tags_ltb tags l) = filter (same_tags t) l.
Proof.
  induction l as [|x l IH]; [reflexivity|].
  cbn [sorted fold_right]. rewrite sorted_insert_stable.
  cbn [filter]. fold (sorted tags_ltb tags l). rewrite IH. reflexivity.
Qed.

(** X16.  [search_and_sort_notes] returns the notes that carry the keyword
    as a tag, each as often as the store holds it, in ascending order of
    their tag lists as Python compares lists of strings; notes with the same
    tag list keep the order they have in the store. *)
Theorem search_and_sort_notes_sorted (keyword : str) (self : NotesAssistant) :
  Permutation (search_and_sort_notes keyword self)
              (search_notes_by_tag keyword self)
  /\ StronglySorted tags_in_order (search_and_sort_notes keyword self)
  /\ (forall t,
        filter (same_tags t) (search_and_sort_notes keyword self)
        = filter (same_tags t) (search_notes_by_tag keyword self)).
Proof.
  unfold search_and_sort_notes, search_notes_by_tag. cbn zeta.
  split; [apply sorted_perm|]. split; [apply sorted_sorted|].
  intros t. apply sorted_stable.
Qed.

(** ** What the edit prints, and searching after an edit or a removal *)

Lemma edit_notes_lines (tag new_content : str) (ns : list Note) (out : console) :
  edit_notes tag new_content ns out
  = (Return (map (edited tag new_content) ns), out ++ map (edit_line tag) ns).
Proof.
  revert out. induction ns as [|note ns IH]; intros out; cbn [edit_notes map].
  - unfold ret. rewrite app_nil_r. reflexivity.
  - unfold bind at 1 2 3. unfold edited, edit_line.
    destruct (has_tag tag note) eqn:Ht; cbn [negb];
      unfold print, modify, ret, bind; rewrite IH, <- app_assoc; reflexivity.
Qed.

(** X17.  [edit_note_content] prints one line for every note of the store,
    in the order of the store: the update message for a note that carries the
    tag and the invalid-index message for every other note, also when some
    note was updated. *)
Theorem edit_note_content_prints (self : NotesAssistant) (tag new_content : str) :
  edit_note_content tag new_content self
  = (Return tt,
     mk_NotesAssistant (map (edited tag new_content) (notes self))
                       (printed self ++ map (edit_line tag) (notes self)))
  /\ length (filter (Str.eqb invalid_index_message)
                    (map (edit_line tag) (notes self)))
     = length (notes self) - length (search_notes_by_tag tag self).
Proof.
  split.
  - unfold edit_note_content, bind, get, on_console, set_notes, modify.
    rewrite edit_notes_lines. reflexivity.
  - unfold search_notes_by_tag.
    induction (notes self) as [|note ns IH]; [reflexivity|].
    cbn [map filter length]. unfold edit_line at 1.
    destruct (has_tag tag note); cbn [length].
    + replace (Str.eqb invalid_index_message updated_message) with false
        by reflexivity.
      rewrite IH. reflexivity.
    + rewrite Str_eqb_refl. cbn [length]. rewrite IH.
      pose proof (filter_length_le (has_tag tag) ns). lia.
Qed.

Lemma has_tag_edited (t tag new_content : str) (note : Note) :
  has_tag t (edited tag new_content note) = has_tag t note.
Proof. unfold edited. destruct (has_tag tag note); reflexivity. Qed.

Lemma filter_filter_comm {A} (f g : A -> bool) (l : list A) :
  filter f (filter g l) = filter g (filter f l).
Proof.
  induction l as [|a l IH]; simpl; [reflexivity|].
  destruct (f a) eqn:Ef, (g a) eqn:Eg; simpl; rewrite ?Ef, ?Eg, IH; reflexivity.
Qed.

Lemma edit_note_content_state (self : NotesAssistant)
  (tag new_content : str) :
  snd (edit_note_content tag new_content self)
  = mk_NotesAssistant (map (edited tag new_content) (notes self))
                      (printed self ++ map (edit_line tag) (notes self)).
Proof.
  unfold edit_note_content, bind, get, on_console, set_notes, modify.
  rewrite edit_notes_lines. reflexivity.
Qed.

Lemma delete_note_by_index_state (self : NotesAssistant) (tag : str) :
  snd (delete_note_by_index tag self)
  = mk_NotesAssistant
      (filter (fun note => negb (has_tag tag note)) (notes self))
      (printed self
       ++ [if length (filter (fun note => negb (has_tag tag note)) (notes self))
              =? length (notes self)
           then no_note_message tag else note_deleted_message tag]).
Proof.
  unfold delete_note_by_index, bind, get, set_notes, modify, on_console,
    print, modify.
  cbn [notes printed fst snd].
  destruct (length (filter (fun note => negb (has_tag tag note)) (notes self))
            =? length (notes self)); reflexivity.
Qed.

(** X18.  What [search_notes_by_tag] finds after a change of the store.  A
    note added with [add_note] is found under each of its tags, behind the
    notes found before, and under no other tag.  After [edit_note_content]
    the tag finds the same notes as before, each with the new content.  After
    [delete_note_by_index] the tag finds nothing, every other tag finds what
    it found before less the notes that carried the removed tag, and a second
    removal prints the no-note message and leaves the store as it is. *)
Theorem notes_found_after_change (self : NotesAssistant)
  (tag new_content : str) (new_tags : list str) :
  let added := snd (add_note new_content new_tags self) in
  let changed := snd (edit_note_content tag new_content self) in
  let removed := snd (delete_note_by_index tag self) in
  (forall t,
     search_notes_by_tag t added
     = search_notes_by_tag t self
       ++ (if existsb (Str.eqb t) new_tags
           then [mk_Note new_content new_tags] else []))
  /\ search_notes_by_tag tag changed
     = map (set_content new_content) (search_notes_by_tag tag self)
  /\ search_notes_by_tag tag removed = []
  /\ (forall t,
        search_notes_by_tag t removed
        = filter (fun note => negb (has_tag tag note))
                 (search_notes_by_tag t self))
  /\ delete_note_by_index tag removed
     = (Return tt,
        mk_NotesAssistant (notes removed)
                          (printed removed ++ [no_note_message tag])).
Proof.
  cbn zeta. split; [|split; [|split; [|split]]].
  - intros t. unfold add_note, search_notes_by_tag, bind, get, set_notes, modify.
    cbn [snd notes]. rewrite filter_app. reflexivity.
  - rewrite (edit_note_content_state self tag new_content).
    unfold search_notes_by_tag. cbn [snd notes].
    induction (notes self) as [|note ns IH]; [reflexivity|].
    cbn [map filter]. rewrite has_tag_edited. unfold edited at 1.
    destruct (has_tag tag note); cbn [map]; rewrite IH; reflexivity.
  - rewrite delete_note_by_index_state. unfold search_notes_by_tag.
    cbn [notes].
    induction (notes self) as [|note ns IH]; [reflexivity|].
    cbn [filter]. destruct (has_tag tag note) eqn:Ht; cbn [negb filter];
      rewrite ?Ht; exact IH.
  - intros t. rewrite delete_note_by_index_state. unfold search_notes_by_tag.
    cbn [notes]. apply filter_filter_comm.
  - rewrite delete_note_by_index_state.
    unfold delete_note_by_index, bind, get, set_notes, modify, on_console,
      print, modify.
    cbn [notes printed fst snd].
    set (ns := filter (fun note => negb (has_tag tag note)) (notes self)).
    assert (E : filter (fun note => negb (has_tag tag note)) ns = ns).
    { unfold ns. induction (notes self) as [|note l IH]; [reflexivity|].
      cbn [filter]. destruct (has_tag tag note) eqn:Ht; cbn [negb filter];
        rewrite ?Ht; cbn [negb]; rewrite ?IH; reflexivity. }
    rewrite E, Nat.eqb_refl. reflexivity.
Qed.

(** ** [search] on a store whose records render *)

Lemma renders_text (today : Date.date) (kv : str * Record_) :
  renders today kv ->
  Record_str today (snd kv) = Return (Record_text today (snd kv)).
Proof.
  intros [s E]. unfold Record_text. rewrite E. reflexivity.
Qed.

(** X19.  On a store whose records all render, [search] with a term of three
    characters or more returns the texts of the hits, one after the other in
    the order of the store: for every item first the text of the record and a
    newline when the key contains the term, whatever the case of the letters,
    then the text of the record once more, without a newline, for every phone
    that contains the term as it is.  It returns [None] when there is no
    hit. *)
Theorem search_lists_every_hit (today : Date.date) (value : str)
  (data : AddressBook) :
  3 <= length value ->
  Forall (renders today) data ->
  search today value data
  = Return (match concat (flat_map (search_hits value (Record_text today)) data)
            with
            | [] => None
            | text => Some text
            end).
Proof.
  intros Hlen Hall. unfold search.
  destruct (length value <? 3) eqn:L; [apply Nat.ltb_lt in L; lia|].
  rewrite (search_items_renders today value (Record_text today) data []).
  - cbn [res_bind app].
    destruct (concat (flat_map (search_hits value (Record_text today)) data));
      reflexivity.
  - intros kv Hin. rewrite Forall_forall in Hall.
    exact (renders_text today kv (Hall kv Hin)).
Qed.

Lemma sample_book_renders : Forall (renders march_first_2025) sample_book.
Proof.
  repeat constructor; eexists; vm_compute; reflexivity.
Qed.

(** The theorem on the sample store: the term [Joh] finds the record of
    John by its key. *)
Lemma search_lists_every_hit_witness :
  search march_first_2025 (lit "Joh") sample_book
  = Return (Some (Record_text march_first_2025 sample_record ++ newline)).
Proof.
  rewrite (search_lists_every_hit march_first_2025 (lit "Joh") sample_book
             ltac:(simpl; lia) sample_book_renders).
  vm_compute. reflexivity.
Defined.

(** ** [iterator] *)

Lemma pages_from_nonempty (today : Date.date) (item_number : Z)
  (items : AddressBook) (counter : Z) (result_ : str) :
  pages_from today item_number items counter result_ <> [].
Proof.
  revert counter result_. induction items as [|kv items IH];
    intros counter result_; cbn [pages_from]; [discriminate|].
  cbn zeta. destruct (item_number <=? counter + 1)%Z; [discriminate | apply IH].
Qed.

Lemma last_cons_nonempty {A} (x d : A) (l : list A) :
  l <> [] -> last (x :: l) d = last l d.
Proof. destruct l; [congruence | reflexivity]. Qed.

Lemma iterator_items_pages (today : Date.date) (item_number : Z)
  (items : AddressBook) (counter : Z) (result_ : str) (c : consumer) :
  Forall (renders today) items ->
  exists counts,
    iterator_items today item_number items counter result_ c
    = (Return tt,
       mk_consumer
         (yielded c ++ pages_from today item_number items counter result_)
         (shown c ++ map PInt counts
          ++ [PStr (last (pages_from today item_number items counter result_)
                         [])]))
    /\ length counts = length items.
Proof.
  intros Hall. revert counter result_ c.
  induction Hall as [|[item record] items Hr _ IH]; intros counter result_ c;
    cbn [iterator_items pages_from].
  - exists []. split; reflexivity.
  - pose proof (renders_text today _ Hr) as R. cbn [snd] in R.
    unfold bind at 1, lift. rewrite R.
    unfold bind at 1, show at 1, modify.
    unfold contact_line. cbn [fst snd]. cbn zeta.
    destruct (item_number <=? counter + 1)%Z.
    + unfold bind at 1, yield at 1, modify. cbn [yielded shown].
      destruct (IH 0%Z []
                  (mk_consumer
                     (yielded c ++ [result_ ++ item ++ lit ": "
                                    ++ Record_text today record ++ newline])
                     (shown c ++ [PInt (counter + 1)])))
        as [counts [E L]].
      exists ((counter + 1)%Z :: counts).
      split; [|simpl; lia]. etransitivity; [exact E|]. cbn [yielded shown].
      rewrite (last_cons_nonempty _ _ _ (pages_from_nonempty _ _ _ _ _)).
      cbn [map]. rewrite <- !app_assoc. reflexivity.
    + destruct (IH (counter + 1)%Z
                  (result_ ++ item ++ lit ": "
                   ++ Record_text today record ++ newline)
                  (mk_consumer (yielded c) (shown c ++ [PInt (counter + 1)])))
        as [counts [E L]].
      exists ((counter + 1)%Z :: counts).
      split; [|simpl; lia]. etransitivity; [exact E|].
      cbn [yielded shown map]. rewrite <- !app_assoc. reflexivity.
Qed.

Lemma pages_from_concat (today : Date.date) (item_number : Z)
  (items : AddressBook) (counter : Z) (result_ : str) :
  concat (pages_from today item_number items counter result_)
  = result_ ++ group_text today items.
Proof.
  revert counter result_.
  induction items as [|kv items IH]; intros counter result_;
    cbn [pages_from]; unfold group_text; cbn [map concat].
  - reflexivity.
  - cbn zeta. destruct (item_number <=? counter + 1)%Z.
    + cbn [concat]. rewrite IH. unfold group_text. cbn [app].
      rewrite <- app_assoc. reflexivity.
    + rewrite IH. unfold group_text. rewrite <- app_assoc. reflexivity.
Qed.

(** X20.  On a store whose records all render, [iterator], run to its end,
    gives at least one page, whatever the number of items asked for, and the
    pages put together are the header and the lines of all the items of the
    store, in its order: no item is left out and none comes twice.  It prints
    the header, the dictionary, a count for every item and the last page. *)
Theorem iterator_pages_cover (today : Date.date) (item_number : Z)
  (data : AddressBook) :
  Forall (renders today) data ->
  exists pages counts,
    iterator today item_number data (mk_consumer [] [])
    = (Return tt,
       mk_consumer pages
         (PStr contacts_header :: PDict data
          :: map PInt counts ++ [PStr (last pages [])]))
    /\ pages <> []
    /\ concat pages = contacts_header ++ group_text today data
    /\ length counts = length data.
Proof.
  intros Hall. unfold iterator, bind, show, modify. cbn [yielded shown app].
  destruct (iterator_items_pages today item_number data 0%Z contacts_header
              (mk_consumer [] [PStr contacts_header; PDict data]) Hall)
    as [counts [E L]].
  exists (pages_from today item_number data 0%Z contacts_header), counts.
  split; [etransitivity; [exact E|]; reflexivity|]. split; [apply pages_from_nonempty|].
  split; [apply pages_from_concat | exact L].
Qed.

Lemma pages_from_groups (today : Date.date) (k : Z) (items : AddressBook)
  (counter : Z) (result_ : str) :
  (0 <= counter < k)%Z ->
  exists groups last_,
    items = concat groups ++ last_
    /\ pages_from today k items counter result_
       = match map (group_text today) (groups ++ [last_]) with
         | [] => []
         | page :: pages => (result_ ++ page) :: pages
         end
    /\ match groups with
       | [] => (Z.of_nat (length last_) < k - counter)%Z
       | g :: gs =>
           (Z.of_nat (length g) = k - counter)%Z
           /\ Forall (fun g' => Z.of_nat (length g') = k) gs
           /\ (Z.of_nat (length last_) < k)%Z
       end.
Proof.
  revert counter result_.
  induction items as [|kv items IH]; intros counter result_ Hc;
    cbn [pages_from].
  - exists [], []. cbn [map app group_text concat]. rewrite app_nil_r.
    split; [reflexivity|]. split; [reflexivity|]. simpl. lia.
  - cbn zeta. destruct (Z.leb_spec k (counter + 1)) as [L|L].
    + destruct (IH 0%Z [] ltac:(lia)) as [groups [last_ [E [P S]]]].
      exists ([kv] :: groups), last_. rewrite P, E.
      split; [reflexivity|]. split.
      * cbn [app map]. unfold group_text at 2. cbn [map concat].
        rewrite app_nil_r.
        destruct (map (group_text today) (groups ++ [last_])) eqn:M;
          [|reflexivity].
        apply map_eq_nil in M. destruct groups; discriminate M.
      * split; [simpl; lia|].
        destruct groups as [|g gs].
        -- split; [constructor | lia].
        -- destruct S as [S1 [S2 S3]].
           split; [constructor; [lia | exact S2] | exact S3].
    + destruct (IH (counter + 1)%Z (result_ ++ contact_line today kv)
                  ltac:(lia)) as [groups [last_ [E [P S]]]].
      destruct groups as [|g gs].
      * exists [], (kv :: last_). rewrite P, E.
        split; [reflexivity|]. split.
        -- cbn [app map]. unfold group_text at 2. cbn [map concat].
           rewrite <- app_assoc. reflexivity.
        -- cbn [length]. lia.
      * exists ((kv :: g) :: gs), last_. rewrite P, E.
        split; [reflexivity|]. split.
        -- cbn [app map]. unfold group_text at 3. cbn [map concat].
           rewrite <- app_assoc. reflexivity.
        -- destruct S as [S1 [S2 S3]]. cbn [length].
           split; [lia|]. split; assumption.
Qed.

Lemma pages_from_single (today : Date.date) (k : Z) (items : AddressBook)
  (result_ : str) :
  (k <= 1)%Z ->
  pages_from today k items 0 result_
  = match map (group_text today) (map (fun kv => [kv]) items ++ [[]]) with
    | [] => []
    | page :: pages => (result_ ++ page) :: pages
    end.
Proof.
  intros Hk. revert result_.
  induction items as [|kv items IH]; intros result_; cbn [pages_from].
  - cbn [map app group_text concat]. rewrite app_nil_r. reflexivity.
  - cbn zeta. destruct (Z.leb_spec k (0 + 1)) as [L|L]; [|lia].
    rewrite IH. cbn [map app]. unfold group_text at 2. cbn [map concat].
    rewrite app_nil_r.
    destruct (map (group_text today) (map (fun kv0 => [kv0]) items ++ [[]]))
      eqn:M; [|reflexivity].
    apply map_eq_nil in M. destruct items; discriminate M.
Qed.

Lemma length_concat_groups {A} (k : Z) (groups : list (list A)) :
  Forall (fun g => Z.of_nat (length g) = k) groups ->
  Z.of_nat (length (concat groups)) = (k * Z.of_nat (length groups))%Z.
Proof.
  induction 1 as [|g groups Hg _ IH]; cbn [concat length]; [lia|].
  rewrite length_app. lia.
Qed.

(** X21.  The pages of [iterator] on a store whose records all render.  For
    a number of items of one or more, the store is cut, in its order, into
    groups of exactly that many items and a last group of fewer, which is
    empty when the number divides the size of the store: every group is a
    page, the last group too, and the header stands in front of the first
    page.  For a number of items of one or less, every item is a page of its
    own and an empty page follows. *)
Theorem iterator_page_sizes (today : Date.date) (item_number : Z)
  (data : AddressBook) :
  Forall (renders today) data ->
  exists pages log,
    iterator today item_number data (mk_consumer [] [])
    = (Return tt, mk_consumer pages log)
    /\ ((1 <= item_number)%Z ->
        exists groups last_,
          data = concat groups ++ last_
          /\ Forall (fun g => Z.of_nat (length g) = item_number) groups
          /\ (Z.of_nat (length last_) < item_number)%Z
          /\ pages = group_pages today (groups ++ [last_])
          /\ Z.of_nat (length pages)
             = (Z.of_nat (length data) / item_number + 1)%Z)
    /\ ((item_number <= 1)%Z ->
        pages = group_pages today (map (fun kv => [kv]) data ++ [[]])).
Proof.
  intros Hall. unfold iterator, bind, show, modify. cbn [yielded shown app].
  destruct (iterator_items_pages today item_number data 0%Z contacts_header
              (mk_consumer [] [PStr contacts_header; PDict data]) Hall)
    as [counts [E L]].
  eexists. eexists. split; [etransitivity; [exact E|]; reflexivity|].
  cbn [yielded app]. split.
  - intros Hk.
    destruct (pages_from_groups today item_number data 0%Z contacts_header
                ltac:(lia)) as [groups [last_ [Ed [P Hs]]]].
    exists groups, last_.
    assert (Hg : Forall (fun g => Z.of_nat (length g) = item_number) groups
                 /\ (Z.of_nat (length last_) < item_number)%Z).
    { destruct groups as [|g gs]; cbn iota in Hs;
        [split; [constructor | lia]|].
      destruct Hs as [S1 [S2 S3]].
      split; [constructor; [lia | exact S2] | exact S3]. }
    destruct Hg as [Hg Hl].
    split; [exact Ed|]. split; [exact Hg|]. split; [exact Hl|].
    split; [exact P|].
    rewrite P.
    destruct (map (group_text today) (groups ++ [last_])) eqn:M.
    + apply map_eq_nil in M. destruct groups; discriminate M.
    + apply (f_equal (@length _)) in M.
      rewrite length_map, length_app in M. cbn [length] in *.
      rewrite Ed, length_app, Nat2Z.inj_add.
      rewrite (length_concat_groups item_number groups Hg).
      rewrite Z.mul_comm, Z.div_add_l by lia.
      rewrite Z.div_small by lia. unfold AddressBook, str in *. lia.
  - intros Hk. apply pages_from_single. exact Hk.
Qed.

(** The theorem on the sample store of two records, two to the page: a page
    with both and an empty page. *)
Lemma iterator_page_sizes_witness :
  exists pages log,
    iterator march_first_2025 2 sample_book (mk_consumer [] [])
    = (Return tt, mk_consumer pages log)
    /\ Z.of_nat (length pages) = 2%Z.
Proof.
  destruct (iterator_page_sizes march_first_2025 2 sample_book
              sample_book_renders) as [pages [log [E [H _]]]].
  exists pages, log. split; [exact E|].
  destruct (H ltac:(lia)) as [groups [last_ [_ [_ [_ [_ N]]]]]].
  exact N.
Defined.

(** The theorem of the cover on the sample store. *)
Lemma iterator_pages_cover_witness :
  exists pages counts,
    iterator march_first_2025 1 sample_book (mk_consumer [] [])
    = (Return tt,
       mk_consumer pages
         (PStr contacts_header :: PDict sample_book
          :: map PInt counts ++ [PStr (last pages [])]))
    /\ concat pages
       = contacts_header ++ group_text march_first_2025 sample_book.
Proof.
  destruct (iterator_pages_cover march_first_2025 1 sample_book
              sample_book_renders) as [pages [counts [E [_ [C _]]]]].
  exists pages, counts. split; [exact E | exact C].
Defined.

(** ** The phones of [table_print] *)

Lemma range_by_two_SS (n : nat) :
  range_by_two (S (S n)) = 0 :: map (fun i => S (S i)) (range_by_two n).
Proof.
  unfold range_by_two.
  replace (S (S n) + 1) with (S (S (n + 1))) by lia.
  cbn [Nat.div2 seq map]. f_equal.
  rewrite <- seq_shift, !map_map. apply map_ext. intros j. lia.
Qed.

(** X22.  The cell of the phones that [table_print] and [show_all] build
    holds every phone of the record once, in the order of the list, two to a
    line: the phones of a line are joined by a semicolon and a space and the
    lines by a newline, and a last phone without a partner has a line of its
    own.  A record without phones gives the empty text. *)
Theorem phone_str_two_per_line :
  phone_str [] = []
  /\ (forall p, phone_str [p] = Phone_value p)
  /\ (forall p q, phone_str [p; q] = Phone_value p ++ lit "; " ++ Phone_value q)
  /\ (forall p q r rest,
        phone_str (p :: q :: r :: rest)
        = Phone_value p ++ lit "; " ++ Phone_value q ++ newline
          ++ phone_str (r :: rest)).
Proof.
  split; [reflexivity|]. split; [reflexivity|]. split; [reflexivity|].
  intros p q r rest. unfold phone_str.
  cbn [length]. rewrite range_by_two_SS. cbn [map].
  rewrite map_map.
  replace (map (fun i => Str.join (lit "; ")
                           (map Phone_value
                                (slice_two (S (S i)) (p :: q :: r :: rest))))
               (range_by_two (S (length rest))))
    with (map (fun i => Str.join (lit "; ")
                          (map Phone_value (slice_two i (r :: rest))))
              (range_by_two (S (length rest))))
    by (apply map_ext; intros i; reflexivity).
  unfold slice_two at 1. cbn [skipn firstn map Str.join].
  destruct (map (fun i => Str.join (lit "; ")
                            (map Phone_value (slice_two i (r :: rest))))
                (range_by_two (S (length rest)))) eqn:M.
  - unfold range_by_two in M. replace (S (length rest) + 1) with
      (S (S (length rest))) in M by lia. discriminate M.
  - cbn [Str.join]. rewrite <- !app_assoc. reflexivity.
Qed.

(* ================================================================= *)
(** ** [assistant.py]: the menus at the terminal                     *)
(* ================================================================= *)

(** ** The menus *)

Section MenuProperties.

Local Open Scope io_scope.

Lemma str_split_nonempty (sep : ascii) (s : str) : str_split sep s <> [].
Proof.
  induction s as [|c s IH]; simpl; [discriminate|].
  destruct (Ascii.eqb c sep); [discriminate|].
  destruct (str_split sep s); [congruence | discriminate].
Qed.



(** One round of the loop of the search menu. *)
Lemma search_loop_round (fuel : nat) (today : Date.date)
  (phone_book : AddressBook) (table : Table) (line : str) (more : list str)
  (scr : list shown_item) :
  search_loop (S fuel) today phone_book table (mk_terminal (line :: more) scr)
  = let t1 := mk_terminal more
                (asked_for scr search_prompt (lit "Enter your text=>  ")) in
    if nonempty (Str.lower line) then
      (result_ <- io_lift (search today (Str.lower line) phone_book) ;;
       table' <-
         match result_ with
         | Some text =>
             if nonempty text
             then search_rows (str_split (ascii_of_nat 10) text) table
             else io_ret table
         | None => io_ret table
         end ;;
       print_line no_matches_message ;;;
       search_loop fuel today phone_book table') t1
    else (Done tt, t1).
Proof.
  cbn [search_loop]. unfold io_bind at 1 2 3, print_line at 1 2, input.
  cbn [keyboard screen]. unfold asked_for. rewrite <- !app_assoc. cbn [app].
  cbn zeta. destruct (nonempty (Str.lower line)); reflexivity.
Qed.

Lemma search_rows_keyboard (items : list str) (table : Table) (t : terminal) :
  keyboard (snd (search_rows items table t)) = keyboard t.
Proof.
  revert table t. induction items as [|item items IH]; intros table t;
    [reflexivity|].
  cbn [search_rows]. cbn zeta. unfold list_index, io_bind, io_fail, io_ret.
  destruct (nth_error (str_split "," item) 0); [|reflexivity].
  destruct (nth_error (str_split "," item) 1); [|reflexivity].
  destruct (nth_error (str_split "," item) 2); [|reflexivity].
  destruct (nth_error (str_split "," item) 3); [|reflexivity].
  destruct (nth_error (str_split "," item) 4); [|reflexivity].
  destruct (nth_error (str_split "," item) 5); [|reflexivity].
  unfold console_print. rewrite IH. reflexivity.
Qed.

(** Any number of rounds above the number of lines on the keyboard gives
    the same run of the search menu. *)
Lemma search_loop_enough (fuel fuel' : nat) (today : Date.date)
  (phone_book : AddressBook) (table : Table) (t : terminal) :
  length (keyboard t) < fuel -> length (keyboard t) < fuel' ->
  search_loop fuel today phone_book table t
  = search_loop fuel' today phone_book table t.
Proof.
  revert fuel' table t.
  induction fuel as [|fuel IH]; intros fuel' table t H H'; [lia|].
  destruct fuel' as [|fuel']; [lia|].
  destruct t as [[|line more] scr]; [reflexivity|].
  cbn [keyboard length] in H, H'.
  rewrite !search_loop_round. cbn zeta.
  destruct (nonempty (Str.lower line)); [|reflexivity].
  unfold io_bind at 1 4.
  destruct (search today (Str.lower line) phone_book) as [result_|e];
    [|reflexivity].
  cbn [io_lift io_ret]. unfold io_bind at 1 3.
  set (t1 := mk_terminal more
               (asked_for scr search_prompt (lit "Enter your text=>  "))).
  assert (Hk : forall (m : IO Table),
             keyboard (snd (m t1)) = more ->
             match m t1 with
             | (Done a, t') =>
                 (print_line no_matches_message ;;;
                  search_loop fuel today phone_book a) t'
             | (Failed e, t') => (Failed e, t')
             end
             = match m t1 with
               | (Done a, t') =>
                   (print_line no_matches_message ;;;
                    search_loop fuel' today phone_book a) t'
               | (Failed e, t') => (Failed e, t')
               end).
  { intros m Hm. destruct (m t1) as [[a|e] t']; [|reflexivity].
    cbn [snd] in Hm. unfold io_bind, print_line.
    apply IH; cbn [keyboard]; rewrite Hm; lia. }
  destruct result_ as [text|]; [destruct (nonempty text)|].
  - apply Hk. rewrite search_rows_keyboard. reflexivity.
  - apply Hk. reflexivity.
  - apply Hk. reflexivity.
Qed.












(** *** [show_all] *)

Lemma renders_cells (today : Date.date) (kv : str * Record_) :
  renders today kv ->
  contact_row today (snd kv) = io_ret (contact_cells today (snd kv)).
Proof.
  intros [s E]. unfold Record_str in E. unfold contact_row, contact_cells.
  destruct (days_to_birthday today (snd kv)); [reflexivity | discriminate E].
Qed.

Lemma show_all_round (fuel : nat) (today : Date.date)
  (phone_book : AddressBook) (line : str) (more : list str)
  (scr : list shown_item) :
  show_all_loop (S fuel) today phone_book (mk_terminal (line :: more) scr)
  = let t1 := mk_terminal more
                (asked_for scr show_all_prompt (lit "Enter number=> ")) in
    if Str.isdigit line then
      if nonempty phone_book then
        (n <- int_of_digits line ;;
         show_pages today n phone_book 0%Z 0%Z contact_table) t1
      else
        (print_line no_contacts_message ;;;
         show_all_loop fuel today phone_book) t1
    else if str_isalpha line then
      (print_line (lit "You entered letters: " ++ line) ;;;
       show_all_loop fuel today phone_book) t1
    else if nonempty phone_book then
      (table <- show_rows today phone_book contact_table ;;
       console_print table) t1
    else print_line no_contacts_message t1.
Proof.
  cbn [show_all_loop]. unfold io_bind at 1 2 3, print_line at 1 2, input.
  cbn [keyboard screen]. unfold asked_for. rewrite <- !app_assoc. cbn [app].
  cbn zeta.
  destruct (Str.isdigit line), (nonempty phone_book), (str_isalpha line);
    reflexivity.
Qed.











(** The lines of the theorem on the sample store: [0] and the superscript
    two. *)
Lemma show_all_edge_examples :
  show_all march_first_2025 sample_book (mk_terminal [lit "0"] [])
  = (Failed (ZeroDivisionError (lit "integer modulo by zero")),
     mk_terminal [] (asked_for [] show_all_prompt (lit "Enter number=> ")))
  /\ exists msg,
       show_all march_first_2025 sample_book
         (mk_terminal [[ascii_of_nat 178]] [])
       = (Failed (Builtin (ValueError msg)),
          mk_terminal [] (asked_for [] show_all_prompt (lit "Enter number=> "))).
Proof. split; [|eexists]; vm_compute; reflexivity. Qed.

(** Any number of rounds above the number of lines on the keyboard gives
    the same run of [show_all]. *)
Lemma show_all_loop_enough (fuel fuel' : nat) (today : Date.date)
  (phone_book : AddressBook) (t : terminal) :
  length (keyboard t) < fuel -> length (keyboard t) < fuel' ->
  show_all_loop fuel today phone_book t
  = show_all_loop fuel' today phone_book t.
Proof.
  revert fuel' t.
  induction fuel as [|fuel IH]; intros fuel' t H H'; [lia|].
  destruct fuel' as [|fuel']; [lia|].
  destruct t as [[|line more] scr]; [reflexivity|].
  cbn [keyboard length] in H, H'.
  rewrite !show_all_round. cbn zeta.
  destruct (Str.isdigit line), (nonempty phone_book), (str_isalpha line);
    try reflexivity;
    unfold io_bind, print_line; apply IH; cbn [keyboard]; lia.
Qed.

(** *** [birthday_in_given_days_menu] *)


Lemma str_split_length (sep : ascii) (s : str) : 1 <= length (str_split sep s).
Proof.
  pose proof (str_split_nonempty sep s).
  destruct (str_split sep s); [congruence | simpl; lia].
Qed.







(** *** [birthdays_for_date_menu] *)

(** The loop over the names puts them one after the other, each between
    [| ] and [ |]. *)
Lemma names_cell_concat (birth : list str) :
  names_cell birth = concat (map (fun el => lit "| " ++ el ++ lit " |") birth).
Proof.
  unfold names_cell.
  assert (H : forall acc,
             fold_left (fun s el => s ++ lit "| " ++ el ++ lit " |") birth acc
             = acc ++ concat (map (fun el => lit "| " ++ el ++ lit " |") birth)).
  { induction birth as [|el birth IH]; intros acc; cbn [fold_left map concat].
    - rewrite app_nil_r. reflexivity.
    - rewrite IH, <- !app_assoc. reflexivity. }
  exact (H []).
Qed.

(** X27.  [birthdays_for_date_menu] on a store that is not empty draws one
    table of one row and one cell, which holds the names of exactly the
    records whose birthday has the month and the day of today, in the order
    of the store: the cell is [| ] ++ name ++ [ |] for every one of them, one
    after the other with nothing between; when there is no such record
    it prints that there is no birthday this day and draws nothing.  On an
    empty store it prints that there are no contacts.  (Today is in the year
    1000 or later, and the store holds no birthday on a 29 February.) *)
Theorem birthdays_for_date_menu_shows (today : Date.date)
  (phone_book : AddressBook) (t : terminal) :
  Date.valid today = true -> (1000 <= Date.year today)%Z ->
  Forall regular_birthday phone_book ->
  birthdays_for_date_menu today phone_book t
  = (Done tt,
     mk_terminal (keyboard t)
       (screen t
        ++ match phone_book, map fst (filter (born_on today) phone_book) with
           | [], _ => [Line no_contacts_message]
           | _, [] => [Line no_birthday_this_day_message]
           | _, names =>
               [Drawn (mk_Table (lit "Birthdays information") [lit "Name"]
                         [[concat (map (fun nm => lit "| " ++ nm ++ lit " |")
                                       names)]])]
           end)).
Proof.
  intros Vt Hy Hall. unfold birthdays_for_date_menu. cbn zeta.
  destruct phone_book as [|kv rest_] eqn:Ebook; [reflexivity|].
  rewrite <- Ebook in *.
  replace (nonempty phone_book) with true by (rewrite Ebook; reflexivity).
  cbn [negb].
  destruct (strftime_strptime today Vt Hy) as [_ E].
  pose proof (proj1 (valid_fields today) Vt) as [Hr _].
  unfold io_bind, on_screen, birthdays_for_date, bind, lift. rewrite E.
  rewrite (for_date_items_regular today today phone_book [] Hr Hall).
  rewrite Z.eqb_refl. cbn [app].
  destruct (map fst (filter (born_on today) phone_book)) as [|nm names];
    cbn [length Nat.eqb]; unfold print, modify, ret; cbn [io_lift io_ret map];
    unfold io_ret; [reflexivity|].
  unfold nonempty. cbn [length Nat.eqb negb]. unfold console_print.
  cbn [keyboard screen map]. rewrite app_nil_r, names_cell_concat.
  reflexivity.
Qed.

Lemma june_first_friends_regular : Forall regular_birthday june_first_friends.
Proof.
  repeat constructor; unfold regular_day; simpl; lia.
Qed.

(** The theorem on the 1 June 2025 and the store of Mary and Ann, born on a
    1 June, and of John, who has no birthday: the cell holds the two names,
    and on the store of Mary alone her name. *)
Lemma birthdays_for_date_menu_shows_witness :
  birthdays_for_date_menu (Date.mk_date 2025 6 1) june_first_friends
    (mk_terminal [] [])
  = (Done tt,
     mk_terminal []
       [Drawn (mk_Table (lit "Birthdays information") [lit "Name"]
                        [[lit "| Mary || Ann |"]])])
  /\ birthdays_for_date_menu (Date.mk_date 2025 6 1) june_first_book
       (mk_terminal [] [])
     = (Done tt,
        mk_terminal []
          [Drawn (mk_Table (lit "Birthdays information") [lit "Name"]
                           [[lit "| Mary |"]])]).
Proof.
  split.
  - exact (birthdays_for_date_menu_shows (Date.mk_date 2025 6 1)
             june_first_friends (mk_terminal [] []) eq_refl
             ltac:(simpl; lia) june_first_friends_regular).
  - exact (birthdays_for_date_menu_shows (Date.mk_date 2025 6 1)
             june_first_book (mk_terminal [] []) eq_refl ltac:(simpl; lia)
             june_first_book_regular).
Defined.

(** *** [delete_contact] *)

Lemma find_record_reads (w : session) (data : AddressBook) (name_ : str)
  (more : list str) (scr : list shown_item) :
  phone_book_file w = Some data ->
  term w = mk_terminal (name_ :: more) scr ->
  find_record w
  = (Done (inl (find name_ data)),
     set_term (mk_terminal more (asked_name scr))
              (set_phone_book_data data w)).
Proof.
  intros Hf Ht. unfold find_record, input_error, io_bind, read_if_file.
  rewrite Hf. unfold on_term, print_line, input.
  cbn [term set_phone_book_data set_term keyboard screen]. rewrite Ht.
  cbn [keyboard screen phone_book_data]. unfold asked_name.
  rewrite <- app_assoc. reflexivity.
Qed.

(** X28.  [delete_contact] when the file of the phone book exists and the
    user types a name.  The store is read from the file.  A name that is not
    a key is answered with the not-found line.  For a key whose record
    renders, the table of the record is drawn and the user is asked: on the
    answers [1] and [yes], in any case of the letters, the record is taken
    out under its own name and the store is written to the file; on any
    other answer nothing is written.  For a key whose record does not render,
    because [days_to_birthday] raises [ValueError], the call returns
    [Incorrect information entered] before it asks, so that this record is
    not removed; the file is as before. *)
Theorem delete_contact_outcomes (today : Date.date) (w : session)
  (data : AddressBook) (name_ : str) (more : list str)
  (scr : list shown_item) :
  phone_book_file w = Some data ->
  term w = mk_terminal (name_ :: more) scr ->
  (find name_ data = None ->
   delete_contact today w
   = (Done (inl tt),
      set_term (mk_terminal more (asked_name scr ++ [Line not_found_line]))
               (set_phone_book_data data w)))
  /\ (forall record msg,
        find name_ data = Some record ->
        days_to_birthday today record = Raise (ValueError msg) ->
        delete_contact today w
        = (Done (inr (lit "Incorrect information entered")),
           set_term (mk_terminal more (asked_name scr))
                    (set_phone_book_data data w)))
  /\ (forall record answer more',
        find name_ data = Some record ->
        renders today (name_, record) ->
        more = answer :: more' ->
        let shown :=
          asked_name scr
          ++ [Drawn (contacts_with [contact_cells today record]);
              Line really_delete_line; Asked (lit "Enter your text=>  ")] in
        delete_contact today w
        = (Done (inl tt),
           if confirmed answer then
             set_phone_book_file
               (Some (dict_pop (Name_value (name record)) data))
               (set_term
                  (mk_terminal more'
                     (shown
                      ++ [Line (removed_line (Name_value (name record)))]))
                  (set_phone_book_data
                     (dict_pop (Name_value (name record)) data) w))
           else
             set_term (mk_terminal more' shown)
                      (set_phone_book_data data w))).
Proof.
  intros Hf Ht. unfold delete_contact.
  split; [|split].
  - intros Hn. unfold input_error at 1, io_bind at 1.
    rewrite (find_record_reads w data name_ more scr Hf Ht), Hn.
    unfold on_term, print_line. cbn [term set_term keyboard screen].
    reflexivity.
  - intros record msg Hr Hd. unfold input_error at 1, io_bind at 1.
    rewrite (find_record_reads w data name_ more scr Hf Ht), Hr.
    unfold io_bind at 1, on_term at 1, table_print, io_bind at 1, contact_row.
    cbn [term set_term]. unfold io_bind at 1. rewrite Hd.
    cbn [io_lift io_fail]. reflexivity.
  - intros record answer more' Hr Hrend Hm. subst more. cbn zeta.
    unfold input_error at 1, io_bind at 1.
    rewrite (find_record_reads w data name_ (answer :: more') scr Hf Ht), Hr.
    pose proof (renders_cells today _ Hrend) as Ec. cbn [snd] in Ec.
    unfold io_bind at 1, on_term at 1, table_print, io_bind at 1.
    cbn [term set_term]. rewrite Ec. unfold io_ret at 1 2.
    unfold io_bind at 1, on_term at 1, console_print.
    cbn [term set_term keyboard screen].
    unfold io_bind at 1, on_term at 1, print_line at 1.
    cbn [term set_term keyboard screen].
    unfold io_bind at 1, on_term at 1, input.
    cbn [term set_term keyboard screen]. cbn zeta.
    change (add_row (contact_cells today record) contact_table)
      with (contacts_with [contact_cells today record]).
    unfold confirmed.
    destruct (Str.eqb (Str.lower answer) (lit "1")
              || Str.eqb (Str.lower answer) (lit "yes")).
    + unfold io_bind at 1, on_phone_book, delete, bind, get, put, ret.
      cbn [phone_book_data set_term set_phone_book_data].
      assert (Hmem : dict_mem (Name_value (name record)) data = true
                     \/ dict_pop (Name_value (name record)) data = data).
      { destruct (dict_mem (Name_value (name record)) data) eqn:Hmem;
          [left; reflexivity|].
        right. apply dict_pop_absent. intros Hin.
        apply dict_mem_In in Hin. congruence. }
      destruct (dict_mem (Name_value (name record)) data) eqn:Hmem'.
      * cbn [io_lift io_ret]. unfold io_bind, on_term, print_line, write_to_file.
        cbn [term set_term set_phone_book_data phone_book_data keyboard screen
             phone_book_file notes_data notes_file set_phone_book_file].
        rewrite <- !app_assoc. reflexivity.
      * destruct Hmem as [Hmem|Hmem]; [discriminate Hmem|]. rewrite Hmem.
        cbn [io_lift io_ret]. unfold io_bind, on_term, print_line, write_to_file.
        cbn [term set_term set_phone_book_data phone_book_data keyboard screen
             phone_book_file notes_data notes_file set_phone_book_file].
        rewrite <- !app_assoc. reflexivity.
    + unfold io_ret. rewrite <- !app_assoc. reflexivity.
Qed.

(** The theorem on the sample store in the file, on the 1 March 2025: John is
    removed on the answer [YES]; and the record of the store of a birthday on
    a 29 February is not removed, whatever would be answered. *)
Lemma delete_contact_outcomes_witness :
  (exists scr,
     delete_contact march_first_2025
       (mk_session [] (Some sample_book) [] None
                   (mk_terminal [lit "John"; lit "YES"] []))
     = (Done (inl tt),
        mk_session [(lit "Mary", Record_init (lit "Mary"))]
                   (Some [(lit "Mary", Record_init (lit "Mary"))]) [] None
                   (mk_terminal [] scr)))
  /\ delete_contact march_first_2025
       (mk_session [] (Some leap_day_book) [] None
                   (mk_terminal [lit "John"; lit "YES"] []))
     = (Done (inr (lit "Incorrect information entered")),
        mk_session leap_day_book (Some leap_day_book) [] None
                   (mk_terminal [lit "YES"] (asked_name []))).
Proof.
  split.
  - eexists.
    exact (proj2 (proj2 (delete_contact_outcomes march_first_2025
                           (mk_session [] (Some sample_book) [] None
                              (mk_terminal [lit "John"; lit "YES"] []))
                           sample_book (lit "John") [lit "YES"] []
                           eq_refl eq_refl))
             sample_record (lit "YES") [] eq_refl
             (Forall_inv sample_book_renders) eq_refl).
  - exact (proj1 (proj2 (delete_contact_outcomes march_first_2025
                           (mk_session [] (Some leap_day_book) [] None
                              (mk_terminal [lit "John"; lit "YES"] []))
                           leap_day_book (lit "John") [lit "YES"] []
                           eq_refl eq_refl))
             leap_day_record _ eq_refl eq_refl).
Defined.

(** *** The menus of the notes *)

Lemma join_str_split (sep : ascii) (s : str) :
  Str.join [sep] (str_split sep s) = s.
Proof.
  induction s as [|c s IH]; [reflexivity|]. cbn [str_split].
  pose proof (str_split_nonempty sep s) as Hne.
  destruct (Ascii.eqb c sep) eqn:Ec.
  - apply Ascii.eqb_eq in Ec. subst c.
    destruct (str_split sep s) as [|x l]; [congruence|].
    cbn [Str.join app] in *. rewrite IH. reflexivity.
  - destruct (str_split sep s) as [|x l]; [congruence|].
    destruct l; cbn [Str.join app] in *; rewrite <- IH; reflexivity.
Qed.

Lemma str_split_no_sep (sep : ascii) (s : str) :
  Forall (fun part => ~ In sep part) (str_split sep s).
Proof.
  induction s as [|c s IH]; cbn [str_split].
  - constructor; [intros []|constructor].
  - destruct (Ascii.eqb c sep) eqn:Ec.
    + constructor; [intros []|exact IH].
    + apply Ascii.eqb_neq in Ec.
      destruct (str_split sep s) as [|x l].
      * constructor; [|constructor]. intros [H|[]]. congruence.
      * inversion IH as [|? ? Hx Hl]; subst. constructor; [|exact Hl].
        intros [H|H]; [congruence|exact (Hx H)].
Qed.

(** X29.  [note_add_menu] reads the text and the line of the tags, adds one
    note behind the notes of the store and writes the store to the file.  The
    tags of the note are the pieces of the line between its commas, as they
    were typed: no piece holds a comma, the pieces joined with commas give
    the line back, and spaces around a piece stay part of the tag.  There is
    always one tag at least: on the empty line, which the prompt offers for a
    note without tags, the note carries the empty tag, and the search for the
    empty tag finds it. *)
Theorem note_add_menu_tags (w : session) (content_ line : str)
  (more : list str) (scr : list shown_item) :
  term w = mk_terminal (content_ :: line :: more) scr ->
  let tags_ := str_split "," line in
  let ns := notes_data w ++ [mk_Note content_ tags_] in
  note_add_menu w
  = (Done tt,
     mk_session (phone_book_data w) (phone_book_file w) ns (Some ns)
       (mk_terminal more
          (scr ++ [Asked (lit "Enter your text for the note: ");
                   Asked (lit "Enter tags separated by commas (or press Enter if no tags): ")])))
  /\ Str.join (lit ",") tags_ = line
  /\ Forall (fun tag => ~ In ","%char tag) tags_
  /\ 1 <= length tags_
  /\ (line = [] ->
      tags_ = [[]]
      /\ In (mk_Note content_ [[]])
            (search_notes_by_tag [] (mk_NotesAssistant ns []))).
Proof.
  intros Ht tags_ ns. split; [|split; [|split; [|split]]].
  - unfold note_add_menu, io_bind, on_term, input. rewrite Ht.
    cbn [keyboard screen set_term term]. unfold on_notes.
    cbn [notes_data]. unfold add_note, bind, get, set_notes, modify.
    cbn [notes printed io_lift map set_notes_data set_term term keyboard
         screen notes_data notes_file phone_book_data phone_book_file].
    unfold note_write_to_file, set_notes_file.
    cbn [notes_data notes_file phone_book_data phone_book_file term].
    rewrite app_nil_r, <- app_assoc. reflexivity.
  - apply join_str_split.
  - apply str_split_no_sep.
  - apply str_split_length.
  - intros ->. split; [reflexivity|].
    unfold search_notes_by_tag. cbn [notes]. apply filter_In. split.
    + subst ns tags_. apply in_or_app. right. left. reflexivity.
    + reflexivity.
Qed.

(** The menu on the sample notes, the text [new] and the line [a, b]: the
    second tag keeps its space. *)
Lemma note_add_menu_tags_witness :
  note_add_menu
    (mk_session [] None (notes sample_notes) None
                (mk_terminal [lit "new"; lit "a, b"] []))
  = (Done tt,
     mk_session [] None
       (notes sample_notes ++ [mk_Note (lit "new") [lit "a"; lit " b"]])
       (Some (notes sample_notes ++ [mk_Note (lit "new") [lit "a"; lit " b"]]))
       (mk_terminal []
          [Asked (lit "Enter your text for the note: ");
           Asked (lit "Enter tags separated by commas (or press Enter if no tags): ")])).
Proof.
  exact (proj1 (note_add_menu_tags
                  (mk_session [] None (notes sample_notes) None
                              (mk_terminal [lit "new"; lit "a, b"] []))
                  (lit "new") (lit "a, b") [] [] eq_refl)).
Defined.

Lemma filter_all_length {A} (f : A -> bool) (l : list A) :
  (length (filter f l) =? length l) = forallb f l.
Proof.
  induction l as [|a l IH]; [reflexivity|]. cbn [filter forallb].
  destruct (f a); cbn [length andb].
  - exact IH.
  - pose proof (filter_length_le f l). apply Nat.eqb_neq. lia.
Qed.

Lemma forallb_negb_existsb {A} (f : A -> bool) (l : list A) :
  forallb (fun a => negb (f a)) l = negb (existsb f l).
Proof.
  induction l as [|a l IH]; [reflexivity|]. cbn [forallb existsb].
  rewrite IH. destruct (f a); reflexivity.
Qed.

(** X30.  [note_delete_menu] and [note_charge_menu] read a tag, change the
    store and write it to the file, also when no note carries the tag.  After
    [note_delete_menu] the store and the file hold the notes that do not
    carry the tag, in their order, and one line is printed: that the note was
    deleted when some note carried the tag, whatever their number, and that
    no note was found otherwise; these are two different lines.  After
    [note_charge_menu] every note that carries the tag has the new text, the
    other notes and all the tags are as before, and one line is printed for
    every note of the store, the update line or the invalid-index line,
    which are different lines as well. *)
Theorem note_menus_change_file (w : session) (tag : str) (more : list str)
  (scr : list shown_item) :
  term w = mk_terminal (tag :: more) scr ->
  (let ns := filter (fun note => negb (has_tag tag note)) (notes_data w) in
   note_delete_menu w
   = (Done tt,
      mk_session (phone_book_data w) (phone_book_file w) ns (Some ns)
        (mk_terminal more
           (scr ++ [Asked (lit "Enter tag of the note to delete: ");
                    Line (if existsb (has_tag tag) (notes_data w)
                          then note_deleted_message tag
                          else no_note_message tag)]))))
  /\ (forall new_content more',
        more = new_content :: more' ->
        let ns := map (edited tag new_content) (notes_data w) in
        note_charge_menu w
        = (Done tt,
           mk_session (phone_book_data w) (phone_book_file w) ns (Some ns)
             (mk_terminal more'
                (scr ++ [Asked (lit "Enter tag of the note to edit: ");
                         Asked (lit "Enter new text for the note: ")]
                     ++ map (fun note => Line (edit_line tag note))
                            (notes_data w))))
        /\ map tags ns = map tags (notes_data w))
  /\ note_deleted_message tag <> no_note_message tag
  /\ updated_message <> invalid_index_message.
Proof.
  intros Ht.
  split; [|split; [|split; [apply delete_messages_differ|discriminate]]].
  - cbn zeta. unfold note_delete_menu, io_bind, on_term, input. rewrite Ht.
    cbn [keyboard screen set_term term]. unfold on_notes.
    cbn [notes_data set_term term keyboard screen].
    pose proof (delete_note_by_index_state
                  (mk_NotesAssistant (notes_data w) []) tag) as Es.
    destruct (delete_note_by_index tag (mk_NotesAssistant (notes_data w) []))
      as [r self'] eqn:Ed.
    assert (Er : r = Return tt).
    { revert Ed. unfold delete_note_by_index, bind, get, set_notes, modify,
        on_console, print, modify. cbn [notes printed].
      destruct (length (filter (fun note => negb (has_tag tag note))
                               (notes_data w)) =? length (notes_data w));
        intros Ed; inversion Ed; reflexivity. }
    cbn [snd] in Es. subst r self'. cbn [notes printed app map io_lift].
    rewrite filter_all_length, forallb_negb_existsb.
    unfold note_write_to_file, set_notes_file, set_term, set_notes_data.
    cbn [notes_data notes_file phone_book_data phone_book_file term keyboard
         screen].
    rewrite <- app_assoc. cbn [app].
    destruct (existsb (has_tag tag) (notes_data w)); reflexivity.
  - intros new_content more' ->. cbn zeta. split.
    + unfold note_charge_menu, io_bind, on_term, input. rewrite Ht.
      cbn [keyboard screen set_term term]. unfold on_notes.
      cbn [notes_data set_term term keyboard screen].
      unfold edit_note_content, bind, get, on_console, set_notes, modify.
      cbn [notes printed]. rewrite edit_notes_lines.
      cbn [notes printed app map io_lift].
      unfold note_write_to_file, set_notes_file, set_term, set_notes_data.
      cbn [notes_data notes_file phone_book_data phone_book_file term keyboard
           screen].
      unfold io_ret. rewrite map_map, <- !app_assoc. reflexivity.
    + rewrite map_map. apply map_ext. intros note. unfold edited.
      destruct (has_tag tag note); reflexivity.
Qed.

(** The menus on the sample notes and the tag [home], which two of the three
    notes carry. *)
Lemma note_menus_change_file_witness :
  note_delete_menu
    (mk_session [] None (notes sample_notes) None
                (mk_terminal [lit "home"] []))
  = (Done tt,
     mk_session [] None
       [mk_Note (lit "call Bob") [lit "work"]]
       (Some [mk_Note (lit "call Bob") [lit "work"]])
       (mk_terminal []
          [Asked (lit "Enter tag of the note to delete: ");
           Line (note_deleted_message (lit "home"))])).
Proof.
  exact (proj1 (note_menus_change_file
                  (mk_session [] None (notes sample_notes) None
                              (mk_terminal [lit "home"] []))
                  (lit "home") [] [] eq_refl)).
Defined.

End MenuProperties.
